(** * Keyboard navigation of a chart: the module sequence and its coordinator

    A shallow embedding of the [KeyboardNavigation] class (the main
    keyboard navigation handling of the accessibility module, source file
    unnamed/part_001): the ordered list of keyboard navigation handlers
    ("modules"), the index of the current one, the flags that tell the
    handlers why focus is moving, and the exit anchor that hands focus back
    to the page.

    Conventions of the embedding.
    - A JavaScript number used as an index or a direction is a [Z];
      [modules[ix]] is [module_at], which is [None] (undefined) out of range.
    - An optional boolean field ([exiting?: boolean]) is an [option bool];
      [None] is undefined (also the result of [delete]), and a condition
      tests it with [truthy].
    - The chart state that the modules read and write is an abstract type
      [World]; a module's capabilities are functions over it, and an absent
      capability is [None].
    - Calls that leave the class (into a module, into the DOM, on the
      event) are recorded, newest first, in the ghost field [trace].
      [el.focus()] is recorded as an effect; the focus event that the
      platform delivers for it is a later input of the machine.
    - A call on undefined is [ThrowsTypeError]; [move] recurses on a
      [fuel] that bounds the depth of its activations. *)

From Stdlib Require Import ZArith List String Bool Lia.
Import ListNotations.
Open Scope Z_scope.

(** ** Results of a call *)

Inductive Outcome (A : Type) : Type :=
| Returns (a : A)
| ThrowsTypeError
| OutOfFuel.

Arguments Returns {A} a.
Arguments ThrowsTypeError {A}.
Arguments OutOfFuel {A}.

(** Truthiness of an optional boolean field. *)
Definition truthy (b : option bool) : bool :=
  match b with
  | Some true => true
  | _ => false
  end.

(** Truthiness of a string attribute value: null and the empty string are
    falsy. *)
Definition truthy_attr (a : option string) : bool :=
  match a with
  | Some s => negb (String.eqb s "")
  | None => false
  end.

(** ** EventProvider *)

Module EventProvider.

Inductive Target : Type :=
| OnTabindexContainer
| OnDocument
| OnRenderTo
| OnExitAnchor.

Record Subscription : Type := {
  target : Target;
  eventName : string
}.

(** Modelled from the spec: the class EventProvider (Utils/EventProvider)
    is not among the sources. The spec (4.3) says that it is a scoped
    lifecycle for event subscriptions; the instance is the list of the
    subscriptions it has acquired and not yet released. *)
Record t : Type := {
  eventRemovers : list Subscription
}.

(** Modelled from the spec: a new instance holds no subscription. *)
Definition create : t := {| eventRemovers := [] |}.

(** Modelled from the spec: [addEvent(target, type, handler)] registers a
    subscription. *)
Definition addEvent (tg : Target) (name : string) (ep : t) : t :=
  {| eventRemovers :=
       eventRemovers ep ++ [ {| target := tg; eventName := name |} ] |}.

(** Modelled from the spec: [removeAddedEvents()] releases every
    subscription acquired through the instance; none of them is left. *)
Definition removeAddedEvents (ep : t) : t :=
  {| eventRemovers := [] |}.

End EventProvider.

(** ** KeyboardNavigationHandler: the module contract *)

Module Response.

(** Modelled from the spec: the class KeyboardNavigationHandler is not
    among the sources. Its response codes are read by [onKeydown] from
    the module itself ([curNavModule.response.success], [.prev],
    [.next]), so they are fields of a table that each module carries;
    any other number is a code without a meaning for the class. *)
Record t : Type := {
  success : Z;
  prev : Z;
  next : Z
}.

End Response.

Module Handler.

Section Def.

Context {World KeyEvent : Type}.

(** Modelled from the spec: the module contract (3, 4.2), as the class
    uses it. [validate], [init] and [terminate] are optional; [run] is
    called unguarded and answers one response code. [terminate] is
    called with a direction by [move] and without one by [onMouseUp].
    The capabilities are parameters: nothing is assumed about what a
    module does to the chart state. *)
Record t : Type := {
  validate : option (World -> bool);
  init : option (Z -> World -> World);
  terminate : option (option Z -> World -> World);
  run : KeyEvent -> World -> Z * World;
  response : Response.t
}.

End Def.

Arguments t : clear implicits.

End Handler.

(** ** The chart and the DOM around it *)

(** What the class asks of the chart besides the modules' own state:
    whether there is a focus element, and the removal of its border. *)
Class ChartOps (World : Type) : Type := {
  hasFocusElement : World -> bool;
  removeFocusBorder : World -> World
}.

Record KeyboardNavigationOptions : Type := {
  enabled : option bool
}.

(** The element that carries the tab stop: [chart.container] or
    [chart.renderTo]. *)
Inductive TabindexContainer : Type :=
| Container
| RenderTo.

(** The exit anchor element: the end-of-chart marker when there is one,
    a created [div] otherwise. *)
Record ExitAnchor : Type := {
  isEndMarker : bool;
  parentNode : bool;
  className : string;
  anchorTabindex : string;
  ariaHidden : bool
}.

Record Chart (World : Type) : Type := mkChart {
  keyboardNavigationOptions : option KeyboardNavigationOptions;
  renderToTabindex : option string;
  containerTabindex : option string;
  endMarkerInDocument : bool;
  world : World
}.

Arguments mkChart {World}.
Arguments keyboardNavigationOptions {World}.
Arguments renderToTabindex {World}.
Arguments containerTabindex {World}.
Arguments endMarkerInDocument {World}.
Arguments world {World}.

(** Calls that leave the class. *)
Inductive Effect : Type :=
| EnterMove (direction : Z)  (* an activation of [move] *)
| CallTerminate (ix : Z) (direction : option Z)
| CallValidate (ix : Z) (result : bool)
| CallInit (ix : Z) (direction : Z)
| CallRun (ix : Z) (code : Z)
| RemoveFocusBorder
| FocusExitAnchor
| FocusTabindexContainer
| PreventDefault
| StopPropagation.

(** ** The class *)

Section Class.

Context {World KeyEvent ComponentName : Type}.
Context {ops : ChartOps World}.

Local Abbreviation Module_ := (Handler.t World KeyEvent).

Record KeyboardNavigation : Type := mkKN {
  chart : Chart World;
  components : ComponentName -> list Module_;
  currentModuleIx : Z;
  eventProvider : EventProvider.t;
  exitAnchor : option ExitAnchor;
  exiting : option bool;
  isClickingChart : option bool;
  keyboardReset : option bool;
  modules : list Module_;
  pointerIsOverChart : option bool;
  tabindexContainer : TabindexContainer;
  tabbingInBackwards : option bool;
  trace : list Effect
}.

(** Field assignments. *)

Definition set_chart (v : Chart World) (k : KeyboardNavigation) :=
  mkKN v (components k) (currentModuleIx k) (eventProvider k)
    (exitAnchor k) (exiting k) (isClickingChart k) (keyboardReset k)
    (modules k) (pointerIsOverChart k) (tabindexContainer k)
    (tabbingInBackwards k) (trace k).

Definition set_currentModuleIx (v : Z) (k : KeyboardNavigation) :=
  mkKN (chart k) (components k) v (eventProvider k)
    (exitAnchor k) (exiting k) (isClickingChart k) (keyboardReset k)
    (modules k) (pointerIsOverChart k) (tabindexContainer k)
    (tabbingInBackwards k) (trace k).

Definition set_eventProvider (v : EventProvider.t) (k : KeyboardNavigation) :=
  mkKN (chart k) (components k) (currentModuleIx k) v
    (exitAnchor k) (exiting k) (isClickingChart k) (keyboardReset k)
    (modules k) (pointerIsOverChart k) (tabindexContainer k)
    (tabbingInBackwards k) (trace k).

Definition set_exitAnchor (v : option ExitAnchor) (k : KeyboardNavigation) :=
  mkKN (chart k) (components k) (currentModuleIx k) (eventProvider k)
    v (exiting k) (isClickingChart k) (keyboardReset k)
    (modules k) (pointerIsOverChart k) (tabindexContainer k)
    (tabbingInBackwards k) (trace k).

Definition set_exiting (v : option bool) (k : KeyboardNavigation) :=
  mkKN (chart k) (components k) (currentModuleIx k) (eventProvider k)
    (exitAnchor k) v (isClickingChart k) (keyboardReset k)
    (modules k) (pointerIsOverChart k) (tabindexContainer k)
    (tabbingInBackwards k) (trace k).

Definition set_isClickingChart (v : option bool) (k : KeyboardNavigation) :=
  mkKN (chart k) (components k) (currentModuleIx k) (eventProvider k)
    (exitAnchor k) (exiting k) v (keyboardReset k)
    (modules k) (pointerIsOverChart k) (tabindexContainer k)
    (tabbingInBackwards k) (trace k).

Definition set_keyboardReset (v : option bool) (k : KeyboardNavigation) :=
  mkKN (chart k) (components k) (currentModuleIx k) (eventProvider k)
    (exitAnchor k) (exiting k) (isClickingChart k) v
    (modules k) (pointerIsOverChart k) (tabindexContainer k)
    (tabbingInBackwards k) (trace k).

Definition set_modules (v : list Module_) (k : KeyboardNavigation) :=
  mkKN (chart k) (components k) (currentModuleIx k) (eventProvider k)
    (exitAnchor k) (exiting k) (isClickingChart k) (keyboardReset k)
    v (pointerIsOverChart k) (tabindexContainer k)
    (tabbingInBackwards k) (trace k).

Definition set_pointerIsOverChart (v : option bool) (k : KeyboardNavigation) :=
  mkKN (chart k) (components k) (currentModuleIx k) (eventProvider k)
    (exitAnchor k) (exiting k) (isClickingChart k) (keyboardReset k)
    (modules k) v (tabindexContainer k)
    (tabbingInBackwards k) (trace k).

Definition set_tabindexContainer (v : TabindexContainer) (k : KeyboardNavigation) :=
  mkKN (chart k) (components k) (currentModuleIx k) (eventProvider k)
    (exitAnchor k) (exiting k) (isClickingChart k) (keyboardReset k)
    (modules k) (pointerIsOverChart k) v
    (tabbingInBackwards k) (trace k).

Definition set_tabbingInBackwards (v : option bool) (k : KeyboardNavigation) :=
  mkKN (chart k) (components k) (currentModuleIx k) (eventProvider k)
    (exitAnchor k) (exiting k) (isClickingChart k) (keyboardReset k)
    (modules k) (pointerIsOverChart k) (tabindexContainer k)
    v (trace k).

Definition record (e : Effect) (k : KeyboardNavigation) :=
  mkKN (chart k) (components k) (currentModuleIx k) (eventProvider k)
    (exitAnchor k) (exiting k) (isClickingChart k) (keyboardReset k)
    (modules k) (pointerIsOverChart k) (tabindexContainer k)
    (tabbingInBackwards k) (e :: trace k).

Definition set_world (w : World) (k : KeyboardNavigation) :=
  set_chart
    (mkChart (keyboardNavigationOptions (chart k))
       (renderToTabindex (chart k)) (containerTabindex (chart k))
       (endMarkerInDocument (chart k)) w) k.

Definition set_renderToTabindex (v : option string) (c : Chart World) :=
  mkChart (keyboardNavigationOptions c) v (containerTabindex c)
    (endMarkerInDocument c) (world c).

Definition set_containerTabindex (v : option string) (c : Chart World) :=
  mkChart (keyboardNavigationOptions c) (renderToTabindex c) v
    (endMarkerInDocument c) (world c).

Definition set_endMarkerInDocument (v : bool) (c : Chart World) :=
  mkChart (keyboardNavigationOptions c) (renderToTabindex c)
    (containerTabindex c) v (world c).

(** [this.modules[ix]]: undefined out of range. *)
Definition module_at (ms : list Module_) (ix : Z) : option Module_ :=
  if ix <? 0 then None else nth_error ms (Z.to_nat ix).

(** *** Calls into a module *)

Definition call_terminate (ix : Z) (direction : option Z)
    (m : Module_) (k : KeyboardNavigation) : KeyboardNavigation :=
  match Handler.terminate m with
  | Some f =>
      record (CallTerminate ix direction)
        (set_world (f direction (world (chart k))) k)
  | None => k
  end.

Definition call_init (ix direction : Z)
    (f : Z -> World -> World) (k : KeyboardNavigation) : KeyboardNavigation :=
  record (CallInit ix direction)
    (set_world (f direction (world (chart k))) k).

(** [m.validate && !m.validate()]: whether the module is invalid, and
    the state with the call recorded. *)
Definition call_invalid (ix : Z) (m : Module_) (k : KeyboardNavigation)
    : bool * KeyboardNavigation :=
  match Handler.validate m with
  | Some v =>
      let r := v (world (chart k)) in
      (negb r, record (CallValidate ix r) k)
  | None => (false, k)
  end.

(** [if (chart.focusElement) chart.focusElement.removeFocusBorder()] *)
Definition clearFocusBorder (k : KeyboardNavigation) : KeyboardNavigation :=
  if hasFocusElement (world (chart k))
  then record RemoveFocusBorder
         (set_world (removeFocusBorder (world (chart k))) k)
  else k.

(** *** move, prev, next *)

(** The tail of [move] after "No module": reset the counter, set
    [exiting], focus the exit anchor or the tab stop. *)
Definition leaveChart (direction : Z) (k : KeyboardNavigation)
    : Outcome (bool * KeyboardNavigation) :=
  let k := set_currentModuleIx 0 k in
  let k := set_exiting (Some true) k in
  if direction >? 0 then
    match exitAnchor k with
    | Some _ => Returns (false, record FocusExitAnchor k)
    | None => ThrowsTypeError
    end
  else Returns (false, record FocusTabindexContainer k).

Fixpoint move (fuel : nat) (direction : Z) (k : KeyboardNavigation)
    : Outcome (bool * KeyboardNavigation) :=
  match fuel with
  | O => OutOfFuel
  | S fuel' =>
      let k := record (EnterMove direction) k in
      let k :=
        match module_at (modules k) (currentModuleIx k) with
        | Some curModule =>
            call_terminate (currentModuleIx k) (Some direction) curModule k
        | None => k
        end in
      let k := clearFocusBorder k in
      let k := set_currentModuleIx (currentModuleIx k + direction) k in
      match module_at (modules k) (currentModuleIx k) with
      | Some newModule =>
          let (invalid, k) := call_invalid (currentModuleIx k) newModule k in
          if invalid then move fuel' direction k
          else
            match Handler.init newModule with
            | Some f =>
                Returns (true, call_init (currentModuleIx k) direction f k)
            | None => leaveChart direction k
            end
      | None => leaveChart direction k
      end
  end.

(** The handlers call [move] through [prev] and [next]; the fuel is the
    depth that a sequence of this length can need. *)
Definition enough (k : KeyboardNavigation) : nat :=
  S (List.length (modules k)).

Definition prev (k : KeyboardNavigation) := move (enough k) (-1) k.

Definition next (k : KeyboardNavigation) := move (enough k) 1 k.

(** *** The exit anchor *)

Definition removeExitAnchor (k : KeyboardNavigation) : KeyboardNavigation :=
  match exitAnchor k with
  | Some a =>
      if parentNode a then
        let c := if isEndMarker a
                 then set_endMarkerInDocument false (chart k)
                 else chart k in
        set_exitAnchor None (set_chart c k)
      else k
  | None => k
  end.

Definition tabindexOf (k : KeyboardNavigation) : option string :=
  match tabindexContainer k with
  | Container => containerTabindex (chart k)
  | RenderTo => renderToTabindex (chart k)
  end.

Definition addExitAnchorEventsToEl (k : KeyboardNavigation) : KeyboardNavigation :=
  set_eventProvider
    (EventProvider.addEvent EventProvider.OnExitAnchor "focus"
       (eventProvider k)) k.

(** Gives the element its attributes and its focus handler; the result
    is the element and the state. *)
Definition makeElementAnExitAnchor (el : ExitAnchor) (k : KeyboardNavigation)
    : ExitAnchor * KeyboardNavigation :=
  let chartTabindex :=
    match tabindexOf k with
    | Some s => if truthy_attr (Some s) then s else "0"%string
    | None => "0"%string
    end in
  ({| isEndMarker := isEndMarker el;
      parentNode := parentNode el;
      className := "highcharts-exit-anchor";
      anchorTabindex := chartTabindex;
      ariaHidden := false |},
   addExitAnchorEventsToEl k).

Definition createExitAnchor (k : KeyboardNavigation) : KeyboardNavigation :=
  let div := {| isEndMarker := false; parentNode := true;
                className := ""; anchorTabindex := "";
                ariaHidden := false |} in
  let (el, k) := makeElementAnExitAnchor div k in
  set_exitAnchor (Some el) k.

Definition updateExitAnchor (k : KeyboardNavigation) : KeyboardNavigation :=
  let endMarker := endMarkerInDocument (chart k) in
  let k := removeExitAnchor k in
  if endMarker then
    let el := {| isEndMarker := true;
                 parentNode := endMarkerInDocument (chart k);
                 className := ""; anchorTabindex := "";
                 ariaHidden := false |} in
    let (el, k) := makeElementAnExitAnchor el k in
    set_exitAnchor (Some el) k
  else createExitAnchor k.

(** *** update *)

Definition updateContainerTabindex (k : KeyboardNavigation) : KeyboardNavigation :=
  let shouldHaveTabindex :=
    negb match keyboardNavigationOptions (chart k) with
         | Some o => match enabled o with
                     | Some false => true
                     | _ => false
                     end
         | None => false
         end in
  let '(c, tc) :=
    match renderToTabindex (chart k) with
    | Some _ => (set_containerTabindex None (chart k), RenderTo)
    | None => (chart k, Container)
    end in
  let k := set_tabindexContainer tc (set_chart c k) in
  let curTabindex := tabindexOf k in
  if shouldHaveTabindex && negb (truthy_attr curTabindex) then
    match tc with
    | Container =>
        set_chart (set_containerTabindex (Some "0"%string) (chart k)) k
    | RenderTo =>
        set_chart (set_renderToTabindex (Some "0"%string) (chart k)) k
    end
  else if negb shouldHaveTabindex then
    set_chart (set_containerTabindex None (chart k)) k
  else k.

Definition navigationEnabled (k : KeyboardNavigation) : bool :=
  match keyboardNavigationOptions (chart k) with
  | Some o => truthy (enabled o)
  | None => false
  end.

Definition nonEmptyOrder (order : option (list ComponentName)) : bool :=
  match order with
  | Some (_ :: _) => true
  | _ => false
  end.

Definition update (order : option (list ComponentName))
    (k : KeyboardNavigation) : KeyboardNavigation :=
  let k := updateContainerTabindex k in
  if navigationEnabled k && nonEmptyOrder order then
    let ms :=
      fold_left (fun ms componentName => ms ++ components k componentName)
        (match order with Some o => o | None => [] end) [] in
    updateExitAnchor (set_modules ms k)
  else
    removeExitAnchor (set_currentModuleIx 0 (set_modules [] k)).

(** *** The handlers *)

(** [onFocus]; the argument is [focusComesFromChart]. *)
Definition onFocus (focusComesFromChart : bool) (k : KeyboardNavigation)
    : Outcome KeyboardNavigation :=
  if negb (truthy (exiting k)) &&
     negb (truthy (tabbingInBackwards k)) &&
     negb (truthy (isClickingChart k)) &&
     negb focusComesFromChart
  then
    match module_at (modules k) 0 with
    | Some m =>
        match Handler.init m with
        | Some f => Returns (set_exiting (Some false) (call_init 0 1 f k))
        | None => ThrowsTypeError
        end
    | None => Returns (set_exiting (Some false) k)
    end
  else Returns (set_exiting (Some false) k).

Definition onMouseUp (k : KeyboardNavigation) : KeyboardNavigation :=
  let k := set_isClickingChart None k in
  if negb (truthy (keyboardReset k)) && negb (truthy (pointerIsOverChart k))
  then
    let k :=
      match module_at (modules k) (currentModuleIx k) with
      | Some curMod => call_terminate (currentModuleIx k) None curMod k
      | None => k
      end in
    let k := clearFocusBorder k in
    let k := set_currentModuleIx 0 k in
    set_keyboardReset (Some true) k
  else k.

Definition suppress (k : KeyboardNavigation) : KeyboardNavigation :=
  record StopPropagation (record PreventDefault k).

Definition onKeydown (e : KeyEvent) (k : KeyboardNavigation)
    : Outcome KeyboardNavigation :=
  let curNavModule :=
    match modules k with
    | [] => None
    | _ => module_at (modules k) (currentModuleIx k)
    end in
  let k := set_keyboardReset (Some false) k in
  let k := set_exiting (Some false) k in
  match curNavModule with
  | Some m =>
      let (code, w) := Handler.run m e (world (chart k)) in
      let k := record (CallRun (currentModuleIx k) code) (set_world w k) in
      if code =? Response.success (Handler.response m) then
        Returns (suppress k)
      else if code =? Response.prev (Handler.response m) then
        match prev k with
        | Returns (preventDefault, k) =>
            Returns (if preventDefault then suppress k else k)
        | ThrowsTypeError => ThrowsTypeError
        | OutOfFuel => OutOfFuel
        end
      else if code =? Response.next (Handler.response m) then
        match next k with
        | Returns (preventDefault, k) =>
            Returns (if preventDefault then suppress k else k)
        | ThrowsTypeError => ThrowsTypeError
        | OutOfFuel => OutOfFuel
        end
      else Returns k
  | None => Returns k
  end.

(** The focus handler that [addExitAnchorEventsToEl] puts on the exit
    anchor; the argument is [focusComesFromChart]. *)
Definition onExitAnchorFocus (focusComesFromChart : bool)
    (k : KeyboardNavigation) : Outcome KeyboardNavigation :=
  let comingInBackwards :=
    negb (focusComesFromChart || truthy (exiting k)) in
  if comingInBackwards then
    let k := set_tabbingInBackwards (Some true) k in
    let k := record FocusTabindexContainer k in
    let k := set_tabbingInBackwards None k in
    let k := record PreventDefault k in
    match modules k with
    | [] => Returns k
    | _ =>
        let k := set_currentModuleIx (Z.of_nat (List.length (modules k)) - 1) k in
        match module_at (modules k) (currentModuleIx k) with
        | Some curModule =>
            let (invalid, k) :=
              call_invalid (currentModuleIx k) curModule k in
            if invalid then
              match prev k with
              | Returns (_, k) => Returns k
              | ThrowsTypeError => ThrowsTypeError
              | OutOfFuel => OutOfFuel
              end
            else
              match Handler.init curModule with
              | Some f => Returns (call_init (currentModuleIx k) (-1) f k)
              | None => ThrowsTypeError
              end
        | None => Returns k
        end
    end
  else Returns (set_exiting (Some false) k).

(** *** init and destroy *)

Definition init (c : Chart World)
    (cs : ComponentName -> list Module_) : KeyboardNavigation :=
  let k := mkKN c cs 0 EventProvider.create None None None None []
             None Container None [] in
  let k := update None k in
  let add tg name k :=
    set_eventProvider
      (EventProvider.addEvent tg name (eventProvider k)) k in
  let k := add EventProvider.OnTabindexContainer "keydown"%string k in
  let k := add EventProvider.OnTabindexContainer "focus"%string k in
  let k := add EventProvider.OnDocument "mouseup"%string k in
  let k := add EventProvider.OnDocument "touchend"%string k in
  let k := add EventProvider.OnRenderTo "mousedown"%string k in
  let k := add EventProvider.OnRenderTo "touchstart"%string k in
  let k := add EventProvider.OnRenderTo "mouseover"%string k in
  add EventProvider.OnRenderTo "mouseout"%string k.

Definition destroy (k : KeyboardNavigation) : KeyboardNavigation :=
  let k := removeExitAnchor k in
  let k := set_eventProvider
             (EventProvider.removeAddedEvents (eventProvider k)) k in
  set_chart (set_containerTabindex None (chart k)) k.

End Class.

Arguments KeyboardNavigation : clear implicits.

(** ** Reading a trace *)

(** A module is active when the newest [init] or [terminate] it received
    is an [init]. The trace is newest first. *)
Fixpoint is_active (i : Z) (tr : list Effect) : bool :=
  match tr with
  | [] => false
  | CallInit j _ :: rest => if j =? i then true else is_active i rest
  | CallTerminate j _ :: rest => if j =? i then false else is_active i rest
  | _ :: rest => is_active i rest
  end.

Definition at_most_one_active (tr : list Effect) : Prop :=
  forall i j, is_active i tr = true -> is_active j tr = true -> i = j.

(** Number of activations of [move] in a trace. *)
Fixpoint activations (tr : list Effect) : nat :=
  match tr with
  | [] => O
  | EnterMove _ :: rest => S (activations rest)
  | _ :: rest => activations rest
  end.

(** Number of modules found invalid in a trace. *)
Fixpoint skips (tr : list Effect) : nat :=
  match tr with
  | [] => O
  | CallValidate _ false :: rest => S (skips rest)
  | _ :: rest => skips rest
  end.

(** The effects [move] can have. *)
Definition move_effect (direction : Z) (e : Effect) : bool :=
  match e with
  | EnterMove d => d =? direction
  | CallTerminate _ (Some d) => d =? direction
  | CallValidate _ _ => true
  | CallInit _ d => d =? direction
  | RemoveFocusBorder | FocusExitAnchor | FocusTabindexContainer => true
  | _ => false
  end.

(** [i] lies strictly ahead of [ix] in the direction of motion. *)
Definition ahead (direction ix i : Z) : Prop := 0 < (i - ix) * direction.

(** ** The inputs of the machine *)

Section Machine.

Context {World KeyEvent ComponentName : Type}.
Context {ops : ChartOps World}.

Local Abbreviation K := (KeyboardNavigation World KeyEvent ComponentName).
Local Abbreviation Module_ := (Handler.t World KeyEvent).

Implicit Types (k : K) (m : Module_) (d ix : Z).

(** The validity of a module that does not depend on the chart state. *)
Definition always_invalid (m : Module_) : Prop :=
  exists v, Handler.validate m = Some v /\ forall w, v w = false.

Definition always_valid (m : Module_) : Prop :=
  forall v, Handler.validate m = Some v -> forall w, v w = true.

(** The first part of the body of [move]: up to the new index. *)
Definition depart (direction : Z) (k : K) : K :=
  let k := record (EnterMove direction) k in
  let k :=
    match module_at (modules k) (currentModuleIx k) with
    | Some curModule =>
        call_terminate (currentModuleIx k) (Some direction) curModule k
    | None => k
    end in
  let k := clearFocusBorder k in
  set_currentModuleIx (currentModuleIx k + direction) k.

Inductive Input : Type :=
| Focus (focusComesFromChart : bool)
| Keydown (e : KeyEvent)
| Move (direction : Z)
| MouseUp
| MouseDown
| MouseOver
| MouseOut
| ExitAnchorFocus (focusComesFromChart : bool)
| Update (order : option (list ComponentName)).

Definition drop_result {A B : Type} (o : Outcome (A * B)) : Outcome B :=
  match o with
  | Returns (_, b) => Returns b
  | ThrowsTypeError => ThrowsTypeError
  | OutOfFuel => OutOfFuel
  end.

(** One input, handled to the end. The pointer inputs are the listeners
    that [init] registers. *)
Definition step (i : Input) (k : K) : Outcome K :=
  match i with
  | Focus fc => onFocus fc k
  | Keydown e => onKeydown e k
  | Move d => drop_result (move (enough k) d k)
  | MouseUp => Returns (onMouseUp k)
  | MouseDown => Returns (set_isClickingChart (Some true) k)
  | MouseOver => Returns (set_pointerIsOverChart (Some true) k)
  | MouseOut => Returns (set_pointerIsOverChart (Some false) k)
  | ExitAnchorFocus fc => onExitAnchorFocus fc k
  | Update order => Returns (update order k)
  end.

Fixpoint steps (inputs : list Input) (k : K) : Outcome K :=
  match inputs with
  | [] => Returns k
  | i :: rest =>
      match step i k with
      | Returns k' => steps rest k'
      | ThrowsTypeError => ThrowsTypeError
      | OutOfFuel => OutOfFuel
      end
  end.

(** The states of the class: from the constructor, by inputs. *)
Definition reachable (k : K) : Prop :=
  exists c cs inputs, steps inputs (init c cs) = Returns k.

(** Every module of the sequence has [terminate]. *)
Definition all_terminate (k : K) : Prop :=
  forall m, In m (modules k) -> Handler.terminate m <> None.

(** No module but the current one is active. *)
Definition active_is_current (k : K) : Prop :=
  forall i, is_active i (trace k) = true ->
            i = currentModuleIx k /\ module_at (modules k) i <> None.

Definition inactive (k : K) : Prop :=
  forall i, is_active i (trace k) = false.

(** The inputs that keep focus where it is: keys, [move] by one, and
    the pointer. *)
Definition internal (i : Input) : bool :=
  match i with
  | Keydown _ | MouseUp | MouseDown | MouseOver | MouseOut => true
  | Move d => (d =? 1) || (d =? -1)
  | Focus _ | ExitAnchorFocus _ | Update _ => false
  end.

(** The state in which the exit anchor's handler looks at the last
    module: focus is back on the tab stop, the default is prevented,
    the index is the last one. *)
Definition enterBackwards (k : K) : K :=
  let k := set_tabbingInBackwards (Some true) k in
  let k := record FocusTabindexContainer k in
  let k := set_tabbingInBackwards None k in
  let k := record PreventDefault k in
  set_currentModuleIx (Z.of_nat (List.length (modules k)) - 1) k.

(** The state with the current module terminated, as [move] and
    [onMouseUp] do it. *)
Definition terminateCurrent (dir : option Z) (k : K) : K :=
  match module_at (modules k) (currentModuleIx k) with
  | Some curModule => call_terminate (currentModuleIx k) dir curModule k
  | None => k
  end.

(** The exit anchor is out of the document: the field is deleted, or
    the element it holds has no parent. *)
Definition exit_anchor_removed (k : K) : Prop :=
  match exitAnchor k with
  | Some a => parentNode a = false
  | None => True
  end.

(** The chart state after the [terminate] of the current module. *)
Definition world_terminated (dir : option Z) (k : K) : World :=
  match module_at (modules k) (currentModuleIx k) with
  | Some m =>
      match Handler.terminate m with
      | Some f => f dir (world (chart k))
      | None => world (chart k)
      end
  | None => world (chart k)
  end.

(** The effect of the [terminate] of the current module. *)
Definition terminate_effect (dir : option Z) (k : K) : list Effect :=
  match module_at (modules k) (currentModuleIx k) with
  | Some m =>
      match Handler.terminate m with
      | Some _ => [CallTerminate (currentModuleIx k) dir]
      | None => []
      end
  | None => []
  end.

(** ** What a call leaves alone, and what [move] achieves *)

(** What is left alone by a call that only changes the index, the
    [exiting] and [tabbingInBackwards] flags, the chart state and the
    trace. *)
Definition same_setup k k' : Prop :=
  modules k' = modules k /\
  components k' = components k /\
  exitAnchor k' = exitAnchor k /\
  eventProvider k' = eventProvider k /\
  isClickingChart k' = isClickingChart k /\
  keyboardReset k' = keyboardReset k /\
  pointerIsOverChart k' = pointerIsOverChart k /\
  tabindexContainer k' = tabindexContainer k.

(** The number of indices of the sequence that lie ahead of [ix]: the
    skips one call of [move] can make. *)
Definition room d ix (len : Z) : Z :=
  if d >? 0 then Z.max 0 (len - Z.max 0 (ix + 1))
  else Z.max 0 (Z.min len ix).

(** A piece of trace that holds no [init] and no [validate]. *)
Definition quiet (tr : list Effect) : Prop :=
  (forall i dd, ~ In (CallInit i dd) tr) /\
  (forall i r, ~ In (CallValidate i r) tr).

(** [move] answered true: it is on a module ahead, which has [init] and
    was not found invalid; [init] is the newest effect and the only
    one; the modules found invalid are those strictly between. *)
Definition landed d k k' (delta : list Effect) : Prop :=
  exists m f rest,
    ahead d (currentModuleIx k) (currentModuleIx k') /\
    module_at (modules k) (currentModuleIx k') = Some m /\
    Handler.init m = Some f /\ ~ always_invalid m /\
    exiting k' = exiting k /\
    delta = CallInit (currentModuleIx k') d :: rest /\
    (forall i dd, ~ In (CallInit i dd) rest) /\
    (forall i, In (CallValidate i false) rest <->
       ahead d (currentModuleIx k) i /\ ahead d i (currentModuleIx k')).

(** [move] answered false: the counter is reset, [exiting] is set, the
    newest effect is the focus on the exit anchor or on the tab stop,
    and no module was initialized. *)
Definition left_chart d k' (delta : list Effect) : Prop :=
  currentModuleIx k' = 0 /\ exiting k' = Some true /\
  (exists rest,
     delta =
       (if d >? 0 then FocusExitAnchor else FocusTabindexContainer) :: rest) /\
  (forall i dd, ~ In (CallInit i dd) delta).

Definition move_post d k (b : bool) k' : Prop :=
  same_setup k k' /\
  exists delta,
    trace k' = delta ++ trace k /\
    forallb (move_effect d) delta = true /\
    activations delta = S (skips delta) /\
    Z.of_nat (skips delta) <=
      room d (currentModuleIx k) (Z.of_nat (List.length (modules k))) /\
    if b then landed d k k' delta else left_chart d k' delta.

(** ** Invariants of the states *)

(** The index is 0 or an index of the sequence. *)
Definition index_ok (k : K) : Prop :=
  currentModuleIx k = 0 \/
  0 <= currentModuleIx k < Z.of_nat (List.length (modules k)).

(** A sequence that is not empty has its exit anchor. *)
Definition anchored (k : K) : Prop :=
  modules k <> [] -> exitAnchor k <> None.

(** The inputs that keep the module sequence: all but [update]. *)
Definition keeps_modules (i : Input) : bool :=
  match i with
  | Update _ => false
  | _ => true
  end.

(** What a handler does to the sequence, the exit anchor and the index:
    it keeps the first two, and keeps the index or leaves it at 0 or at
    an index of the sequence. *)
Definition settled (k k' : K) : Prop :=
  modules k' = modules k /\
  exitAnchor k' = exitAnchor k /\
  (currentModuleIx k' = currentModuleIx k \/ index_ok k').

(** The four gates of [onFocus] are open: focus arrives from outside
    the chart, not by a click, not during an exit or a backward entry. *)
Definition entersFromOutside (focusComesFromChart : bool) (k : K) : bool :=
  negb (truthy (exiting k)) &&
  negb (truthy (tabbingInBackwards k)) &&
  negb (truthy (isClickingChart k)) &&
  negb focusComesFromChart.

(** [keyboardOptions && keyboardOptions.enabled === false] *)
Definition explicitlyDisabled (k : K) : bool :=
  match keyboardNavigationOptions (chart k) with
  | Some o => match enabled o with
              | Some false => true
              | _ => false
              end
  | None => false
  end.


(** ** Modules without [terminate] *)

(** [move] and [onMouseUp] call [terminate] under a guard
    ([curModule && curModule.terminate]): on a module that has none the
    call is left out and nothing happens. The module with that written
    out, as a [terminate] that does nothing. *)
Definition default_terminate (m : Module_) : Module_ :=
  match Handler.terminate m with
  | Some _ => m
  | None =>
      {| Handler.validate := Handler.validate m;
         Handler.init := Handler.init m;
         Handler.terminate := Some (fun _ w => w);
         Handler.run := Handler.run m;
         Handler.response := Handler.response m |}
  end.

(** The state [k] over the sequence in which every module has its
    default [terminate], with a trace of its own. *)
Definition dressed (k : K) (tr : list Effect) : K :=
  mkKN (chart k) (components k) (currentModuleIx k) (eventProvider k)
    (exitAnchor k) (exiting k) (isClickingChart k) (keyboardReset k)
    (map default_terminate (modules k)) (pointerIsOverChart k)
    (tabindexContainer k) (tabbingInBackwards k) tr.

Definition with_defaults (k : K) : K := dressed k (trace k).

(** The calls of a trace that reach a function of a module of [ms]: a
    [terminate] on a module that has none does not. *)
Definition call_made (ms : list Module_) (e : Effect) : bool :=
  match e with
  | CallTerminate i _ =>
      match module_at ms i with
      | Some m =>
          match Handler.terminate m with
          | Some _ => true
          | None => false
          end
      | None => true
      end
  | _ => true
  end.

Definition calls_made (ms : list Module_) (tr : list Effect) : list Effect :=
  filter (call_made ms) tr.

End Machine.

(** ** A concrete chart, for examples *)

Module Example.

Inductive Key : Type := Tab | ShiftTab | Enter | Other.

Inductive Name : Type := Series | Zoom | Legend | Broken.

(** The chart state of the examples: whether there is a focus element. *)
#[export] Instance ops : ChartOps bool := {
  hasFocusElement := fun w => w;
  removeFocusBorder := fun _ => false
}.

Definition codes : Response.t :=
  {| Response.success := 1; Response.prev := 2; Response.next := 3 |}.

(** Tab moves on, Shift+Tab moves back, Enter is handled, anything else
    has no handler (code 4). *)
Definition keys (e : Key) (w : bool) : Z * bool :=
  match e with
  | Tab => (3, w)
  | ShiftTab => (2, w)
  | Enter => (1, w)
  | Other => (4, w)
  end.

Definition handler (valid : option bool) (hasInit : bool) : Handler.t bool Key :=
  {| Handler.validate :=
       match valid with Some b => Some (fun _ => b) | None => None end;
     Handler.init := if hasInit then Some (fun _ _ => true) else None;
     Handler.terminate := Some (fun _ _ => false);
     Handler.run := keys;
     Handler.response := codes |}.

Definition valid : Handler.t bool Key := handler (Some true) true.
Definition invalid : Handler.t bool Key := handler (Some false) true.
Definition bare : Handler.t bool Key := handler None false.

Definition components (n : Name) : list (Handler.t bool Key) :=
  match n with
  | Series => [valid]
  | Zoom => [invalid; invalid]
  | Legend => [valid]
  | Broken => [bare]
  end.

Definition theChart : Chart bool :=
  mkChart (Some {| enabled := Some true |}) None None false false.

(** The chart after construction and a first update with an order. *)
Definition start (order : list Name) : KeyboardNavigation bool Key Name :=
  update (Some order) (init theChart components).

(** The state after some inputs on a chart built with an order. *)
Definition after (inputs : list (@Input Key Name)) (order : list Name)
    : KeyboardNavigation bool Key Name :=
  match steps inputs (start order) with
  | Returns k => k
  | _ => start order
  end.


(** A module as the components of the source files build theirs: with
    [validate] and [init], without [terminate]. *)
Definition plain : Handler.t bool Key :=
  {| Handler.validate := Some (fun _ => true);
     Handler.init := Some (fun _ _ => true);
     Handler.terminate := None;
     Handler.run := keys;
     Handler.response := codes |}.

Definition plainComponents (n : Name) : list (Handler.t bool Key) := [plain].

(** The same chart built from components of that kind, and the state
    after some inputs. *)
Definition plainStart (order : list Name)
    : KeyboardNavigation bool Key Name :=
  update (Some order) (init theChart plainComponents).

Definition plainAfter (inputs : list (@Input Key Name)) (order : list Name)
    : KeyboardNavigation bool Key Name :=
  match steps inputs (plainStart order) with
  | Returns k => k
  | _ => plainStart order
  end.

End Example.

(** ** compose and the Escape key of the document *)

Module Composition.

(** What [compose] keeps in [composedItems]: chart classes, told apart
    by identity, and the document. *)
Inductive Item : Type :=
| ChartClass (c : nat)
| Document.

Definition item_eqb (a b : Item) : bool :=
  match a, b with
  | ChartClass c, ChartClass c' => Nat.eqb c c'
  | Document, Document => true
  | _, _ => false
  end.

(** The module state of the namespace: [composedItems], the classes
    whose prototype has received [dismissPopupContent], and the number of
    keydown listeners that [addEvent] has put on the document. *)
Record Registry : Type := {
  composedItems : list Item;
  withDismiss : list nat;
  documentKeydown : nat
}.

Definition empty : Registry :=
  {| composedItems := []; withDismiss := []; documentKeydown := O |}.

(** [composedItems.indexOf(x) === -1] *)
Definition absent (x : Item) (l : list Item) : bool :=
  negb (existsb (item_eqb x) l).

Definition compose (c : nat) (r : Registry) : Registry :=
  let r :=
    if absent (ChartClass c) (composedItems r) then
      {| composedItems := composedItems r ++ [ChartClass c];
         withDismiss := withDismiss r ++ [c];
         documentKeydown := documentKeydown r |}
    else r in
  if absent Document (composedItems r) then
    {| composedItems := composedItems r ++ [Document];
       withDismiss := withDismiss r;
       documentKeydown := S (documentKeydown r) |}
  else r.

(** A key event of the document; either field can be missing. *)
Record KeyboardEvent : Type := {
  which : option Z;
  keyCode : option Z
}.

(** [e.which || e.keyCode]: a missing or zero [which] gives way. *)
Definition keycode (e : KeyboardEvent) : option Z :=
  match which e with
  | Some w => if w =? 0 then keyCode e else Some w
  | None => keyCode e
  end.

(** An entry of [H.charts]: a chart of some class; a destroyed chart
    leaves undefined, [None]. *)
Record ChartEntry : Type := {
  chartId : nat;
  chartClass : nat
}.

(** [keycode === esc], with [esc = 27] *)
Definition isEscape (e : KeyboardEvent) : bool :=
  match keycode e with
  | Some c => c =? 27
  | None => false
  end.

(** A chart has [dismissPopupContent] through the prototype of its
    class. The result is the charts on which it was called, in order. *)
Definition documentOnKeydown (r : Registry)
    (charts : option (list (option ChartEntry))) (e : KeyboardEvent)
    : list nat :=
  match isEscape e with
  | true =>
      match charts with
      | Some cs =>
          flat_map
            (fun entry =>
               match entry with
               | Some ch =>
                   if existsb (Nat.eqb (chartClass ch)) (withDismiss r)
                   then [chartId ch] else []
               | None => []
               end) cs
      | None => []
      end
  | false => []
  end.

(** A keydown on the document: every listener that was added runs. *)
Definition keydownOnDocument (r : Registry)
    (charts : option (list (option ChartEntry))) (e : KeyboardEvent)
    : list nat :=
  List.concat (repeat (documentOnKeydown r charts e) (documentKeydown r)).

(** The registry after [compose] has been called for each class of a
    list, in order. *)
Definition composeAll (cs : list nat) : Registry :=
  fold_left (fun r c => compose c r) cs empty.

(** The charts that are there and whose class is in a list. *)
Definition liveOfClasses (cs : list nat)
    (charts : list (option ChartEntry)) : list nat :=
  flat_map
    (fun entry =>
       match entry with
       | Some ch => if existsb (Nat.eqb (chartClass ch)) cs
                    then [chartId ch] else []
       | None => []
       end) charts.

(** What every registry made by [compose] satisfies. *)
Definition consistent (r : Registry) : Prop :=
  NoDup (composedItems r) /\
  (forall c, In (ChartClass c) (composedItems r) <-> In c (withDismiss r)) /\
  documentKeydown r = (if absent Document (composedItems r) then 0 else 1)%nat.

End Composition.

(** ** The map zoom module of the zoom component *)

Module Zoom.

(** What the map navigation handlers of the zoom component (source file
    unnamed/part_002) read and write: whether the chart has [mapZoom],
    the state last given to each of [chart.mapNavButtons] by [setState],
    the index of the focused button (undefined before the first
    [onMapNavInit]), the button last given to [chart.setFocusToElement],
    and the number of calls of [chart.mapZoom()]. *)
Record MapNav : Type := mkMapNav {
  hasMapZoom : bool;
  mapNavButtons : option (list Z);
  focusedMapNavButtonIx : option Z;
  focusElement : option Z;
  zoomResets : nat
}.

(** [buttons[ix]]: undefined out of range. *)
Definition button_at (bs : list Z) (ix : Z) : option Z :=
  if ix <? 0 then None else nth_error bs (Z.to_nat ix).

(** [buttons[ix].setState(s)] on a button that is there. *)
Fixpoint setState (bs : list Z) (n : nat) (s : Z) : list Z :=
  match bs, n with
  | [], _ => []
  | _ :: rest, O => s :: rest
  | b :: rest, S n' => b :: setState rest n' s
  end.

Definition chartHasMapZoom (c : MapNav) : bool :=
  hasMapZoom c &&
  match mapNavButtons c with
  | Some (_ :: _) => true
  | _ => false
  end.

Definition onMapNavInit (direction : Z) (c : MapNav) : Outcome MapNav :=
  match mapNavButtons c with
  | None => ThrowsTypeError
  | Some bs =>
      let initial := if direction >? 0 then 0 else 1 in
      match button_at bs initial with
      | None => ThrowsTypeError
      | Some _ =>
          Returns
            (mkMapNav (hasMapZoom c)
               (Some (setState bs (Z.to_nat initial) 2))
               (Some initial) (Some initial) (zoomResets c))
      end
  end.

(** [onMapKbdTab]; the second argument is [event.shiftKey]. The index
    is falsy when it is undefined or 0. *)
Definition onMapKbdTab (response : Response.t) (shiftKey : bool)
    (c : MapNav) : Outcome (Z * MapNav) :=
  let isBackwards := shiftKey in
  let ixTruthy :=
    match focusedMapNavButtonIx c with
    | Some i => negb (i =? 0)
    | None => false
    end in
  let isMoveOutOfRange :=
    (isBackwards && negb ixTruthy) || (negb isBackwards && ixTruthy) in
  match mapNavButtons c, focusedMapNavButtonIx c with
  | Some bs, Some ix =>
      match button_at bs ix with
      | None => ThrowsTypeError
      | Some _ =>
          let bs := setState bs (Z.to_nat ix) 0 in
          if isMoveOutOfRange then
            if hasMapZoom c then
              Returns
                (if isBackwards then Response.prev response
                 else Response.next response,
                 mkMapNav (hasMapZoom c) (Some bs) (Some ix)
                   (focusElement c) (S (zoomResets c)))
            else ThrowsTypeError
          else
            let ix := ix + (if isBackwards then -1 else 1) in
            match button_at bs ix with
            | None => ThrowsTypeError
            | Some _ =>
                Returns
                  (Response.success response,
                   mkMapNav (hasMapZoom c)
                     (Some (setState bs (Z.to_nat ix) 2))
                     (Some ix) (Some ix) (zoomResets c))
            end
      end
  | _, _ => ThrowsTypeError
  end.

End Zoom.

(** * Properties *)

Section Properties.

Context {World KeyEvent ComponentName : Type}.
Context {ops : ChartOps World}.

Local Abbreviation K := (KeyboardNavigation World KeyEvent ComponentName).
Local Abbreviation Module_ := (Handler.t World KeyEvent).

Implicit Types (k : K) (m : Module_) (ms : list Module_) (d ix : Z).

(** ** One activation of [move] *)

Lemma same_setup_trans k1 k2 k3 :
  same_setup k1 k2 -> same_setup k2 k3 -> same_setup k1 k3.
Proof.
  unfold same_setup; intros H1 H2.
  decompose [and] H1; decompose [and] H2; clear H1 H2.
  repeat split; congruence.
Qed.

Ltac unfold_calls :=
  unfold depart, call_terminate, call_init, call_invalid,
    clearFocusBorder, leaveChart, suppress, record, set_world, set_chart,
    set_currentModuleIx, set_exiting, set_keyboardReset,
    set_isClickingChart, set_pointerIsOverChart, set_tabbingInBackwards in *.

Ltac trace_eq :=
  cbn [app]; rewrite <- ?app_assoc; cbn [app]; reflexivity.

Ltac split_calls :=
  repeat match goal with
    | |- context [match module_at ?ms ?i with _ => _ end] =>
        destruct (module_at ms i)
    | |- context [match Handler.terminate ?m with _ => _ end] =>
        destruct (Handler.terminate m)
    | |- context [match Handler.validate ?m with _ => _ end] =>
        destruct (Handler.validate m)
    | |- context [if hasFocusElement ?w then _ else _] =>
        destruct (hasFocusElement w)
    end.

Lemma move_unfold fuel d k :
  move (S fuel) d k =
    let k1 := depart d k in
    match module_at (modules k1) (currentModuleIx k1) with
    | Some newModule =>
        let k2 := snd (call_invalid (currentModuleIx k1) newModule k1) in
        if fst (call_invalid (currentModuleIx k1) newModule k1)
        then move fuel d k2
        else
          match Handler.init newModule with
          | Some f => Returns (true, call_init (currentModuleIx k2) d f k2)
          | None => leaveChart d k2
          end
    | None => leaveChart d k1
    end.
Proof.
  cbn [move]. fold (depart d k). cbv zeta.
  destruct (module_at (modules (depart d k)) (currentModuleIx (depart d k)));
    [|reflexivity].
  destruct (call_invalid (currentModuleIx (depart d k)) t (depart d k)).
  reflexivity.
Qed.

(** The pieces of a call: what they leave alone, what they record. *)

Lemma call_terminate_facts ix dir m k :
  same_setup k (call_terminate ix dir m k) /\
  currentModuleIx (call_terminate ix dir m k) = currentModuleIx k /\
  exiting (call_terminate ix dir m k) = exiting k /\
  trace (call_terminate ix dir m k) =
    match Handler.terminate m with
    | Some _ => [CallTerminate ix dir]
    | None => []
    end ++ trace k.
Proof.
  unfold call_terminate. destruct (Handler.terminate m); repeat split.
Qed.

Lemma clearFocusBorder_facts k :
  same_setup k (clearFocusBorder k) /\
  currentModuleIx (clearFocusBorder k) = currentModuleIx k /\
  exiting (clearFocusBorder k) = exiting k /\
  exists border,
    (border = [] \/ border = [RemoveFocusBorder]) /\
    trace (clearFocusBorder k) = border ++ trace k.
Proof.
  unfold clearFocusBorder. destruct (hasFocusElement _).
  - repeat split. exists [RemoveFocusBorder]. split; [now right | reflexivity].
  - repeat split. exists []. split; [now left | reflexivity].
Qed.

Lemma terminateCurrent_facts dir k :
  same_setup k (terminateCurrent dir k) /\
  currentModuleIx (terminateCurrent dir k) = currentModuleIx k /\
  exiting (terminateCurrent dir k) = exiting k /\
  trace (terminateCurrent dir k) =
    match module_at (modules k) (currentModuleIx k) with
    | Some m =>
        match Handler.terminate m with
        | Some _ => [CallTerminate (currentModuleIx k) dir]
        | None => []
        end
    | None => []
    end ++ trace k.
Proof.
  unfold terminateCurrent.
  destruct (module_at (modules k) (currentModuleIx k)) as [m|].
  - apply call_terminate_facts.
  - repeat split.
Qed.

Lemma depart_eq d k :
  depart d k =
    set_currentModuleIx
      (currentModuleIx k + d)
      (clearFocusBorder (terminateCurrent (Some d) (record (EnterMove d) k))).
Proof.
  unfold depart. cbv zeta.
  destruct (terminateCurrent_facts (Some d) (record (EnterMove d) k))
    as [_ [I1 _]].
  destruct (clearFocusBorder_facts
              (terminateCurrent (Some d) (record (EnterMove d) k)))
    as [_ [I2 _]].
  fold (terminateCurrent (Some d) (record (EnterMove d) k)).
  rewrite I2, I1. reflexivity.
Qed.

(** The state at the new index, before the module there is looked at. *)
Lemma depart_setup d k : same_setup k (depart d k).
Proof.
  rewrite depart_eq.
  destruct (terminateCurrent_facts (Some d) (record (EnterMove d) k))
    as [S1 _].
  destruct (clearFocusBorder_facts
              (terminateCurrent (Some d) (record (EnterMove d) k)))
    as [S2 _].
  eapply same_setup_trans; [|eapply same_setup_trans; [exact S1|]].
  - repeat split.
  - eapply same_setup_trans; [exact S2 | repeat split].
Qed.

Lemma depart_index d k :
  currentModuleIx (depart d k) = currentModuleIx k + d.
Proof. rewrite depart_eq. reflexivity. Qed.

Lemma depart_exiting d k : exiting (depart d k) = exiting k.
Proof.
  rewrite depart_eq.
  destruct (terminateCurrent_facts (Some d) (record (EnterMove d) k))
    as [_ [_ [E1 _]]].
  destruct (clearFocusBorder_facts
              (terminateCurrent (Some d) (record (EnterMove d) k)))
    as [_ [_ [E2 _]]].
  change (exiting (clearFocusBorder
                     (terminateCurrent (Some d) (record (EnterMove d) k)))
          = exiting k).
  rewrite E2, E1. reflexivity.
Qed.

(** The effects of the first part: the entry, the [terminate] of the
    current module when it has one, the removal of the focus border. *)
Lemma depart_trace d k :
  exists border,
    (border = [] \/ border = [RemoveFocusBorder]) /\
    trace (depart d k) =
      border ++
      match module_at (modules k) (currentModuleIx k) with
      | Some m =>
          match Handler.terminate m with
          | Some _ => [CallTerminate (currentModuleIx k) (Some d)]
          | None => []
          end
      | None => []
      end ++ EnterMove d :: trace k.
Proof.
  rewrite depart_eq.
  destruct (terminateCurrent_facts (Some d) (record (EnterMove d) k))
    as [_ [_ [_ T1]]].
  destruct (clearFocusBorder_facts
              (terminateCurrent (Some d) (record (EnterMove d) k)))
    as [_ [_ [_ [border [Hb T2]]]]].
  exists border. split; [exact Hb|].
  change (trace (clearFocusBorder
                   (terminateCurrent (Some d) (record (EnterMove d) k)))
          = border ++
            match module_at (modules k) (currentModuleIx k) with
            | Some m =>
                match Handler.terminate m with
                | Some _ => [CallTerminate (currentModuleIx k) (Some d)]
                | None => []
                end
            | None => []
            end ++ EnterMove d :: trace k).
  rewrite T2, T1. reflexivity.
Qed.

Lemma call_invalid_setup ix m k : same_setup k (snd (call_invalid ix m k)).
Proof. unfold_calls; split_calls; repeat split. Qed.

Lemma call_invalid_index ix m k :
  currentModuleIx (snd (call_invalid ix m k)) = currentModuleIx k.
Proof. unfold_calls; split_calls; reflexivity. Qed.

Lemma call_invalid_exiting ix m k :
  exiting (snd (call_invalid ix m k)) = exiting k.
Proof. unfold_calls; split_calls; reflexivity. Qed.

Lemma call_invalid_true ix m k :
  fst (call_invalid ix m k) = true ->
  exists v, Handler.validate m = Some v /\ v (world (chart k)) = false /\
            trace (snd (call_invalid ix m k)) = CallValidate ix false :: trace k.
Proof.
  unfold call_invalid. destruct (Handler.validate m) as [v|]; cbn; [|discriminate].
  intros H. exists v. apply negb_true_iff in H. rewrite H. auto.
Qed.

Lemma always_invalid_call ix m k :
  always_invalid m -> fst (call_invalid ix m k) = true.
Proof.
  intros [v [Hv Hf]]. unfold call_invalid. rewrite Hv. cbn. now rewrite Hf.
Qed.

Lemma always_valid_call ix m k :
  always_valid m -> fst (call_invalid ix m k) = false.
Proof.
  intros Hv. unfold call_invalid.
  destruct (Handler.validate m) as [v|] eqn:E; [|reflexivity].
  cbn. now rewrite (Hv v E).
Qed.

(** ** Indices *)

Lemma module_at_Some ms ix m :
  module_at ms ix = Some m -> 0 <= ix < Z.of_nat (List.length ms).
Proof.
  unfold module_at. destruct (Z.ltb_spec ix 0) as [Hlt | Hge]; [discriminate|].
  intros Hs. assert (Hn : nth_error ms (Z.to_nat ix) <> None) by congruence.
  apply nth_error_Some in Hn. lia.
Qed.

Lemma module_at_In ms ix m : module_at ms ix = Some m -> In m ms.
Proof.
  unfold module_at. destruct (ix <? 0); [discriminate|].
  apply nth_error_In.
Qed.

Lemma module_at_in_range ms ix :
  0 <= ix < Z.of_nat (List.length ms) -> exists m, module_at ms ix = Some m.
Proof.
  intros H. destruct (module_at ms ix) eqn:E; [eauto|].
  unfold module_at in E. destruct (Z.ltb_spec ix 0) as [Hlt | Hge]; [lia|].
  apply nth_error_None in E. lia.
Qed.

Lemma room_le_len d ix len : 0 <= len -> 0 <= room d ix len <= len.
Proof. unfold room. destruct (d >? 0); lia. Qed.

Lemma room_step d ix len :
  d = 1 \/ d = -1 -> 0 <= ix + d < len ->
  room d (ix + d) len = room d ix len - 1.
Proof. unfold room. intros [-> | ->] H; cbn; lia. Qed.

(** ** Traces *)

Lemma activations_app tr1 tr2 :
  activations (tr1 ++ tr2) = (activations tr1 + activations tr2)%nat.
Proof.
  induction tr1 as [|e tr1 IH]; [reflexivity|].
  destruct e; cbn; rewrite IH; reflexivity.
Qed.

Lemma skips_app tr1 tr2 : skips (tr1 ++ tr2) = (skips tr1 + skips tr2)%nat.
Proof.
  induction tr1 as [|e tr1 IH]; [reflexivity|].
  destruct e as [| | ? [|] | | | | | | |]; cbn; rewrite IH; reflexivity.
Qed.

Lemma depart_delta d k :
  exists dl,
    trace (depart d k) = dl ++ trace k /\
    forallb (move_effect d) dl = true /\
    activations dl = 1%nat /\ skips dl = 0%nat /\ quiet dl.
Proof.
  destruct (depart_trace d k) as [border [Hb Ht]].
  eexists. split.
  { rewrite Ht. rewrite app_assoc.
    change (EnterMove d :: trace k) with ([EnterMove d] ++ trace k).
    rewrite app_assoc. reflexivity. }
  unfold quiet.
  destruct Hb as [-> | ->];
    destruct (module_at (modules k) (currentModuleIx k)) as [m|];
    try destruct (Handler.terminate m); cbn; rewrite ?Z.eqb_refl; cbn;
    repeat split; try reflexivity; intros ? ? H; intuition discriminate.
Qed.

Lemma leaveChart_facts d k :
  d = 1 \/ d = -1 -> (d = 1 -> exitAnchor k <> None) ->
  exists k',
    leaveChart d k = Returns (false, k') /\ same_setup k k' /\
    currentModuleIx k' = 0 /\ exiting k' = Some true /\
    world (chart k') = world (chart k) /\
    trace k' =
      (if d >? 0 then FocusExitAnchor else FocusTabindexContainer) :: trace k.
Proof.
  intros Hd Ha. unfold leaveChart. cbn.
  destruct Hd as [-> | ->]; cbn.
  - destruct (exitAnchor k) eqn:E; [|now elim Ha].
    eexists. split; [reflexivity|]. repeat split.
  - eexists. split; [reflexivity|]. repeat split.
Qed.

Lemma call_init_facts ix d f k :
  same_setup k (call_init ix d f k) /\
  currentModuleIx (call_init ix d f k) = currentModuleIx k /\
  exiting (call_init ix d f k) = exiting k /\
  trace (call_init ix d f k) = CallInit ix d :: trace k.
Proof. unfold_calls; cbn; repeat split. Qed.

Lemma call_invalid_delta ix m k :
  exists vl,
    trace (snd (call_invalid ix m k)) = vl ++ trace k /\
    (vl = [] \/ vl = [CallValidate ix (negb (fst (call_invalid ix m k)))]).
Proof.
  unfold call_invalid. destruct (Handler.validate m) as [v|]; cbn.
  - exists [CallValidate ix (v (world (chart k)))]. split; [reflexivity|].
    right. now rewrite negb_involutive.
  - exists []. split; [reflexivity | now left].
Qed.

(** ** What one call of [move] does *)

Lemma ahead_one d ix : d = 1 \/ d = -1 -> ahead d ix (ix + d).
Proof. unfold ahead. intros [-> | ->]; lia. Qed.

Lemma ahead_trans d a b c :
  d = 1 \/ d = -1 -> ahead d a b -> ahead d b c -> ahead d a c.
Proof. unfold ahead. intros [-> | ->]; lia. Qed.

Lemma ahead_irrefl d a : ~ ahead d a a.
Proof. unfold ahead. lia. Qed.

Lemma move_spec fuel : forall d k,
  d = 1 \/ d = -1 ->
  (d = 1 -> exitAnchor k <> None) ->
  room d (currentModuleIx k) (Z.of_nat (List.length (modules k)))
    < Z.of_nat fuel ->
  exists b k', move fuel d k = Returns (b, k') /\ move_post d k b k'.
Proof.
  induction fuel as [|fuel IH]; intros d k Hd Ha Hroom.
  { pose proof (room_le_len d (currentModuleIx k)
                  (Z.of_nat (List.length (modules k)))). lia. }
  rewrite move_unfold. cbv zeta.
  pose proof (depart_setup d k) as S1.
  pose proof (depart_index d k) as I1.
  pose proof (depart_exiting d k) as E1.
  destruct (depart_delta d k) as [dl [T1 [F1 [A1 [K1 [Q1 Q1']]]]]].
  assert (M1 : modules (depart d k) = modules k) by apply S1.
  assert (X1 : exitAnchor (depart d k) = exitAnchor k) by apply S1.
  rewrite M1, I1.
  destruct (module_at (modules k) (currentModuleIx k + d)) as [m|] eqn:Em.
  - pose proof (call_invalid_setup (currentModuleIx k + d) m (depart d k)) as S2.
    pose proof (call_invalid_index (currentModuleIx k + d) m (depart d k)) as I2.
    pose proof (call_invalid_exiting (currentModuleIx k + d) m (depart d k)) as E2.
    destruct (call_invalid_delta (currentModuleIx k + d) m (depart d k))
      as [vl [T2 V2]].
    set (k2 := snd (call_invalid (currentModuleIx k + d) m (depart d k))) in *.
    assert (M2 : modules k2 = modules k)
      by (transitivity (modules (depart d k)); [apply S2 | exact M1]).
    assert (X2 : exitAnchor k2 = exitAnchor k)
      by (transitivity (exitAnchor (depart d k)); [apply S2 | exact X1]).
    pose proof (module_at_Some _ _ _ Em) as Hin.
    destruct (fst (call_invalid (currentModuleIx k + d) m (depart d k))) eqn:Ei.
    + (* invalid: recurse *)
      destruct (IH d k2 Hd) as [b [k' [Hm Hp]]].
      { now rewrite X2. }
      { rewrite M2, I2, I1, room_step by assumption. lia. }
      exists b, k'. split; [exact Hm|].
      destruct Hp as [S3 [delta [T3 [F3 [A3 [K3 P3]]]]]].
      split.
      { eapply same_setup_trans; [exact S1|].
        eapply same_setup_trans; [exact S2 | exact S3]. }
      assert (V : vl = [CallValidate (currentModuleIx k + d) false]).
      { destruct (call_invalid_true _ _ _ Ei) as [v [_ [_ Hv]]].
        fold k2 in Hv. rewrite T2 in Hv.
        destruct V2 as [-> | ->]; [|reflexivity].
        cbn in Hv. exfalso.
        apply (f_equal (@List.length Effect)) in Hv. cbn in Hv. lia. }
      subst vl.
      exists (delta ++ CallValidate (currentModuleIx k + d) false :: dl).
      split; [rewrite T3, T2, T1; trace_eq|].
      split; [rewrite forallb_app; cbn; now rewrite F3, F1|].
      split; [rewrite activations_app, skips_app; cbn; lia|].
      split.
      { rewrite skips_app. cbn. rewrite K1.
        rewrite M2, I2, I1, room_step in K3 by assumption. lia. }
      destruct b.
      * destruct P3 as [m' [f [rest [L1 [L2 [L3 [L4 [L5 [L6 [L7 L8]]]]]]]]]].
        rewrite M2 in L2.
        exists m', f, (rest ++ CallValidate (currentModuleIx k + d) false :: dl).
        assert (L1' : ahead d (currentModuleIx k) (currentModuleIx k')).
        { rewrite I2, I1 in L1.
          eapply ahead_trans; [exact Hd | apply ahead_one; exact Hd | exact L1]. }
        split; [exact L1'|]. split; [exact L2|]. split; [exact L3|].
        split; [exact L4|]. split; [rewrite L5, E2, E1; reflexivity|].
        split; [rewrite L6; reflexivity|].
        split.
        { intros i dd Hi. apply in_app_or in Hi.
          destruct Hi as [Hi | [Hi | Hi]];
            [eapply L7; eauto | discriminate | eapply Q1; eauto]. }
        intros i. split.
        -- intros Hi. apply in_app_or in Hi. destruct Hi as [Hi | [Hi | Hi]].
           ++ apply L8 in Hi. rewrite I2, I1 in Hi. split; [|apply Hi].
              eapply ahead_trans; [exact Hd | apply ahead_one; exact Hd | apply Hi].
           ++ injection Hi as <-. split; [apply ahead_one; exact Hd|].
              rewrite I2, I1 in L1. exact L1.
           ++ now apply Q1' in Hi.
        -- intros [Hi1 Hi2]. apply in_or_app.
           destruct (Z.eq_dec i (currentModuleIx k + d)) as [-> | Hne].
           ++ right. now left.
           ++ left. apply L8. rewrite I2, I1. split; [|exact Hi2].
              unfold ahead in *. destruct Hd as [-> | ->]; lia.
      * destruct P3 as [L1 [L2 [[rest L3] L4]]].
        repeat split; try assumption.
        -- exists (rest ++ CallValidate (currentModuleIx k + d) false :: dl).
           rewrite L3. reflexivity.
        -- intros i dd Hi. apply in_app_or in Hi.
           destruct Hi as [Hi | [Hi | Hi]];
             [eapply L4; eauto | discriminate | eapply Q1; eauto].
    + (* valid *)
      assert (Q2 : quiet vl \/ vl = [CallValidate (currentModuleIx k + d) true]).
      { destruct V2 as [-> | ->]; [left | right; reflexivity].
        split; intros ? ? []. }
      assert (F2 : forallb (move_effect d) vl = true
                   /\ activations vl = 0%nat /\ skips vl = 0%nat
                   /\ (forall i dd, ~ In (CallInit i dd) vl)
                   /\ (forall i, ~ In (CallValidate i false) vl)).
      { destruct V2 as [-> | ->]; cbn; repeat split; try tauto;
          intros ? ? ; intuition discriminate. }
      destruct F2 as [F2 [A2 [K2 [N2 N2']]]].
      destruct (Handler.init m) as [f|] eqn:Ef.
      * exists true. eexists. split; [reflexivity|].
        destruct (call_init_facts (currentModuleIx k2) d f k2)
          as [S3 [I3 [E3 T3]]].
        split.
        { eapply same_setup_trans; [exact S1|].
          eapply same_setup_trans; [exact S2 | exact S3]. }
        exists (CallInit (currentModuleIx k2) d :: vl ++ dl).
        split; [rewrite T3, T2, T1; trace_eq|].
        split; [cbn; rewrite Z.eqb_refl, forallb_app, F2, F1; reflexivity|].
        split; [cbn; rewrite activations_app, skips_app; lia|].
        split.
        { cbn. rewrite skips_app, K2, K1. cbn.
          pose proof (room_step d (currentModuleIx k) _ Hd Hin).
          pose proof (room_le_len d (currentModuleIx k + d)
                        (Z.of_nat (List.length (modules k)))). lia. }
        exists m, f, (vl ++ dl).
        split; [rewrite I3, I2, I1; apply ahead_one; exact Hd|].
        split; [rewrite I3, I2, I1; exact Em|].
        split; [exact Ef|].
        split.
        { intros Hinv.
          rewrite (always_invalid_call _ _ _ Hinv) in Ei. discriminate. }
        split; [rewrite E3, E2, E1; reflexivity|].
        split; [rewrite I3; reflexivity|].
        split.
        { intros i dd Hi. apply in_app_or in Hi.
          destruct Hi as [Hi | Hi]; [eapply N2 | eapply Q1]; eauto. }
        intros i. split.
        -- intros Hi. apply in_app_or in Hi. destruct Hi as [Hi | Hi];
             [now apply N2' in Hi | now apply Q1' in Hi].
        -- rewrite I3, I2, I1. unfold ahead.
           destruct Hd as [-> | ->]; lia.
      * destruct (leaveChart_facts d k2 Hd) as [k' [Hl [S3 [I3 [E3 [_ T3]]]]]].
        { now rewrite X2. }
        exists false, k'. split; [exact Hl|].
        split.
        { eapply same_setup_trans; [exact S1|].
          eapply same_setup_trans; [exact S2 | exact S3]. }
        set (fx := if d >? 0 then FocusExitAnchor else FocusTabindexContainer) in *.
        assert (Hfx : move_effect d fx = true /\ activations [fx] = 0%nat /\
                      skips [fx] = 0%nat /\ forall i dd, fx <> CallInit i dd).
        { unfold fx. destruct (d >? 0); repeat split; discriminate. }
        destruct Hfx as [Ffx [Afx [Kfx Nfx]]].
        exists ([fx] ++ vl ++ dl).
        split; [rewrite T3, T2, T1; trace_eq|].
        split; [rewrite !forallb_app; cbn; now rewrite Ffx, F2, F1|].
        split; [rewrite !activations_app, !skips_app; lia|].
        split.
        { rewrite !skips_app.
          pose proof (room_le_len d (currentModuleIx k)
                        (Z.of_nat (List.length (modules k)))). lia. }
        split; [exact I3|]. split; [exact E3|].
        split; [exists (vl ++ dl); reflexivity|].
        intros i dd Hi. apply in_app_or in Hi.
        destruct Hi as [[Hi | []] | Hi]; [now apply Nfx in Hi|].
        apply in_app_or in Hi.
        destruct Hi as [Hi | Hi]; [eapply N2 | eapply Q1]; eauto.
  - destruct (leaveChart_facts d (depart d k) Hd) as [k' [Hl [S3 [I3 [E3 [_ T3]]]]]].
    { now rewrite X1. }
    exists false, k'. split; [exact Hl|].
    split; [eapply same_setup_trans; [exact S1 | exact S3]|].
    set (fx := if d >? 0 then FocusExitAnchor else FocusTabindexContainer) in *.
    assert (Hfx : move_effect d fx = true /\ activations [fx] = 0%nat /\
                  skips [fx] = 0%nat /\ forall i dd, fx <> CallInit i dd).
    { unfold fx. destruct (d >? 0); repeat split; discriminate. }
    destruct Hfx as [Ffx [Afx [Kfx Nfx]]].
    exists ([fx] ++ dl).
    split; [rewrite T3, T1; trace_eq|].
    split; [rewrite !forallb_app; cbn; now rewrite Ffx, F1|].
    split; [rewrite !activations_app, !skips_app; lia|].
    split.
    { rewrite !skips_app.
      pose proof (room_le_len d (currentModuleIx k)
                    (Z.of_nat (List.length (modules k)))). lia. }
    split; [exact I3|]. split; [exact E3|].
    split; [exists dl; reflexivity|].
    intros i dd Hi. apply in_app_or in Hi.
    destruct Hi as [[Hi | []] | Hi]; [now apply Nfx in Hi | eapply Q1; eauto].
Qed.

Lemma enough_room d k :
  room d (currentModuleIx k) (Z.of_nat (List.length (modules k)))
    < Z.of_nat (enough k).
Proof.
  pose proof (room_le_len d (currentModuleIx k)
                (Z.of_nat (List.length (modules k)))).
  unfold enough. lia.
Qed.

(** When every module ahead is invalid, [move] cannot answer true. *)
Lemma move_all_invalid fuel : forall d k b k',
  d = 1 \/ d = -1 ->
  (forall i m, ahead d (currentModuleIx k) i ->
               module_at (modules k) i = Some m -> always_invalid m) ->
  move fuel d k = Returns (b, k') -> b = false.
Proof.
  induction fuel as [|fuel IH]; intros d k b k' Hd Hall Hm; [discriminate|].
  rewrite move_unfold in Hm. cbv zeta in Hm.
  assert (M1 : modules (depart d k) = modules k) by apply depart_setup.
  rewrite M1, depart_index in Hm.
  destruct (module_at (modules k) (currentModuleIx k + d)) as [m|] eqn:Em.
  - rewrite (always_invalid_call _ m _ (Hall _ m (ahead_one d _ Hd) Em)) in Hm.
    apply IH in Hm; [exact Hm | exact Hd |].
    intros i mi Hi Hmi.
    rewrite call_invalid_index, depart_index in Hi.
    assert (M2 : modules (snd (call_invalid (currentModuleIx k + d) m (depart d k)))
                 = modules k)
      by (transitivity (modules (depart d k)); [apply call_invalid_setup | exact M1]).
    rewrite M2 in Hmi. apply (Hall i); [|exact Hmi].
    eapply ahead_trans; [exact Hd | apply ahead_one; exact Hd | exact Hi].
  - unfold leaveChart in Hm.
    destruct (d >? 0); [destruct (exitAnchor _)|]; congruence.
Qed.

(** When the first module ahead that is not invalid is valid and has
    [init], [move] lands on it. *)
Lemma move_lands fuel : forall d k j m f,
  d = 1 \/ d = -1 ->
  -1 <= currentModuleIx k <= Z.of_nat (List.length (modules k)) ->
  ahead d (currentModuleIx k) j ->
  module_at (modules k) j = Some m ->
  always_valid m -> Handler.init m = Some f ->
  (forall i mi, ahead d (currentModuleIx k) i -> ahead d i j ->
                module_at (modules k) i = Some mi -> always_invalid mi) ->
  room d (currentModuleIx k) (Z.of_nat (List.length (modules k)))
    < Z.of_nat fuel ->
  exists k', move fuel d k = Returns (true, k') /\ currentModuleIx k' = j.
Proof.
  induction fuel as [|fuel IH]; intros d k j m f Hd Hix Hj Hm Hv Hf Hbetween Hroom.
  { pose proof (room_le_len d (currentModuleIx k)
                  (Z.of_nat (List.length (modules k)))). lia. }
  rewrite move_unfold. cbv zeta.
  assert (M1 : modules (depart d k) = modules k) by apply depart_setup.
  rewrite M1, depart_index.
  pose proof (module_at_Some _ _ _ Hm) as Hjr.
  assert (Hn : currentModuleIx k + d = j \/ ahead d (currentModuleIx k + d) j)
    by (unfold ahead in *; destruct Hd as [-> | ->]; lia).
  assert (Hin : 0 <= currentModuleIx k + d < Z.of_nat (List.length (modules k)))
    by (unfold ahead in *; destruct Hd as [-> | ->]; lia).
  set (k2 := fun mi => snd (call_invalid (currentModuleIx k + d) mi (depart d k))).
  assert (M2 : forall mi, modules (k2 mi) = modules k).
  { intros mi. transitivity (modules (depart d k));
      [apply call_invalid_setup | exact M1]. }
  assert (I2 : forall mi, currentModuleIx (k2 mi) = currentModuleIx k + d).
  { intros mi. unfold k2. now rewrite call_invalid_index, depart_index. }
  destruct Hn as [Hn | Hn].
  - rewrite Hn, Hm, always_valid_call, Hf by exact Hv.
    eexists. split; [reflexivity|].
    destruct (call_init_facts
                (currentModuleIx (snd (call_invalid j m (depart d k)))) d f
                (snd (call_invalid j m (depart d k)))) as [_ [-> _]].
    rewrite call_invalid_index, depart_index. exact Hn.
  - destruct (module_at_in_range _ _ Hin) as [mi Hmi]. rewrite Hmi.
    rewrite always_invalid_call
      by (apply (Hbetween _ mi (ahead_one d _ Hd) Hn Hmi)).
    fold (k2 mi).
    apply (IH d (k2 mi) j m f); rewrite ?M2, ?I2; try assumption.
    + lia.
    + intros i mi' Hi Hi' Hmi'. apply (Hbetween i mi'); try assumption.
      eapply ahead_trans; [exact Hd | apply ahead_one; exact Hd | exact Hi].
    + rewrite room_step by assumption. lia.
Qed.

(** More fuel does not change an answer. *)
Lemma move_fuel_mono fuel : forall d k fuel',
  move fuel d k <> OutOfFuel -> (fuel <= fuel')%nat ->
  move fuel' d k = move fuel d k.
Proof.
  induction fuel as [|fuel IH]; intros d k fuel' Hm Hle; [now elim Hm|].
  destruct fuel' as [|fuel']; [lia|].
  rewrite !move_unfold in *. cbv zeta in *.
  destruct (module_at _ _); [|reflexivity].
  destruct (fst _); [|reflexivity].
  apply IH; [exact Hm | lia].
Qed.

Lemma move_terminates fuel : forall d k,
  d = 1 \/ d = -1 ->
  room d (currentModuleIx k) (Z.of_nat (List.length (modules k)))
    < Z.of_nat fuel ->
  move fuel d k <> OutOfFuel.
Proof.
  induction fuel as [|fuel IH]; intros d k Hd Hroom.
  { pose proof (room_le_len d (currentModuleIx k)
                  (Z.of_nat (List.length (modules k)))). lia. }
  rewrite move_unfold. cbv zeta.
  assert (M1 : modules (depart d k) = modules k) by apply depart_setup.
  rewrite M1, depart_index.
  destruct (module_at (modules k) (currentModuleIx k + d)) as [m|] eqn:Em.
  - destruct (fst _) eqn:Ei.
    + apply IH; [exact Hd|].
      assert (M2 : modules (snd (call_invalid (currentModuleIx k + d) m (depart d k)))
                   = modules k)
        by (transitivity (modules (depart d k)); [apply call_invalid_setup | exact M1]).
      rewrite M2, call_invalid_index, depart_index, room_step;
        [lia | exact Hd | exact (module_at_Some _ _ _ Em)].
    + destruct (Handler.init m); [discriminate|].
      unfold leaveChart. destruct (d >? 0); [destruct (exitAnchor _)|]; discriminate.
  - unfold leaveChart. destruct (d >? 0); [destruct (exitAnchor _)|]; discriminate.
Qed.

(** ** move *)

(** C1: for every module sequence, start index and direction +1 or -1
    (with the exit anchor in place when moving forward), [move] returns;
    it never calls [init] on a module whose [validate] answers false -
    neither on a module that is invalid whatever the chart state, nor,
    within the call, on an index at which [validate] has just answered
    false; when it lands, the landing index lies ahead of the start in
    the direction of motion and the modules found invalid are exactly
    those strictly between the two; and when every module ahead is
    invalid it resets [currentModuleIx] to 0, sets [exiting], focuses
    the exit anchor (direction > 0) or the tab stop (direction < 0) as
    its newest effect, and answers false. *)
Theorem move_skips_invalid_modules :
  forall k d,
    d = 1 \/ d = -1 ->
    (d = 1 -> exitAnchor k <> None) ->
    exists b k' delta,
      move (enough k) d k = Returns (b, k') /\
      trace k' = delta ++ trace k /\
      (forall i m dd,
         module_at (modules k) i = Some m -> always_invalid m ->
         ~ In (CallInit i dd) delta) /\
      (forall i dd,
         In (CallInit i dd) delta -> ~ In (CallValidate i false) delta) /\
      (b = true ->
         ahead d (currentModuleIx k) (currentModuleIx k') /\
         forall i, In (CallValidate i false) delta <->
                   ahead d (currentModuleIx k) i /\
                   ahead d i (currentModuleIx k')) /\
      ((forall i m, ahead d (currentModuleIx k) i ->
                    module_at (modules k) i = Some m -> always_invalid m) ->
       b = false /\ currentModuleIx k' = 0 /\ exiting k' = Some true /\
       exists rest,
         delta =
           (if d >? 0 then FocusExitAnchor else FocusTabindexContainer)
           :: rest).
Proof.
  intros k d Hd Ha.
  destruct (move_spec (enough k) d k Hd Ha (enough_room d k))
    as [b [k' [Hm [_ [delta [Ht [_ [_ [_ Hb]]]]]]]]].
  exists b, k', delta. split; [exact Hm|]. split; [exact Ht|].
  destruct b.
  - destruct Hb as [m [f [rest [L1 [L2 [L3 [L4 [L5 [L6 [L7 L8]]]]]]]]]].
    subst delta.
    split.
    { intros i mi dd Hi Hinv [Hin | Hin]; [|now apply L7 in Hin].
      injection Hin as Hin _. rewrite Hin in L2.
      assert (m = mi) by congruence. subst mi. now apply L4. }
    split.
    { intros i dd [Hin | Hin] [Hv | Hv]; try discriminate;
        try (now apply L7 in Hin).
      injection Hin as Hin _. apply L8 in Hv. rewrite Hin in Hv.
      now apply (ahead_irrefl d i). }
    split.
    { intros _. split; [exact L1|]. intros i. split.
      - intros [Hv | Hv]; [discriminate | now apply L8].
      - intros Hi. right. now apply L8. }
    intros Hall.
    pose proof (move_all_invalid _ _ _ _ _ Hd Hall Hm). discriminate.
  - destruct Hb as [L1 [L2 [L3 L4]]].
    split; [intros i mi dd _ _; apply L4|].
    split; [intros i dd Hin; now apply L4 in Hin|].
    split; [discriminate|].
    intros _. auto.
Qed.

(** C7 (as amended): for every module sequence, also one whose modules
    are all invalid, and direction +1 or -1, [move] terminates: the
    depth [enough k] - the length of the sequence plus one - is never
    exhausted, and more depth gives the same answer. When it returns it
    has skipped at most length-many modules, and it has entered itself
    once more than it has skipped: each skip is a recursive call. *)
Theorem move_terminates_by_bounded_recursion :
  forall k d,
    d = 1 \/ d = -1 ->
    move (enough k) d k <> OutOfFuel /\
    (forall fuel, (enough k <= fuel)%nat ->
                  move fuel d k = move (enough k) d k) /\
    ((d = 1 -> exitAnchor k <> None) ->
     exists b k' delta,
       move (enough k) d k = Returns (b, k') /\
       trace k' = delta ++ trace k /\
       (skips delta <= List.length (modules k))%nat /\
       activations delta = S (skips delta)).
Proof.
  intros k d Hd.
  pose proof (move_terminates (enough k) d k Hd (enough_room d k)) as Hn.
  split; [exact Hn|].
  split; [intros fuel Hle; now apply move_fuel_mono|].
  intros Ha.
  destruct (move_spec (enough k) d k Hd Ha (enough_room d k))
    as [b [k' [Hm [_ [delta [Ht [_ [Hact [Hsk _]]]]]]]]].
  exists b, k', delta. repeat split; try assumption.
  pose proof (room_le_len d (currentModuleIx k)
                (Z.of_nat (List.length (modules k)))). lia.
Qed.

(** ** Active modules *)

Lemma inactive_current k : inactive k -> active_is_current k.
Proof. intros H i Hi. rewrite H in Hi. discriminate. Qed.

Lemma active_is_current_one k :
  active_is_current k -> at_most_one_active (trace k).
Proof.
  intros H i j Hi Hj. apply H in Hi. apply H in Hj.
  destruct Hi as [-> _], Hj as [-> _]. reflexivity.
Qed.

Lemma terminated_inactive k tr dir :
  all_terminate k -> active_is_current k ->
  tr = match module_at (modules k) (currentModuleIx k) with
       | Some m =>
           match Handler.terminate m with
           | Some _ => [CallTerminate (currentModuleIx k) dir]
           | None => []
           end
       | None => []
       end ++ trace k ->
  forall i, is_active i tr = false.
Proof.
  intros Hall Hcur -> i.
  destruct (is_active i (trace k)) eqn:Ei.
  - destruct (Hcur i Ei) as [-> Hm].
    destruct (module_at (modules k) (currentModuleIx k)) as [m|] eqn:Em;
      [|now elim Hm].
    destruct (Handler.terminate m) eqn:Et;
      [|now elim (Hall m (module_at_In _ _ _ Em))].
    cbn. now rewrite Z.eqb_refl.
  - destruct (module_at (modules k) (currentModuleIx k)) as [m|];
      [destruct (Handler.terminate m)|]; cbn; try exact Ei.
    destruct (currentModuleIx k =? i); [reflexivity | exact Ei].
Qed.

Lemma depart_inactive d k :
  all_terminate k -> active_is_current k -> inactive (depart d k).
Proof.
  intros Hall Hcur i.
  destruct (depart_trace d k) as [border [Hb Ht]]. rewrite Ht.
  assert (H : is_active i
                (match module_at (modules k) (currentModuleIx k) with
                 | Some m =>
                     match Handler.terminate m with
                     | Some _ => [CallTerminate (currentModuleIx k) (Some d)]
                     | None => []
                     end
                 | None => []
                 end ++ EnterMove d :: trace k) = false).
  { pose proof (terminated_inactive k _ (Some d) Hall Hcur eq_refl i) as H.
    destruct (module_at (modules k) (currentModuleIx k)) as [m|];
      [destruct (Handler.terminate m)|]; exact H. }
  destruct Hb as [-> | ->]; exact H.
Qed.

Lemma call_invalid_inactive ix m k :
  inactive k -> inactive (snd (call_invalid ix m k)).
Proof.
  intros H i. destruct (call_invalid_delta ix m k) as [vl [-> [-> | ->]]];
    cbn; apply H.
Qed.

Lemma leaveChart_inactive d k b k' :
  inactive k -> leaveChart d k = Returns (b, k') -> inactive k'.
Proof.
  unfold leaveChart. intros H Hl i.
  destruct (d >? 0); [destruct (exitAnchor _); [|discriminate]|];
    injection Hl as <- <-; cbn; apply H.
Qed.

Lemma all_terminate_same k k' :
  modules k' = modules k -> all_terminate k -> all_terminate k'.
Proof. unfold all_terminate. intros ->. auto. Qed.

Lemma leaveChart_modules d k b k' :
  leaveChart d k = Returns (b, k') -> modules k' = modules k.
Proof.
  unfold leaveChart.
  destruct (d >? 0); [destruct (exitAnchor _); [|discriminate]|];
    intros H; injection H as <- <-; reflexivity.
Qed.

Lemma move_keeps_one_active fuel : forall d k b k',
  all_terminate k -> active_is_current k ->
  move fuel d k = Returns (b, k') ->
  all_terminate k' /\ active_is_current k'.
Proof.
  induction fuel as [|fuel IH]; intros d k b k' Hall Hcur Hm; [discriminate|].
  rewrite move_unfold in Hm. cbv zeta in Hm.
  pose proof (depart_inactive d k Hall Hcur) as H1.
  assert (M1 : modules (depart d k) = modules k) by apply depart_setup.
  destruct (module_at (modules (depart d k)) (currentModuleIx (depart d k)))
    as [m|] eqn:Em.
  - pose proof (call_invalid_inactive (currentModuleIx (depart d k)) m _ H1) as H2.
    pose proof (call_invalid_index (currentModuleIx (depart d k)) m (depart d k)) as I2.
    pose proof (call_invalid_setup (currentModuleIx (depart d k)) m (depart d k)) as S2.
    set (k2 := snd (call_invalid (currentModuleIx (depart d k)) m (depart d k))) in *.
    assert (M2 : modules k2 = modules k)
      by (transitivity (modules (depart d k)); [apply S2 | exact M1]).
    destruct (fst _).
    + apply IH in Hm; [exact Hm | | now apply inactive_current].
      now apply (all_terminate_same k).
    + destruct (Handler.init m) as [f|].
      * injection Hm as <- <-.
        destruct (call_init_facts (currentModuleIx k2) d f k2)
          as [S3 [I3 [_ T3]]].
        split.
        { apply (all_terminate_same k); [|exact Hall].
          transitivity (modules k2); [apply S3 | exact M2]. }
        intros i Hi. rewrite T3 in Hi. cbn [is_active] in Hi.
        rewrite I3.
        destruct (Z.eqb_spec (currentModuleIx k2) i) as [Heq | _].
        -- split; [now symmetry|].
           assert (M3 : modules (call_init (currentModuleIx k2) d f k2)
                        = modules (depart d k))
             by (transitivity (modules k2); [apply S3 | apply S2]).
           rewrite M3, <- Heq, I2, Em. discriminate.
        -- rewrite H2 in Hi. discriminate.
      * split.
        { apply (all_terminate_same k); [|exact Hall].
          transitivity (modules k2); [eapply leaveChart_modules; eauto | exact M2]. }
        apply inactive_current. eapply leaveChart_inactive; eauto.
  - split.
    { apply (all_terminate_same k); [|exact Hall].
      transitivity (modules (depart d k));
        [eapply leaveChart_modules; eauto | exact M1]. }
    apply inactive_current. eapply leaveChart_inactive; eauto.
Qed.

Lemma onMouseUp_eq k :
  onMouseUp k =
    let k0 := set_isClickingChart None k in
    if negb (truthy (keyboardReset k)) && negb (truthy (pointerIsOverChart k))
    then
      set_keyboardReset (Some true)
        (set_currentModuleIx 0 (clearFocusBorder (terminateCurrent None k0)))
    else k0.
Proof. reflexivity. Qed.

Lemma onMouseUp_keeps_one_active k :
  all_terminate k -> active_is_current k ->
  all_terminate (onMouseUp k) /\ active_is_current (onMouseUp k).
Proof.
  intros Hall Hcur. rewrite onMouseUp_eq. cbv zeta.
  destruct (negb (truthy (keyboardReset k)) &&
            negb (truthy (pointerIsOverChart k)));
    [|split; assumption].
  set (k0 := set_isClickingChart None k).
  destruct (terminateCurrent_facts None k0) as [S1 [_ [_ T1]]].
  destruct (clearFocusBorder_facts (terminateCurrent None k0))
    as [S2 [_ [_ [border [Hb T2]]]]].
  split.
  - apply (all_terminate_same k); [|exact Hall].
    transitivity (modules (terminateCurrent None k0)); [apply S2 | apply S1].
  - apply inactive_current. intros i.
    change (is_active i (trace (clearFocusBorder (terminateCurrent None k0)))
            = false).
    rewrite T2, T1.
    pose proof (terminated_inactive k _ None Hall Hcur eq_refl i) as H.
    destruct Hb as [-> | ->]; exact H.
Qed.

Lemma onKeydown_keeps_one_active e k k' :
  all_terminate k -> active_is_current k ->
  onKeydown e k = Returns k' ->
  all_terminate k' /\ active_is_current k'.
Proof.
  intros Hall Hcur. unfold onKeydown. cbv zeta.
  set (cur := match modules k with
              | [] => None
              | _ => module_at (modules k) (currentModuleIx k)
              end).
  destruct cur as [m|]; [|intros H; injection H as <-; split; assumption].
  destruct (Handler.run m e _) as [code w] eqn:Er.
  set (k1 := record _ _).
  assert (A1 : all_terminate k1 /\ active_is_current k1) by (split; assumption).
  destruct A1 as [Hall1 Hcur1].
  assert (Hs : forall b k2 k3,
             all_terminate k2 /\ active_is_current k2 ->
             Returns (if b : bool then suppress k2 else k2) = Returns k3 ->
             all_terminate k3 /\ active_is_current k3).
  { intros b k2 k3 H2 H3. injection H3 as <-. destruct b; exact H2. }
  destruct (code =? _).
  { intros H. injection H as <-. split; assumption. }
  destruct (code =? _).
  { unfold prev. destruct (move _ _ _) as [[b k2]| |] eqn:Em; try discriminate.
    apply Hs. eapply move_keeps_one_active; eauto. }
  destruct (code =? _).
  { unfold next. destruct (move _ _ _) as [[b k2]| |] eqn:Em; try discriminate.
    apply Hs. eapply move_keeps_one_active; eauto. }
  intros H. injection H as <-. split; assumption.
Qed.

(** When every module of the sequence has [terminate] and no module but
    the current one is active, the same holds in every state reached by
    key-down, [move] by one and pointer inputs. *)
Lemma steps_keep_one_active :
  forall inputs k k',
    all_terminate k -> active_is_current k ->
    forallb internal inputs = true ->
    steps inputs k = Returns k' ->
    all_terminate k' /\ active_is_current k' /\
    at_most_one_active (trace k').
Proof.
  induction inputs as [|i inputs IH]; intros k k' Hall Hcur Hin Hs.
  - injection Hs as <-. split; [exact Hall|]. split; [exact Hcur|].
    now apply active_is_current_one.
  - cbn in Hin. apply andb_true_iff in Hin. destruct Hin as [Hi Hin].
    cbn [steps] in Hs.
    destruct (step i k) as [k1| |] eqn:E1; try discriminate.
    assert (H1 : all_terminate k1 /\ active_is_current k1).
    { destruct i; cbn [internal] in Hi; cbn [step] in E1; try discriminate Hi.
      - eapply onKeydown_keeps_one_active; eauto.
      - destruct (move _ _ _) as [[b k2]| |] eqn:Em; try discriminate.
        cbn [drop_result] in E1.
        injection E1 as <-. eapply move_keeps_one_active; eauto.
      - injection E1 as <-. now apply onMouseUp_keeps_one_active.
      - injection E1 as <-. split; assumption.
      - injection E1 as <-. split; assumption.
      - injection E1 as <-. split; assumption. }
    destruct H1 as [Hall1 Hcur1]. eapply IH; eauto.
Qed.

(** ** Backward entry through the exit anchor *)

Lemma onExitAnchorFocus_backwards k :
  truthy (exiting k) = false -> modules k <> [] ->
  onExitAnchorFocus false k =
    let k1 := enterBackwards k in
    match module_at (modules k1) (currentModuleIx k1) with
    | Some curModule =>
        let k2 := snd (call_invalid (currentModuleIx k1) curModule k1) in
        if fst (call_invalid (currentModuleIx k1) curModule k1) then
          drop_result (prev k2)
        else
          match Handler.init curModule with
          | Some f => Returns (call_init (currentModuleIx k2) (-1) f k2)
          | None => ThrowsTypeError
          end
    | None => Returns k1
    end.
Proof.
  intros He Hm. unfold onExitAnchorFocus, enterBackwards. rewrite He.
  cbn [orb negb]. cbv zeta.
  destruct (modules k) as [|m0 ms] eqn:E; [now elim Hm|].
  cbn [modules set_tabbingInBackwards record set_currentModuleIx].
  rewrite E.
  destruct (module_at _ _) as [cur|]; [|reflexivity].
  destruct (call_invalid _ cur _) as [inv k2]. cbn [fst snd].
  destruct inv; [|reflexivity].
  unfold drop_result. destruct (prev k2) as [[b k3]| |]; reflexivity.
Qed.

Lemma enterBackwards_facts k :
  same_setup k (enterBackwards k) /\
  currentModuleIx (enterBackwards k) = Z.of_nat (List.length (modules k)) - 1 /\
  exiting (enterBackwards k) = exiting k /\
  trace (enterBackwards k) =
    PreventDefault :: FocusTabindexContainer :: trace k.
Proof. unfold enterBackwards. cbv zeta. repeat split. Qed.

(** The handler of the exit anchor, when focus comes in backwards and
    [j] is the last valid module. *)
Lemma exit_anchor_backwards k j m f :
  truthy (exiting k) = false ->
  module_at (modules k) j = Some m ->
  always_valid m -> Handler.init m = Some f ->
  (forall i mi, j < i -> module_at (modules k) i = Some mi ->
                always_invalid mi) ->
  exists k' mid,
    onExitAnchorFocus false k = Returns k' /\
    same_setup k k' /\
    currentModuleIx k' = j /\
    trace k' =
      CallInit j (-1) :: mid ++
      PreventDefault :: FocusTabindexContainer :: trace k /\
    (forall i dd, ~ In (CallInit i dd) mid) /\
    (forall i, In (CallValidate i false) mid <->
               j < i <= Z.of_nat (List.length (modules k)) - 1).
Proof.
  intros He Hm Hv Hf Hafter.
  pose proof (module_at_Some _ _ _ Hm) as Hj.
  assert (Hne : modules k <> []).
  { intros E. rewrite E in Hj. cbn in Hj. lia. }
  rewrite (onExitAnchorFocus_backwards k He Hne). cbv zeta.
  destruct (enterBackwards_facts k) as [S1 [I1 [E1 T1]]].
  assert (M1 : modules (enterBackwards k) = modules k) by apply S1.
  rewrite M1, I1.
  set (last := Z.of_nat (List.length (modules k)) - 1) in *.
  destruct (module_at_in_range (modules k) last) as [ml Hl];
    [unfold last; lia|].
  rewrite Hl.
  pose proof (call_invalid_setup last ml (enterBackwards k)) as S2.
  pose proof (call_invalid_index last ml (enterBackwards k)) as I2.
  destruct (call_invalid_delta last ml (enterBackwards k)) as [vl [T2 V2]].
  set (k2 := snd (call_invalid last ml (enterBackwards k))) in *.
  assert (M2 : modules k2 = modules k)
    by (transitivity (modules (enterBackwards k)); [apply S2 | exact M1]).
  destruct (Z.eq_dec j last) as [Ejl | Njl].
  - (* the last module is the valid one *)
    assert (ml = m) by congruence. subst ml.
    rewrite always_valid_call by exact Hv. rewrite Hf.
    destruct (call_init_facts (currentModuleIx k2) (-1) f k2)
      as [S3 [I3 [_ T3]]].
    eexists. exists vl. split; [reflexivity|].
    split.
    { eapply same_setup_trans; [exact S1|].
      eapply same_setup_trans; [exact S2 | exact S3]. }
    split; [rewrite I3, I2, I1; now symmetry|].
    split.
    { rewrite T3, T2, T1, I2, I1. fold last. now rewrite Ejl. }
    pose proof (always_valid_call last m (enterBackwards k) Hv) as Ei.
    rewrite Ei in V2. cbn in V2.
    destruct V2 as [-> | ->]; split; intros i; cbn [In];
      intuition (try discriminate; try lia).
  - (* the last module is invalid: prev *)
    assert (Hlt : j < last) by (unfold last in *; lia).
    pose proof (always_invalid_call last ml (enterBackwards k)
                  (Hafter last ml Hlt Hl)) as Ei.
    rewrite Ei. rewrite Ei in V2. cbn in V2.
    assert (V : vl = [CallValidate last false]).
    { destruct (call_invalid_true _ _ _ Ei) as [v [_ [_ Hvt]]].
      fold k2 in Hvt. rewrite T2 in Hvt.
      destruct V2 as [-> | ->]; [|reflexivity].
      exfalso. apply (f_equal (@List.length Effect)) in Hvt.
      cbn in Hvt. lia. }
    subst vl. unfold prev.
    assert (Hd : -1 = 1 \/ -1 = -1) by now right.
    destruct (move_lands (enough k2) (-1) k2 j m f Hd) as [k' [Hmv Hix]].
    { rewrite M2, I2, I1. unfold last. lia. }
    { rewrite I2, I1. unfold ahead. lia. }
    { now rewrite M2. }
    { exact Hv. }
    { exact Hf. }
    { intros i mi _ Hi Hmi. rewrite M2 in Hmi.
      apply (Hafter i mi); [unfold ahead in Hi; lia | exact Hmi]. }
    { apply enough_room. }
    destruct (move_spec (enough k2) (-1) k2 Hd) as [b [k'' [Hmv' Hp]]].
    { intros D; discriminate D. }
    { apply enough_room. }
    rewrite Hmv in Hmv'. injection Hmv' as <- <-.
    destruct Hp as [S3 [delta [T3 [_ [_ [_ Hland]]]]]].
    destruct Hland as [m' [f' [rest [L1 [_ [_ [_ [_ [L6 [L7 L8]]]]]]]]]].
    rewrite Hmv. cbn [drop_result].
    exists k', (rest ++ [CallValidate last false]).
    split; [reflexivity|].
    split.
    { eapply same_setup_trans; [exact S1|].
      eapply same_setup_trans; [exact S2 | exact S3]. }
    split; [exact Hix|].
    split.
    { rewrite T3, L6, T2, T1, Hix. cbn. now rewrite <- app_assoc. }
    split.
    + intros i dd Hin. apply in_app_or in Hin.
      destruct Hin as [Hin | [Hin | []]]; [eapply L7; eauto | discriminate].
    + intros i. split.
      * intros Hin. apply in_app_or in Hin.
        destruct Hin as [Hin | [Hin | []]].
        -- apply L8 in Hin. rewrite I2, I1, Hix in Hin.
           unfold ahead in Hin. fold last in Hin. lia.
        -- injection Hin as <-. lia.
      * intros Hi. apply in_or_app.
        destruct (Z.eq_dec i last) as [-> | Hnl]; [right; now left|].
        left. apply L8. rewrite I2, I1, Hix. unfold ahead. fold last. lia.
Qed.

(** X20: for a module sequence whose last valid module [j] has [init],
    when focus lands on the exit anchor from outside the chart and not
    during an exit, the handler focuses the tab stop, starts from the
    last index of the sequence and skips backward past the invalid
    modules - it finds invalid exactly the modules from the last index
    down to [j + 1] - and initializes module [j] with direction -1, the
    only [init] it calls, leaving [currentModuleIx] at [j]. So a forward
    exit from [j] or beyond, the focus event of that exit, and a native
    backward entry resume at [j]. *)
Theorem backward_entry_resumes_at_last_valid :
  forall k j m f,
    module_at (modules k) j = Some m ->
    always_valid m -> Handler.init m = Some f ->
    (forall i mi, j < i -> module_at (modules k) i = Some mi ->
                  always_invalid mi) ->
    (truthy (exiting k) = false ->
     exists k' mid,
       onExitAnchorFocus false k = Returns k' /\
       currentModuleIx k' = j /\
       trace k' =
         CallInit j (-1) :: mid ++
         PreventDefault :: FocusTabindexContainer :: trace k /\
       (forall i dd, ~ In (CallInit i dd) mid) /\
       (forall i, In (CallValidate i false) mid <->
                  j < i <= Z.of_nat (List.length (modules k)) - 1)) /\
    (exitAnchor k <> None -> j <= currentModuleIx k ->
     exists k1 k3 rest,
       next k = Returns (false, k1) /\
       currentModuleIx k1 = 0 /\ exiting k1 = Some true /\
       (forall fc,
          onExitAnchorFocus fc k1 = Returns (set_exiting (Some false) k1)) /\
       onExitAnchorFocus false (set_exiting (Some false) k1) = Returns k3 /\
       currentModuleIx k3 = j /\
       trace k3 = CallInit j (-1) :: rest).
Proof.
  intros k j m f Hm Hv Hf Hafter. split.
  - intros He.
    destruct (exit_anchor_backwards k j m f He Hm Hv Hf Hafter)
      as [k' [mid [H1 [_ [H2 [H3 [H4 H5]]]]]]].
    exists k', mid. auto.
  - intros Ha Hix.
    assert (Hd : 1 = 1 \/ 1 = -1) by now left.
    destruct (move_spec (enough k) 1 k Hd (fun _ => Ha) (enough_room 1 k))
      as [b [k1 [Hmv Hp]]].
    assert (b = false).
    { eapply move_all_invalid; [exact Hd | | exact Hmv].
      intros i mi Hi Hmi. apply (Hafter i mi); [unfold ahead in Hi; lia | exact Hmi]. }
    subst b. destruct Hp as [S1 [delta [_ [_ [_ [_ [L1 [L2 _]]]]]]]].
    assert (M1 : modules k1 = modules k) by apply S1.
    set (k2 := set_exiting (Some false) k1).
    destruct (exit_anchor_backwards k2 j m f) as [k3 [mid [H1 [_ [H2 [H3 _]]]]]];
      try assumption; try reflexivity.
    { cbn. now rewrite M1. }
    { intros i mi Hi Hmi. cbn in Hmi. rewrite M1 in Hmi. eauto. }
    exists k1, k3. eexists. split; [exact Hmv|].
    repeat split; try assumption; try exact H3.
    intros fc. unfold onExitAnchorFocus. rewrite L2. cbn.
    now rewrite orb_true_r.
Qed.

(** ** onKeydown *)

Lemma onKeydown_eq e k :
  onKeydown e k =
    let k0 := set_exiting (Some false) (set_keyboardReset (Some false) k) in
    match module_at (modules k) (currentModuleIx k) with
    | Some m =>
        let code := fst (Handler.run m e (world (chart k))) in
        let k1 :=
          record (CallRun (currentModuleIx k) code)
            (set_world (snd (Handler.run m e (world (chart k)))) k0) in
        if code =? Response.success (Handler.response m) then
          Returns (suppress k1)
        else if code =? Response.prev (Handler.response m) then
          match move (enough k) (-1) k1 with
          | Returns (b, k2) => Returns (if b then suppress k2 else k2)
          | ThrowsTypeError => ThrowsTypeError
          | OutOfFuel => OutOfFuel
          end
        else if code =? Response.next (Handler.response m) then
          match move (enough k) 1 k1 with
          | Returns (b, k2) => Returns (if b then suppress k2 else k2)
          | ThrowsTypeError => ThrowsTypeError
          | OutOfFuel => OutOfFuel
          end
        else Returns k1
    | None => Returns k0
    end.
Proof.
  unfold onKeydown. cbv zeta.
  assert (E : match modules k with
              | [] => None
              | _ :: _ => module_at (modules k) (currentModuleIx k)
              end = module_at (modules k) (currentModuleIx k)).
  { destruct (modules k) eqn:Ek; [|reflexivity].
    unfold module_at. destruct (currentModuleIx k <? 0); [reflexivity|].
    now destruct (Z.to_nat (currentModuleIx k)). }
  rewrite E.
  destruct (module_at (modules k) (currentModuleIx k)) as [m|]; [|reflexivity].
  change (world (chart (set_exiting (Some false)
                          (set_keyboardReset (Some false) k))))
    with (world (chart k)).
  destruct (Handler.run m e (world (chart k))) as [code w].
  reflexivity.
Qed.

(** C4: [onKeydown] runs the module at the current index and reads its
    answer against that module's own codes (taken to be distinct).
    Success: the default is prevented and propagation stopped, and the
    index stays. Prev and next: [move] is called with -1 and +1, and the
    default is prevented exactly when [move] answers true. Any other
    code, and no module at the index: nothing is prevented, the state
    keeps its index, and the call returns. *)
Theorem onKeydown_interprets_response :
  forall e k,
    let k0 := set_exiting (Some false) (set_keyboardReset (Some false) k) in
    (module_at (modules k) (currentModuleIx k) = None ->
     onKeydown e k = Returns k0) /\
    (forall m,
       module_at (modules k) (currentModuleIx k) = Some m ->
       let r := Handler.response m in
       Response.success r <> Response.prev r ->
       Response.success r <> Response.next r ->
       Response.prev r <> Response.next r ->
       let code := fst (Handler.run m e (world (chart k))) in
       let k1 :=
         record (CallRun (currentModuleIx k) code)
           (set_world (snd (Handler.run m e (world (chart k)))) k0) in
       (code = Response.success r ->
        exists k',
          onKeydown e k = Returns k' /\
          currentModuleIx k' = currentModuleIx k /\
          trace k' =
            StopPropagation :: PreventDefault ::
            CallRun (currentModuleIx k) code :: trace k) /\
       (forall d,
          (d = -1 /\ code = Response.prev r) \/
          (d = 1 /\ code = Response.next r) ->
          onKeydown e k =
            match move (enough k) d k1 with
            | Returns (b, k2) => Returns (if b then suppress k2 else k2)
            | ThrowsTypeError => ThrowsTypeError
            | OutOfFuel => OutOfFuel
            end /\
          ((d = 1 -> exitAnchor k <> None) ->
           exists b k2 delta k',
             move (enough k) d k1 = Returns (b, k2) /\
             trace k2 = delta ++ trace k1 /\
             ~ In PreventDefault delta /\
             onKeydown e k = Returns k' /\
             currentModuleIx k' = currentModuleIx k2 /\
             trace k' =
               (if b then [StopPropagation; PreventDefault] else []) ++
               delta ++ CallRun (currentModuleIx k) code :: trace k)) /\
       (code <> Response.success r -> code <> Response.prev r ->
        code <> Response.next r ->
        onKeydown e k = Returns k1 /\
        currentModuleIx k1 = currentModuleIx k /\
        trace k1 = CallRun (currentModuleIx k) code :: trace k)).
Proof.
  intros e k k0. split.
  - intros Hn. rewrite onKeydown_eq, Hn. reflexivity.
  - intros m Hm r Hsp Hsn Hpn code k1.
    pose proof (onKeydown_eq e k) as Hk. cbv zeta in Hk. rewrite Hm in Hk.
    fold r code k0 in Hk. fold k1 in Hk.
    split; [|split].
    + intros Hc. rewrite Hk. apply Z.eqb_eq in Hc. rewrite Hc.
      eexists. split; [reflexivity|]. split; reflexivity.
    + intros d Hd.
      assert (Hk' : onKeydown e k =
                    match move (enough k) d k1 with
                    | Returns (b, k2) =>
                        Returns (if b then suppress k2 else k2)
                    | ThrowsTypeError => ThrowsTypeError
                    | OutOfFuel => OutOfFuel
                    end).
      { rewrite Hk. destruct Hd as [[-> Hc] | [-> Hc]]; rewrite Hc.
        - destruct (Z.eqb_spec (Response.prev r) (Response.success r));
            [congruence|].
          now rewrite Z.eqb_refl.
        - destruct (Z.eqb_spec (Response.next r) (Response.success r));
            [congruence|].
          destruct (Z.eqb_spec (Response.next r) (Response.prev r));
            [congruence|].
          now rewrite Z.eqb_refl. }
      split; [exact Hk'|].
      intros Ha.
      assert (Hd' : d = 1 \/ d = -1) by (destruct Hd as [[-> _] | [-> _]]; auto).
      destruct (move_spec (enough k) d k1 Hd' Ha (enough_room d k1))
        as [b [k2 [Hmv [_ [delta [Ht [Hf _]]]]]]].
      change (enough k1) with (enough k) in Hmv.
      exists b, k2, delta. eexists.
      split; [exact Hmv|]. split; [exact Ht|].
      split.
      { intros Hin. rewrite forallb_forall in Hf.
        apply Hf in Hin. discriminate. }
      rewrite Hk', Hmv. split; [reflexivity|].
      destruct b; split; try reflexivity; cbn; rewrite Ht; reflexivity.
    + intros H1 H2 H3. rewrite Hk.
      apply Z.eqb_neq in H1, H2, H3. rewrite H1, H2, H3.
      split; [reflexivity|]. split; reflexivity.
Qed.

(** ** onMouseUp *)

(** C8: a pointer-up while the pointer is not over the chart and the
    state is not reset calls [terminate] on the current module when it
    has one, removes the focus border when there is a focus element,
    sets [currentModuleIx] to 0 and [keyboardReset] to true; after
    that, pointer-ups change nothing, however many. *)
Theorem outside_pointer_up_resets_once :
  forall k,
    truthy (keyboardReset k) = false ->
    truthy (pointerIsOverChart k) = false ->
    let k' := onMouseUp k in
    let w := world_terminated None k in
    currentModuleIx k' = 0 /\
    keyboardReset k' = Some true /\
    trace k' =
      (if hasFocusElement w then [RemoveFocusBorder] else []) ++
      terminate_effect None k ++ trace k /\
    world (chart k') = (if hasFocusElement w then removeFocusBorder w else w) /\
    onMouseUp k' = k' /\
    forall n, Nat.iter n onMouseUp k' = k'.
Proof.
  intros k Hr Hp k' w.
  assert (Hk : k' =
               set_keyboardReset (Some true)
                 (set_currentModuleIx 0
                    (clearFocusBorder
                       (terminateCurrent None (set_isClickingChart None k))))).
  { unfold k'. rewrite onMouseUp_eq. cbv zeta. now rewrite Hr, Hp. }
  assert (Hidem : onMouseUp k' = k').
  { rewrite onMouseUp_eq. cbv zeta. rewrite Hk.
    cbn [keyboardReset set_keyboardReset truthy negb andb].
    set (k0 := set_isClickingChart None k).
    destruct (terminateCurrent_facts None k0) as [S1 _].
    destruct (clearFocusBorder_facts (terminateCurrent None k0)) as [S2 _].
    assert (Hc : isClickingChart (clearFocusBorder (terminateCurrent None k0))
                 = None)
      by (transitivity (isClickingChart (terminateCurrent None k0));
          [apply S2 | apply S1]).
    unfold set_isClickingChart at 1, set_keyboardReset, set_currentModuleIx.
    cbn. rewrite Hc. reflexivity. }
  split; [rewrite Hk; reflexivity|].
  split; [rewrite Hk; reflexivity|].
  split; [|split; [|split; [exact Hidem|]]].
  - rewrite Hk. unfold w, world_terminated, terminate_effect.
    unfold terminateCurrent, clearFocusBorder, call_terminate.
    cbn [modules currentModuleIx set_isClickingChart].
    destruct (module_at (modules k) (currentModuleIx k)) as [m|];
      [destruct (Handler.terminate m) as [f|]|];
      cbn; destruct (hasFocusElement _); reflexivity.
  - rewrite Hk. unfold w, world_terminated.
    unfold terminateCurrent, clearFocusBorder, call_terminate.
    cbn [modules currentModuleIx set_isClickingChart].
    destruct (module_at (modules k) (currentModuleIx k)) as [m|];
      [destruct (Handler.terminate m) as [f|]|];
      cbn; destruct (hasFocusElement _); reflexivity.
  - induction n as [|n IH]; [reflexivity|].
    change (onMouseUp (Nat.iter n onMouseUp k') = k').
    rewrite IH. exact Hidem.
Qed.

(** ** destroy *)

(** C9: [destroy] is idempotent: a second call returns the state of the
    first. After the first call, and so after the second, the event
    provider holds no subscription and the exit anchor is out of the
    document. [destroy] is a total function of the state: the anchor is
    tested before it is removed, releasing the subscriptions of an
    empty provider and removing an attribute that is not there do
    nothing. *)
Theorem destroy_idempotent :
  forall k,
    let k1 := destroy k in
    let k2 := destroy k1 in
    k2 = k1 /\
    EventProvider.eventRemovers (eventProvider k1) = [] /\
    EventProvider.eventRemovers (eventProvider k2) = [] /\
    exit_anchor_removed k1 /\ exit_anchor_removed k2.
Proof.
  intros k k1 k2.
  assert (H1 : EventProvider.eventRemovers (eventProvider k1) = [])
    by reflexivity.
  assert (H2 : exit_anchor_removed k1).
  { unfold k1, destroy, removeExitAnchor, exit_anchor_removed.
    destruct (exitAnchor k) as [a|] eqn:Ea; cbn.
    - destruct (parentNode a) eqn:Ep; cbn; [exact I|].
      now rewrite Ea.
    - now rewrite Ea. }
  assert (H3 : k2 = k1).
  { unfold k2, k1, destroy, removeExitAnchor.
    destruct (exitAnchor k) as [a|] eqn:Ea; cbn.
    - destruct (parentNode a) eqn:Ep; cbn; [reflexivity|].
      rewrite Ea, Ep. reflexivity.
    - rewrite Ea. reflexivity. }
  rewrite H3. auto.
Qed.

(** ** onFocus *)

Lemma onFocus_index fc k k1 :
  onFocus fc k = Returns k1 -> currentModuleIx k1 = currentModuleIx k.
Proof.
  unfold onFocus.
  destruct (_ && _); [|intros H; injection H as <-; reflexivity].
  destruct (module_at (modules k) 0) as [m|];
    [|intros H; injection H as <-; reflexivity].
  destruct (Handler.init m); [|discriminate].
  intros H; injection H as <-; reflexivity.
Qed.

Lemma move_no_run d delta :
  forallb (move_effect d) delta = true ->
  forall i c, ~ In (CallRun i c) delta.
Proof.
  intros Hf i c Hin. rewrite forallb_forall in Hf.
  apply Hf in Hin. discriminate.
Qed.

(** C10: [onFocus] never writes [currentModuleIx]. So when focus comes
    in from outside while the index is not 0, module 0 is initialized
    with direction 1, the index stays, and the next key-down runs the
    module at that index: the one [run] recorded is at the old index,
    none is at another. *)
Theorem focus_entry_keeps_stale_index :
  forall k m0 f0 m e,
    truthy (exiting k) = false ->
    truthy (tabbingInBackwards k) = false ->
    truthy (isClickingChart k) = false ->
    module_at (modules k) 0 = Some m0 -> Handler.init m0 = Some f0 ->
    currentModuleIx k <> 0 ->
    module_at (modules k) (currentModuleIx k) = Some m ->
    exitAnchor k <> None ->
    (forall fc k1,
       onFocus fc k = Returns k1 -> currentModuleIx k1 = currentModuleIx k) /\
    exists k1,
      onFocus false k = Returns k1 /\
      currentModuleIx k1 = currentModuleIx k /\
      trace k1 = CallInit 0 1 :: trace k /\
      exists k2 delta,
        onKeydown e k1 = Returns k2 /\
        trace k2 =
          delta ++
          CallRun (currentModuleIx k)
            (fst (Handler.run m e (world (chart k1)))) :: trace k1 /\
        forall i c, ~ In (CallRun i c) delta.
Proof.
  intros k m0 f0 m e He Ht Hc Hm0 Hf0 Hix Hm Ha.
  split; [intros fc k1; apply onFocus_index|].
  exists (set_exiting (Some false) (call_init 0 1 f0 k)).
  set (k1 := set_exiting (Some false) (call_init 0 1 f0 k)).
  split.
  { unfold onFocus. rewrite He, Ht, Hc, Hm0, Hf0. reflexivity. }
  split; [reflexivity|]. split; [reflexivity|].
  pose proof (onKeydown_eq e k1) as Hk. cbv zeta in Hk.
  change (modules k1) with (modules k) in Hk.
  change (currentModuleIx k1) with (currentModuleIx k) in Hk.
  rewrite Hm in Hk. rewrite Hk. clear Hk.
  set (code := fst (Handler.run m e (world (chart k1)))).
  set (k1' := record (CallRun (currentModuleIx k) code) _).
  assert (Hmove : forall d, d = 1 \/ d = -1 ->
            exists k2 delta,
              match move (enough k1) d k1' with
              | Returns (b, k3) => Returns (if b then suppress k3 else k3)
              | ThrowsTypeError => ThrowsTypeError
              | OutOfFuel => OutOfFuel
              end = Returns k2 /\
              trace k2 = delta ++ trace k1' /\
              forall i c, ~ In (CallRun i c) delta).
  { intros d Hd.
    destruct (move_spec (enough k1') d k1' Hd (fun _ => Ha) (enough_room d k1'))
      as [b [k3 [Hmv [_ [delta [Htr [Hf _]]]]]]].
    change (enough k1') with (enough k1) in Hmv. rewrite Hmv.
    pose proof (move_no_run d delta Hf) as Hno.
    destruct b.
    - exists (suppress k3), ([StopPropagation; PreventDefault] ++ delta).
      split; [reflexivity|]. split; [cbn; now rewrite Htr|].
      intros i c [Hin | [Hin | Hin]]; try discriminate. now apply Hno in Hin.
    - exists k3, delta. auto. }
  destruct (code =? _).
  { exists (suppress k1'), [StopPropagation; PreventDefault].
    split; [reflexivity|]. split; [reflexivity|].
    intros i c [Hin | [Hin | []]]; discriminate. }
  destruct (code =? _); [apply Hmove; now right|].
  destruct (code =? _); [apply Hmove; now left|].
  exists k1', []. split; [reflexivity|]. split; [reflexivity|].
  intros i c [].
Qed.

(** ** update *)

Lemma fold_concat {A B : Type} (f : A -> list B) (l : list A) (acc : list B) :
  fold_left (fun xs x => xs ++ f x) l acc = acc ++ flat_map f l.
Proof.
  revert acc. induction l as [|x l IH]; intros acc; cbn.
  - now rewrite app_nil_r.
  - rewrite IH. now rewrite app_assoc.
Qed.

Lemma updateContainerTabindex_keeps k :
  keyboardNavigationOptions (chart (updateContainerTabindex k))
    = keyboardNavigationOptions (chart k) /\
  modules (updateContainerTabindex k) = modules k /\
  components (updateContainerTabindex k) = components k /\
  currentModuleIx (updateContainerTabindex k) = currentModuleIx k /\
  exitAnchor (updateContainerTabindex k) = exitAnchor k.
Proof.
  unfold updateContainerTabindex.
  destruct (renderToTabindex (chart k)); cbv zeta beta iota;
    destruct (negb _ && negb _); try (repeat split; fail);
    destruct (negb (negb _)); repeat split.
Qed.

Lemma removeExitAnchor_keeps k :
  modules (removeExitAnchor k) = modules k /\
  currentModuleIx (removeExitAnchor k) = currentModuleIx k /\
  exit_anchor_removed (removeExitAnchor k).
Proof.
  unfold removeExitAnchor, exit_anchor_removed.
  destruct (exitAnchor k) as [a|] eqn:Ea.
  - destruct (parentNode a) eqn:Ep; cbn; [repeat split|].
    rewrite Ea. repeat split. exact Ep.
  - rewrite Ea. repeat split.
Qed.

Lemma updateExitAnchor_keeps k :
  modules (updateExitAnchor k) = modules k /\
  currentModuleIx (updateExitAnchor k) = currentModuleIx k /\
  exitAnchor (updateExitAnchor k) <> None.
Proof.
  destruct (removeExitAnchor_keeps k) as [M [I _]].
  unfold updateExitAnchor. cbv zeta.
  destruct (endMarkerInDocument (chart k)).
  - unfold makeElementAnExitAnchor. cbv zeta.
    cbn [modules currentModuleIx exitAnchor set_exitAnchor
         addExitAnchorEventsToEl set_eventProvider].
    repeat split; try assumption. discriminate.
  - unfold createExitAnchor, makeElementAnExitAnchor. cbv zeta.
    cbn [modules currentModuleIx exitAnchor set_exitAnchor
         addExitAnchorEventsToEl set_eventProvider].
    repeat split; try assumption. discriminate.
Qed.

(** C2 (as amended): [update] resets [currentModuleIx] to 0 only when it
    empties the sequence - keyboard navigation disabled or no order -
    and then the exit anchor is out of the document. With keyboard
    navigation enabled and a non-empty order it installs the modules of
    the components in that order and the exit anchor, and leaves
    [currentModuleIx] as it was. *)
Theorem update_resets_index_when_emptied :
  forall order k,
    let k' := update order k in
    if navigationEnabled k && nonEmptyOrder order then
      currentModuleIx k' = currentModuleIx k /\
      modules k' =
        flat_map (components k) (match order with Some o => o | None => [] end) /\
      exitAnchor k' <> None
    else
      currentModuleIx k' = 0 /\ modules k' = [] /\ exit_anchor_removed k'.
Proof.
  intros order k k'. unfold k', update. cbv zeta.
  destruct (updateContainerTabindex_keeps k) as [O [M [C [I _]]]].
  assert (N : navigationEnabled (updateContainerTabindex k)
              = navigationEnabled k)
    by (unfold navigationEnabled; now rewrite O).
  rewrite N.
  destruct (navigationEnabled k && nonEmptyOrder order).
  - match goal with
    | |- context [updateExitAnchor ?x] =>
        destruct (updateExitAnchor_keeps x) as [M' [I' A']]
    end.
    split; [rewrite I'; exact I|].
    split; [|exact A'].
    rewrite M'. cbn [modules set_modules]. rewrite fold_concat, C.
    reflexivity.
  - match goal with
    | |- context [removeExitAnchor ?x] =>
        destruct (removeExitAnchor_keeps x) as [M' [I' A']]
    end.
    split; [rewrite I'; reflexivity|].
    split; [rewrite M'; reflexivity | exact A'].
Qed.

(** ** Reading a concrete sequence *)

Lemma module_at_cons m ms ix :
  module_at (m :: ms) ix =
    if ix =? 0 then Some m else module_at ms (ix - 1).
Proof.
  unfold module_at.
  destruct (Z.ltb_spec ix 0) as [Hlt | Hge].
  - destruct (Z.eqb_spec ix 0); [lia|].
    destruct (Z.ltb_spec (ix - 1) 0); [reflexivity | lia].
  - destruct (Z.eqb_spec ix 0) as [-> | Hne]; [reflexivity|].
    destruct (Z.ltb_spec (ix - 1) 0); [lia|].
    replace (Z.to_nat ix) with (S (Z.to_nat (ix - 1))) by lia.
    reflexivity.
Qed.

Lemma module_at_nil ix : module_at (@nil Module_) ix = None.
Proof.
  unfold module_at. destruct (ix <? 0); [reflexivity|].
  now destruct (Z.to_nat ix).
Qed.

(** * Further properties of the class *)

(** ** move, whatever the direction *)

Lemma leaveChart_any d k b k' :
  leaveChart d k = Returns (b, k') ->
  b = false /\ same_setup k k' /\
  currentModuleIx k' = 0 /\ exiting k' = Some true /\
  trace k' =
    (if d >? 0 then FocusExitAnchor else FocusTabindexContainer) :: trace k.
Proof.
  unfold leaveChart. cbv zeta.
  destruct (d >? 0).
  - destruct (exitAnchor _); [|discriminate].
    intros H; injection H as <- <-. repeat split.
  - intros H; injection H as <- <-. repeat split.
Qed.

Lemma move_any fuel : forall d k b k',
  move fuel d k = Returns (b, k') ->
  same_setup k k' /\
  if b then
    module_at (modules k) (currentModuleIx k') <> None /\
    exiting k' = exiting k
  else currentModuleIx k' = 0 /\ exiting k' = Some true.
Proof.
  induction fuel as [|fuel IH]; intros d k b k' Hm; [discriminate|].
  rewrite move_unfold in Hm. cbv zeta in Hm.
  pose proof (depart_setup d k) as S1.
  pose proof (depart_exiting d k) as E1.
  assert (M1 : modules (depart d k) = modules k) by apply S1.
  destruct (module_at (modules (depart d k)) (currentModuleIx (depart d k)))
    as [m|] eqn:Em.
  - pose proof (call_invalid_setup (currentModuleIx (depart d k)) m (depart d k))
      as S2.
    pose proof (call_invalid_index (currentModuleIx (depart d k)) m (depart d k))
      as I2.
    pose proof (call_invalid_exiting (currentModuleIx (depart d k)) m (depart d k))
      as E2.
    set (k2 := snd (call_invalid (currentModuleIx (depart d k)) m (depart d k)))
      in *.
    assert (M2 : modules k2 = modules k)
      by (transitivity (modules (depart d k)); [apply S2 | exact M1]).
    destruct (fst _).
    + apply IH in Hm. destruct Hm as [S3 Hb].
      split.
      { eapply same_setup_trans; [exact S1|].
        eapply same_setup_trans; [exact S2 | exact S3]. }
      destruct b.
      * rewrite M2 in Hb. destruct Hb as [Hb1 Hb2].
        split; [exact Hb1|]. now rewrite Hb2, E2, E1.
      * exact Hb.
    + destruct (Handler.init m) as [f|].
      * injection Hm as <- <-.
        destruct (call_init_facts (currentModuleIx k2) d f k2)
          as [S3 [I3 [E3 _]]].
        split.
        { eapply same_setup_trans; [exact S1|].
          eapply same_setup_trans; [exact S2 | exact S3]. }
        split; [rewrite I3, I2, <- M1, Em; discriminate|].
        now rewrite E3, E2, E1.
      * apply leaveChart_any in Hm. destruct Hm as [-> [S3 [I3 [E3 _]]]].
        split; [|split; assumption].
        eapply same_setup_trans; [exact S1|].
        eapply same_setup_trans; [exact S2 | exact S3].
  - apply leaveChart_any in Hm. destruct Hm as [-> [S3 [I3 [E3 _]]]].
    split; [|split; assumption].
    eapply same_setup_trans; [exact S1 | exact S3].
Qed.

Lemma module_index_ok k k' :
  modules k' = modules k ->
  module_at (modules k) (currentModuleIx k') <> None -> index_ok k'.
Proof.
  intros M H. right. rewrite M.
  destruct (module_at (modules k) (currentModuleIx k')) as [m|] eqn:E;
    [|now elim H].
  exact (module_at_Some _ _ _ E).
Qed.

Lemma move_settled fuel d k b k' :
  move fuel d k = Returns (b, k') -> settled k k'.
Proof.
  intros Hm. apply move_any in Hm. destruct Hm as [S Hb].
  split; [apply S|]. split; [apply S|]. right.
  destruct b.
  - apply (module_index_ok k); [apply S | apply Hb].
  - left. apply Hb.
Qed.

Lemma settled_refl k : settled k k.
Proof. split; [reflexivity|]. split; [reflexivity | now left]. Qed.

Lemma settled_trans k1 k2 k3 :
  settled k1 k2 -> settled k2 k3 -> settled k1 k3.
Proof.
  intros [M1 [A1 I1]] [M2 [A2 I2]].
  split; [congruence|]. split; [congruence|].
  destruct I2 as [I2 | I2]; [|now right].
  destruct I1 as [I1 | I1]; [left; congruence|].
  right. unfold index_ok in *. rewrite M2, I2. exact I1.
Qed.

Ltac settled_same :=
  split; [reflexivity | split; [reflexivity | now left]].

Lemma onFocus_settled fc k k' : onFocus fc k = Returns k' -> settled k k'.
Proof.
  unfold onFocus.
  destruct (_ && _); [|intros H; injection H as <-; settled_same].
  destruct (module_at (modules k) 0) as [m|];
    [|intros H; injection H as <-; settled_same].
  destruct (Handler.init m); [|discriminate].
  intros H; injection H as <-. split; [reflexivity|].
  split; [reflexivity | now left].
Qed.

Lemma onMouseUp_settled k : settled k (onMouseUp k).
Proof.
  rewrite onMouseUp_eq. cbv zeta.
  destruct (_ && _); [|settled_same].
  set (k0 := set_isClickingChart None k).
  destruct (terminateCurrent_facts None k0) as [S1 _].
  destruct (clearFocusBorder_facts (terminateCurrent None k0)) as [S2 _].
  split.
  { transitivity (modules (terminateCurrent None k0)); [apply S2 | apply S1]. }
  split.
  { transitivity (exitAnchor (terminateCurrent None k0)); [apply S2 | apply S1]. }
  right. now left.
Qed.

Lemma onKeydown_settled e k k' : onKeydown e k = Returns k' -> settled k k'.
Proof.
  rewrite onKeydown_eq. cbv zeta.
  destruct (module_at (modules k) (currentModuleIx k)) as [m|];
    [|intros H; injection H as <-; settled_same].
  set (k1 := record _ _).
  assert (S1 : settled k k1) by settled_same.
  assert (Hs : forall d,
             match move (enough k) d k1 with
             | Returns (b, k2) => Returns (if b then suppress k2 else k2)
             | ThrowsTypeError => ThrowsTypeError
             | OutOfFuel => OutOfFuel
             end = Returns k' -> settled k k').
  { intros d. destruct (move _ _ _) as [[b k2]| |] eqn:Em; try discriminate.
    intros H. injection H as <-.
    apply move_settled in Em.
    apply (settled_trans k k1); [exact S1|].
    destruct b; exact Em. }
  destruct (_ =? _); [intros H; injection H as <-; exact S1|].
  destruct (_ =? _); [apply Hs|].
  destruct (_ =? _); [apply Hs|].
  intros H; injection H as <-; exact S1.
Qed.

Lemma onExitAnchorFocus_settled fc k k' :
  onExitAnchorFocus fc k = Returns k' -> settled k k'.
Proof.
  destruct fc.
  { unfold onExitAnchorFocus. cbn [orb negb].
    intros H; injection H as <-; settled_same. }
  destruct (truthy (exiting k)) eqn:He.
  { unfold onExitAnchorFocus. rewrite He. cbn [orb negb].
    intros H; injection H as <-; settled_same. }
  destruct (modules k) as [|m0 ms0] eqn:Ek.
  { unfold onExitAnchorFocus. rewrite He. cbn [orb negb]. cbv zeta.
    cbn [modules set_tabbingInBackwards record]. rewrite Ek.
    intros H; injection H as <-. split; [reflexivity|].
    split; [reflexivity | now left]. }
  assert (Hne : modules k <> []) by (rewrite Ek; discriminate).
  rewrite (onExitAnchorFocus_backwards k He Hne). cbv zeta.
  destruct (enterBackwards_facts k) as [S1 [I1 _]].
  assert (M1 : modules (enterBackwards k) = modules k) by apply S1.
  assert (A1 : exitAnchor (enterBackwards k) = exitAnchor k) by apply S1.
  assert (O1 : index_ok (enterBackwards k)).
  { right. rewrite I1, M1, Ek. cbn [List.length]. lia. }
  destruct (module_at (modules (enterBackwards k))
              (currentModuleIx (enterBackwards k))) as [cur|].
  - pose proof (call_invalid_setup (currentModuleIx (enterBackwards k)) cur
                  (enterBackwards k)) as S2.
    pose proof (call_invalid_index (currentModuleIx (enterBackwards k)) cur
                  (enterBackwards k)) as I2.
    set (k2 := snd (call_invalid (currentModuleIx (enterBackwards k)) cur
                      (enterBackwards k))) in *.
    assert (S12 : settled k k2).
    { split; [transitivity (modules (enterBackwards k)); [apply S2 | exact M1]|].
      split; [transitivity (exitAnchor (enterBackwards k)); [apply S2 | exact A1]|].
      right. unfold index_ok in *.
      assert (M2 : modules k2 = modules (enterBackwards k)) by apply S2.
      rewrite I2, M2. exact O1. }
    destruct (fst _).
    + unfold prev. destruct (move _ _ _) as [[b k3]| |] eqn:Em; try discriminate.
      cbn [drop_result]. intros H; injection H as <-.
      apply (settled_trans k k2); [exact S12 | eapply move_settled; eauto].
    + destruct (Handler.init cur); [|discriminate].
      intros H; injection H as <-.
      apply (settled_trans k k2); [exact S12|].
      split; [reflexivity|]. split; [reflexivity | now left].
  - intros H; injection H as <-.
    split; [exact M1|]. split; [exact A1 | now right].
Qed.

Lemma step_settled i k k' :
  keeps_modules i = true -> step i k = Returns k' -> settled k k'.
Proof.
  destruct i; cbn [keeps_modules step]; intros Hi Hs; try discriminate Hi.
  - eapply onFocus_settled; eauto.
  - eapply onKeydown_settled; eauto.
  - destruct (move _ _ _) as [[b k2]| |] eqn:Em; try discriminate.
    cbn [drop_result] in Hs. injection Hs as <-. eapply move_settled; eauto.
  - injection Hs as <-. apply onMouseUp_settled.
  - injection Hs as <-. settled_same.
  - injection Hs as <-. settled_same.
  - injection Hs as <-. settled_same.
  - eapply onExitAnchorFocus_settled; eauto.
Qed.

Lemma steps_settled inputs : forall k k',
  forallb keeps_modules inputs = true ->
  steps inputs k = Returns k' -> settled k k'.
Proof.
  induction inputs as [|i inputs IH]; intros k k' Hin Hs.
  - injection Hs as <-. apply settled_refl.
  - cbn [forallb] in Hin. apply andb_true_iff in Hin. destruct Hin as [Hi Hin].
    cbn [steps] in Hs.
    destruct (step i k) as [k1| |] eqn:E1; try discriminate.
    apply (settled_trans k k1); [eapply step_settled; eauto | eauto].
Qed.


(** ** Modules without [terminate]: the default made explicit *)

Lemma default_terminate_has m :
  Handler.terminate (default_terminate m) <> None.
Proof.
  unfold default_terminate.
  destruct (Handler.terminate m) eqn:E; [rewrite E | cbn]; discriminate.
Qed.

Lemma default_terminate_same m :
  Handler.validate (default_terminate m) = Handler.validate m /\
  Handler.init (default_terminate m) = Handler.init m /\
  Handler.run (default_terminate m) = Handler.run m /\
  Handler.response (default_terminate m) = Handler.response m.
Proof.
  unfold default_terminate. destruct (Handler.terminate m); repeat split.
Qed.

Lemma default_terminate_fixed m :
  Handler.terminate m <> None -> default_terminate m = m.
Proof.
  unfold default_terminate. destruct (Handler.terminate m); [reflexivity|].
  intros H. now elim H.
Qed.

Lemma module_at_map (f : Module_ -> Module_) ms ix :
  module_at (map f ms) ix = option_map f (module_at ms ix).
Proof.
  unfold module_at. destruct (ix <? 0); [reflexivity|]. apply nth_error_map.
Qed.

Lemma dressed_all_terminate k tr : all_terminate (dressed k tr).
Proof.
  intros m Hin. cbn in Hin. apply in_map_iff in Hin.
  destruct Hin as [m0 [<- _]]. apply default_terminate_has.
Qed.

Lemma dressed_active_is_current k tr :
  (forall i, is_active i tr = true ->
             i = currentModuleIx k /\ module_at (modules k) i <> None) ->
  active_is_current (dressed k tr).
Proof.
  intros H i Hi. destruct (H i Hi) as [-> Hm]. split; [reflexivity|].
  change (modules (dressed k tr)) with (map default_terminate (modules k)).
  rewrite module_at_map.
  destruct (module_at (modules k) (currentModuleIx k)); [discriminate|].
  now elim Hm.
Qed.

Lemma calls_made_cons ms e tr :
  call_made ms e = true -> calls_made ms (e :: tr) = e :: calls_made ms tr.
Proof. intros H. unfold calls_made. cbn [filter]. now rewrite H. Qed.

Lemma calls_made_app ms tr1 tr2 :
  calls_made ms (tr1 ++ tr2) = calls_made ms tr1 ++ calls_made ms tr2.
Proof. apply filter_app. Qed.

Lemma dressed_call_terminate ix dir m k tr :
  call_terminate ix dir (default_terminate m) (dressed k tr) =
    dressed (call_terminate ix dir m k) (CallTerminate ix dir :: tr).
Proof.
  unfold call_terminate, default_terminate.
  destruct (Handler.terminate m) as [f|] eqn:E.
  - rewrite E. reflexivity.
  - cbn [Handler.terminate].
    destruct k as [c cs i ep a ex cl kr ms p tc tb t]. destruct c.
    reflexivity.
Qed.

Lemma dressed_terminateCurrent dir k tr :
  exists delta,
    terminateCurrent dir (dressed k tr) =
      dressed (terminateCurrent dir k) (delta ++ tr) /\
    trace (terminateCurrent dir k) = calls_made (modules k) delta ++ trace k.
Proof.
  unfold terminateCurrent.
  change (modules (dressed k tr)) with (map default_terminate (modules k)).
  change (currentModuleIx (dressed k tr)) with (currentModuleIx k).
  rewrite module_at_map.
  destruct (module_at (modules k) (currentModuleIx k)) as [m|] eqn:Em;
    cbn [option_map].
  - exists [CallTerminate (currentModuleIx k) dir].
    split; [apply dressed_call_terminate|].
    destruct (call_terminate_facts (currentModuleIx k) dir m k)
      as [_ [_ [_ T]]].
    rewrite T. unfold calls_made. cbn [filter call_made]. rewrite Em.
    destruct (Handler.terminate m); reflexivity.
  - exists []. split; reflexivity.
Qed.

Lemma dressed_clearFocusBorder k tr :
  exists border,
    clearFocusBorder (dressed k tr) =
      dressed (clearFocusBorder k) (border ++ tr) /\
    trace (clearFocusBorder k) = border ++ trace k /\
    forall ms, calls_made ms border = border.
Proof.
  unfold clearFocusBorder.
  change (chart (dressed k tr)) with (chart k).
  destruct (hasFocusElement (world (chart k))).
  - exists [RemoveFocusBorder]. repeat split.
  - exists []. repeat split.
Qed.

Lemma dressed_depart d k tr :
  exists delta,
    depart d (dressed k tr) = dressed (depart d k) (delta ++ tr) /\
    trace (depart d k) = calls_made (modules k) delta ++ trace k.
Proof.
  rewrite !depart_eq.
  change (record (EnterMove d) (dressed k tr))
    with (dressed (record (EnterMove d) k) (EnterMove d :: tr)).
  change (currentModuleIx (dressed k tr)) with (currentModuleIx k).
  set (k0 := record (EnterMove d) k).
  destruct (dressed_terminateCurrent (Some d) k0 (EnterMove d :: tr))
    as [d1 [E1 T1]].
  rewrite E1.
  destruct (dressed_clearFocusBorder (terminateCurrent (Some d) k0)
              (d1 ++ EnterMove d :: tr)) as [d2 [E2 [T2 C2]]].
  rewrite E2.
  exists (d2 ++ d1 ++ [EnterMove d]). split.
  - trace_eq.
  - change (trace (clearFocusBorder (terminateCurrent (Some d) k0))
            = calls_made (modules k) (d2 ++ d1 ++ [EnterMove d]) ++ trace k).
    rewrite T2, T1. rewrite !calls_made_app, C2. trace_eq.
Qed.

Lemma dressed_call_invalid ix m k tr :
  exists delta,
    call_invalid ix (default_terminate m) (dressed k tr) =
      (fst (call_invalid ix m k),
       dressed (snd (call_invalid ix m k)) (delta ++ tr)) /\
    trace (snd (call_invalid ix m k)) = delta ++ trace k /\
    (forall ms, calls_made ms delta = delta) /\
    modules (snd (call_invalid ix m k)) = modules k.
Proof.
  unfold call_invalid.
  destruct (default_terminate_same m) as [Ev _]. rewrite Ev.
  destruct (Handler.validate m) as [v|].
  - exists [CallValidate ix (v (world (chart k)))]. repeat split.
  - exists []. repeat split.
Qed.

Lemma dressed_leaveChart d k tr b k' :
  leaveChart d k = Returns (b, k') ->
  exists e,
    leaveChart d (dressed k tr) = Returns (b, dressed k' (e :: tr)) /\
    trace k' = e :: trace k /\
    (forall ms, call_made ms e = true) /\
    modules k' = modules k.
Proof.
  unfold leaveChart. cbv zeta.
  change (exitAnchor (set_exiting (Some true)
                        (set_currentModuleIx 0 (dressed k tr))))
    with (exitAnchor k).
  change (exitAnchor (set_exiting (Some true) (set_currentModuleIx 0 k)))
    with (exitAnchor k).
  destruct (d >? 0).
  - destruct (exitAnchor k); [|discriminate].
    intros H; injection H as <- <-. exists FocusExitAnchor. repeat split.
  - intros H; injection H as <- <-. exists FocusTabindexContainer.
    repeat split.
Qed.

(** [move] on the sequence with the defaults does what it does on the
    sequence itself, and records the calls it makes there and those on
    the defaults. *)
Lemma dressed_move fuel : forall d k tr b k',
  move fuel d k = Returns (b, k') ->
  exists delta,
    move fuel d (dressed k tr) = Returns (b, dressed k' (delta ++ tr)) /\
    trace k' = calls_made (modules k) delta ++ trace k /\
    modules k' = modules k.
Proof.
  induction fuel as [|fuel IH]; intros d k tr b k' Hm; [discriminate|].
  rewrite move_unfold in Hm. rewrite move_unfold. cbv zeta in *.
  destruct (dressed_depart d k tr) as [d1 [E1 T1]]. rewrite E1.
  assert (M1 : modules (depart d k) = modules k) by apply depart_setup.
  set (k1 := depart d k) in *.
  change (modules (dressed k1 (d1 ++ tr)))
    with (map default_terminate (modules k1)).
  change (currentModuleIx (dressed k1 (d1 ++ tr))) with (currentModuleIx k1).
  rewrite module_at_map.
  destruct (module_at (modules k1) (currentModuleIx k1)) as [m|];
    cbn [option_map].
  - destruct (dressed_call_invalid (currentModuleIx k1) m k1 (d1 ++ tr))
      as [d2 [E2 [T2 [C2 M2]]]].
    rewrite E2. cbn [fst snd].
    set (k2 := snd (call_invalid (currentModuleIx k1) m k1)) in *.
    destruct (fst (call_invalid (currentModuleIx k1) m k1)).
    + destruct (IH d k2 (d2 ++ d1 ++ tr) b k' Hm) as [d3 [E3 [T3 M3]]].
      exists (d3 ++ d2 ++ d1). split; [|split].
      * rewrite E3. trace_eq.
      * rewrite T3, T2, T1, M2, M1, !calls_made_app, C2. trace_eq.
      * congruence.
    + destruct (default_terminate_same m) as [_ [Ei _]]. rewrite Ei.
      destruct (Handler.init m) as [f|].
      * injection Hm as <- <-.
        exists (CallInit (currentModuleIx k2) d :: d2 ++ d1). split; [|split].
        -- trace_eq.
        -- change (CallInit (currentModuleIx k2) d :: trace k2 =
                   calls_made (modules k)
                     (CallInit (currentModuleIx k2) d :: d2 ++ d1) ++ trace k).
           rewrite T2, T1.
           change (calls_made (modules k)
                     (CallInit (currentModuleIx k2) d :: d2 ++ d1))
             with (CallInit (currentModuleIx k2) d ::
                   calls_made (modules k) (d2 ++ d1)).
           rewrite calls_made_app, C2. trace_eq.
        -- change (modules k2 = modules k). congruence.
      * destruct (dressed_leaveChart d k2 (d2 ++ d1 ++ tr) b k' Hm)
          as [e [E3 [T3 [C3 M3]]]].
        exists (e :: d2 ++ d1). split; [|split].
        -- rewrite E3. trace_eq.
        -- rewrite (calls_made_cons _ e) by apply C3.
           rewrite T3, T2, T1, calls_made_app, C2. trace_eq.
        -- congruence.
  - destruct (dressed_leaveChart d k1 (d1 ++ tr) b k' Hm)
      as [e [E3 [T3 [C3 M3]]]].
    exists (e :: d1). split; [|split].
    + rewrite E3. reflexivity.
    + rewrite (calls_made_cons _ e) by apply C3.
      rewrite T3, T1. reflexivity.
    + congruence.
Qed.

Lemma enough_dressed k tr : enough (dressed k tr) = enough k.
Proof. unfold enough. cbn [modules dressed]. now rewrite length_map. Qed.

Lemma dressed_onMouseUp k tr :
  exists delta,
    onMouseUp (dressed k tr) = dressed (onMouseUp k) (delta ++ tr) /\
    trace (onMouseUp k) = calls_made (modules k) delta ++ trace k /\
    modules (onMouseUp k) = modules k.
Proof.
  rewrite !onMouseUp_eq. cbv zeta.
  change (keyboardReset (dressed k tr)) with (keyboardReset k).
  change (pointerIsOverChart (dressed k tr)) with (pointerIsOverChart k).
  change (set_isClickingChart None (dressed k tr))
    with (dressed (set_isClickingChart None k) tr).
  destruct (negb (truthy (keyboardReset k)) &&
            negb (truthy (pointerIsOverChart k))).
  - set (k0 := set_isClickingChart None k).
    destruct (dressed_terminateCurrent None k0 tr) as [d1 [E1 T1]].
    rewrite E1.
    destruct (dressed_clearFocusBorder (terminateCurrent None k0) (d1 ++ tr))
      as [d2 [E2 [T2 C2]]].
    rewrite E2.
    destruct (terminateCurrent_facts None k0) as [S1 _].
    destruct (clearFocusBorder_facts (terminateCurrent None k0)) as [S2 _].
    exists (d2 ++ d1). split; [|split].
    + trace_eq.
    + change (trace (clearFocusBorder (terminateCurrent None k0))
              = calls_made (modules k) (d2 ++ d1) ++ trace k).
      rewrite T2, T1, calls_made_app, C2. trace_eq.
    + change (modules (clearFocusBorder (terminateCurrent None k0))
              = modules k).
      transitivity (modules (terminateCurrent None k0));
        [apply S2 | apply S1].
  - exists []. repeat split.
Qed.

Lemma dressed_onKeydown e k tr k' :
  onKeydown e k = Returns k' ->
  exists delta,
    onKeydown e (dressed k tr) = Returns (dressed k' (delta ++ tr)) /\
    trace k' = calls_made (modules k) delta ++ trace k /\
    modules k' = modules k.
Proof.
  rewrite !onKeydown_eq. cbv zeta. rewrite enough_dressed.
  change (modules (dressed k tr)) with (map default_terminate (modules k)).
  change (currentModuleIx (dressed k tr)) with (currentModuleIx k).
  change (chart (dressed k tr)) with (chart k).
  rewrite module_at_map.
  destruct (module_at (modules k) (currentModuleIx k)) as [m|];
    cbn [option_map].
  2: { intros H; injection H as <-. exists []. repeat split. }
  destruct (default_terminate_same m) as [_ [_ [Er Ers]]]. rewrite Er, Ers.
  set (code := fst (Handler.run m e (world (chart k)))).
  set (w := snd (Handler.run m e (world (chart k)))).
  set (run := CallRun (currentModuleIx k) code).
  set (k1 := record run
               (set_world w
                  (set_exiting (Some false)
                     (set_keyboardReset (Some false) k)))).
  change (record run
            (set_world w
               (set_exiting (Some false)
                  (set_keyboardReset (Some false) (dressed k tr)))))
    with (dressed k1 (run :: tr)).
  assert (Hmv : forall d,
            match move (enough k) d k1 with
            | Returns (b, k2) => Returns (if b then suppress k2 else k2)
            | ThrowsTypeError => ThrowsTypeError
            | OutOfFuel => OutOfFuel
            end = Returns k' ->
            exists delta,
              match move (enough k) d (dressed k1 (run :: tr)) with
              | Returns (b, k2) => Returns (if b then suppress k2 else k2)
              | ThrowsTypeError => ThrowsTypeError
              | OutOfFuel => OutOfFuel
              end = Returns (dressed k' (delta ++ tr)) /\
              trace k' = calls_made (modules k) delta ++ trace k /\
              modules k' = modules k).
  { intros d.
    destruct (move (enough k) d k1) as [[b k2]| |] eqn:Em; try discriminate.
    intros H; injection H as <-.
    destruct (dressed_move _ _ _ (run :: tr) _ _ Em) as [d1 [E1 [T1 M1]]].
    rewrite E1. change (modules k1) with (modules k) in T1, M1.
    change (trace k1) with (run :: trace k) in T1.
    destruct b.
    - exists (StopPropagation :: PreventDefault :: d1 ++ [run]).
      split; [|split].
      + cbn [app]. trace_eq.
      + change (StopPropagation :: PreventDefault :: trace k2 =
                calls_made (modules k)
                  (StopPropagation :: PreventDefault :: d1 ++ [run])
                ++ trace k).
        rewrite T1.
        change (calls_made (modules k)
                  (StopPropagation :: PreventDefault :: d1 ++ [run]))
          with (StopPropagation :: PreventDefault ::
                calls_made (modules k) (d1 ++ [run])).
        rewrite calls_made_app. cbn [app]. trace_eq.
      + exact M1.
    - exists (d1 ++ [run]). split; [|split].
      + trace_eq.
      + rewrite T1, calls_made_app. trace_eq.
      + exact M1. }
  destruct (code =? _).
  { intros H; injection H as <-.
    exists [StopPropagation; PreventDefault; run]. repeat split. }
  destruct (code =? _); [apply Hmv|].
  destruct (code =? _); [apply Hmv|].
  intros H; injection H as <-. exists [run]. repeat split.
Qed.

Lemma dressed_step i k tr k' :
  internal i = true ->
  step i k = Returns k' ->
  exists delta,
    step i (dressed k tr) = Returns (dressed k' (delta ++ tr)) /\
    trace k' = calls_made (modules k) delta ++ trace k /\
    modules k' = modules k.
Proof.
  destruct i; cbn [internal step]; intros Hi Hs; try discriminate Hi.
  - now apply dressed_onKeydown.
  - rewrite enough_dressed.
    destruct (move (enough k) direction k) as [[b k2]| |] eqn:Em;
      try discriminate.
    cbn [drop_result] in Hs. injection Hs as <-.
    destruct (dressed_move _ _ _ tr _ _ Em) as [d1 [E1 H1]].
    exists d1. rewrite E1. split; [reflexivity | exact H1].
  - injection Hs as <-.
    destruct (dressed_onMouseUp k tr) as [d1 [E1 H1]].
    exists d1. rewrite E1. split; [reflexivity | exact H1].
  - injection Hs as <-. exists []. repeat split.
  - injection Hs as <-. exists []. repeat split.
  - injection Hs as <-. exists []. repeat split.
Qed.

Lemma dressed_steps inputs : forall k tr k',
  forallb internal inputs = true ->
  steps inputs k = Returns k' ->
  exists delta,
    steps inputs (dressed k tr) = Returns (dressed k' (delta ++ tr)) /\
    trace k' = calls_made (modules k) delta ++ trace k /\
    modules k' = modules k.
Proof.
  induction inputs as [|i inputs IH]; intros k tr k' Hin Hs.
  - injection Hs as <-. exists []. repeat split.
  - cbn [forallb] in Hin. apply andb_true_iff in Hin. destruct Hin as [Hi Hin].
    cbn [steps] in Hs |- *.
    destruct (step i k) as [k1| |] eqn:E1; try discriminate.
    destruct (dressed_step i k tr k1 Hi E1) as [d1 [F1 [T1 M1]]].
    rewrite F1.
    destruct (IH k1 (d1 ++ tr) k' Hin Hs) as [d2 [F2 [T2 M2]]].
    exists (d2 ++ d1). split; [|split].
    + rewrite F2. trace_eq.
    + rewrite T2, T1, M1, calls_made_app. trace_eq.
    + congruence.
Qed.

(** C5 (as amended): from a state in which no module but the current one
    is active, key-down, [move] by one and pointer inputs keep at most
    one module active, the current one. For a sequence whose modules all
    have [terminate] this is read off the calls as they are made. For any
    sequence it is read off the run in which a missing [terminate] is the
    call that does nothing: that run returns the same state, over the
    sequence with the defaults, and its trace is the trace of the calls
    made with the calls on the defaults added. *)
Theorem one_active_module_inside :
  forall inputs k k',
    active_is_current k ->
    forallb internal inputs = true ->
    steps inputs k = Returns k' ->
    (all_terminate k ->
     all_terminate k' /\ active_is_current k' /\
     at_most_one_active (trace k')) /\
    exists delta,
      steps inputs (with_defaults k) =
        Returns (dressed k' (delta ++ trace k)) /\
      trace k' = calls_made (modules k) delta ++ trace k /\
      active_is_current (dressed k' (delta ++ trace k)) /\
      at_most_one_active (delta ++ trace k).
Proof.
  intros inputs k k' Hcur Hin Hs. split.
  - intros Hall. eapply steps_keep_one_active; eauto.
  - destruct (dressed_steps inputs k (trace k) k' Hin Hs) as [delta [E [T _]]].
    exists delta. split; [exact E|]. split; [exact T|].
    assert (Hd : active_is_current (with_defaults k))
      by (apply dressed_active_is_current; exact Hcur).
    destruct (steps_keep_one_active inputs (with_defaults k) _
                (dressed_all_terminate k (trace k)) Hd Hin E) as [_ [H1 H2]].
    split; [exact H1 | exact H2].
Qed.

(** X1: between two rebuilds the handlers never change the module
    sequence and never touch the exit anchor, and the index stays 0 or an
    index of the sequence: from a state whose index is such, every state
    reached by inputs other than [update] - also [move] with any
    direction - has the same sequence and anchor and such an index. *)
Theorem index_stays_in_sequence :
  forall inputs k k',
    index_ok k ->
    forallb keeps_modules inputs = true ->
    steps inputs k = Returns k' ->
    modules k' = modules k /\ exitAnchor k' = exitAnchor k /\ index_ok k'.
Proof.
  intros inputs k k' Hk Hin Hs.
  destruct (steps_settled inputs k k' Hin Hs) as [M [A I]].
  split; [exact M|]. split; [exact A|].
  destruct I as [I | I]; [|exact I].
  unfold index_ok in *. rewrite M, I. exact Hk.
Qed.

(** ** The exit anchor of a sequence *)

Lemma update_trace order k : trace (update order k) = trace k.
Proof.
  assert (T1 : trace (updateContainerTabindex k) = trace k).
  { unfold updateContainerTabindex.
    destruct (renderToTabindex (chart k)); cbv zeta beta iota;
      destruct (negb _ && negb _); try reflexivity;
      destruct (negb (negb _)); reflexivity. }
  assert (T2 : forall x : K, trace (removeExitAnchor x) = trace x).
  { intros x. unfold removeExitAnchor.
    destruct (exitAnchor x) as [a|]; [|reflexivity].
    destruct (parentNode a); reflexivity. }
  unfold update. cbv zeta.
  destruct (_ && _).
  - unfold updateExitAnchor. cbv zeta.
    destruct (endMarkerInDocument _);
      unfold createExitAnchor, makeElementAnExitAnchor; cbv zeta;
      cbn [trace set_exitAnchor addExitAnchorEventsToEl set_eventProvider];
      rewrite T2; exact T1.
  - rewrite T2. exact T1.
Qed.

Lemma update_anchored order k : anchored (update order k).
Proof.
  unfold anchored, update. cbv zeta.
  destruct (_ && _).
  - intros _.
    match goal with
    | |- context [updateExitAnchor ?x] =>
        destruct (updateExitAnchor_keeps x) as [_ [_ A]]
    end.
    exact A.
  - match goal with
    | |- context [removeExitAnchor ?x] =>
        destruct (removeExitAnchor_keeps x) as [M _]
    end.
    rewrite M. intros H. now elim H.
Qed.

Lemma init_modules (c : Chart World) (cs : ComponentName -> list Module_) :
  modules (init c cs) = [] /\ currentModuleIx (init c cs) = 0.
Proof.
  unfold init. cbv zeta.
  cbn [modules currentModuleIx set_eventProvider].
  unfold update. cbv zeta.
  cbn [nonEmptyOrder]. rewrite andb_false_r.
  match goal with
  | |- context [removeExitAnchor ?x] =>
      destruct (removeExitAnchor_keeps x) as [M [I _]]
  end.
  rewrite M, I. split; reflexivity.
Qed.

Lemma steps_anchored inputs : forall k k',
  anchored k -> steps inputs k = Returns k' -> anchored k'.
Proof.
  induction inputs as [|i inputs IH]; intros k k' Hk Hs.
  - injection Hs as <-. exact Hk.
  - cbn [steps] in Hs.
    destruct (step i k) as [k1| |] eqn:E1; try discriminate.
    apply (IH k1 k'); [|exact Hs].
    destruct (keeps_modules i) eqn:Ei.
    + destruct (step_settled i k k1 Ei E1) as [M [A _]].
      unfold anchored. rewrite M, A. exact Hk.
    + destruct i; try discriminate Ei.
      cbn [step] in E1. injection E1 as <-. apply update_anchored.
Qed.

(** X2: in every state the class can reach from its constructor, a
    module sequence that is not empty has its exit anchor: [update]
    installs the anchor with the sequence, and no handler removes it. *)
Theorem reachable_sequence_has_exit_anchor :
  forall k, reachable k -> modules k <> [] -> exitAnchor k <> None.
Proof.
  intros k [c [cs [inputs Hs]]].
  apply (steps_anchored inputs (init c cs) k); [|exact Hs].
  intros H. destruct (init_modules c cs) as [M _]. now elim H.
Qed.

(** X3: in every state the class can reach from its constructor,
    [onKeydown] returns, whatever the event and whatever the module
    answers: it neither throws on a missing exit anchor nor runs out of
    depth in [move]. *)
Theorem reachable_keydown_returns :
  forall k e, reachable k -> exists k', onKeydown e k = Returns k'.
Proof.
  intros k e [c [cs [inputs Hs]]].
  assert (Hk : anchored k).
  { apply (steps_anchored inputs (init c cs) k); [|exact Hs].
    intros H. destruct (init_modules c cs) as [M _]. now elim H. }
  rewrite onKeydown_eq. cbv zeta.
  destruct (module_at (modules k) (currentModuleIx k)) as [m|] eqn:Em;
    [|eauto].
  assert (Ha : exitAnchor k <> None).
  { apply Hk. intros E. rewrite E, module_at_nil in Em. discriminate. }
  set (k1 := record _ _).
  assert (Hmv : forall d, d = 1 \/ d = -1 ->
            exists k',
              match move (enough k) d k1 with
              | Returns (b, k2) => Returns (if b then suppress k2 else k2)
              | ThrowsTypeError => ThrowsTypeError
              | OutOfFuel => OutOfFuel
              end = Returns k').
  { intros d Hd.
    destruct (move_spec (enough k1) d k1 Hd (fun _ => Ha) (enough_room d k1))
      as [b [k2 [Hm _]]].
    change (enough k1) with (enough k) in Hm. rewrite Hm. eauto. }
  destruct (_ =? _); [eauto|].
  destruct (_ =? _); [apply Hmv; now right|].
  destruct (_ =? _); [apply Hmv; now left|].
  eauto.
Qed.

(** ** More on move *)

Lemma depart_trace_effect d k :
  exists border,
    (border = [] \/ border = [RemoveFocusBorder]) /\
    trace (depart d k) =
      border ++ terminate_effect (Some d) k ++ EnterMove d :: trace k.
Proof. exact (depart_trace d k). Qed.

Lemma terminate_effect_In dir k m :
  module_at (modules k) (currentModuleIx k) = Some m ->
  Handler.terminate m <> None ->
  In (CallTerminate (currentModuleIx k) dir) (terminate_effect dir k).
Proof.
  intros Hm Ht. unfold terminate_effect. rewrite Hm.
  destruct (Handler.terminate m); [now left | now elim Ht].
Qed.

Lemma terminate_effect_quiet dir k i r :
  ~ In (CallValidate i r) (terminate_effect dir k).
Proof.
  unfold terminate_effect.
  destruct (module_at _ _) as [m|]; [destruct (Handler.terminate m)|];
    cbn; intuition discriminate.
Qed.

(** X4: [move] calls [terminate(direction)] not only on the module it
    starts from but on every module it finds invalid on the way, when
    they have [terminate] - modules that it never initialized. *)
Theorem move_terminates_the_modules_it_skips : forall fuel d k b k',
  move fuel d k = Returns (b, k') ->
  exists delta,
    trace k' = delta ++ trace k /\
    (forall m, module_at (modules k) (currentModuleIx k) = Some m ->
               Handler.terminate m <> None ->
               In (CallTerminate (currentModuleIx k) (Some d)) delta) /\
    (forall i m, In (CallValidate i false) delta ->
                 module_at (modules k) i = Some m ->
                 Handler.terminate m <> None ->
                 In (CallTerminate i (Some d)) delta).
Proof.
  induction fuel as [|fuel IH]; intros d k b k' Hm; [discriminate|].
  rewrite move_unfold in Hm. cbv zeta in Hm.
  destruct (depart_trace_effect d k) as [border [Hb T1]].
  assert (M1 : modules (depart d k) = modules k) by apply depart_setup.
  set (dl := border ++ terminate_effect (Some d) k ++ [EnterMove d]).
  assert (T1' : trace (depart d k) = dl ++ trace k).
  { rewrite T1. unfold dl. now rewrite <- !app_assoc. }
  assert (Hcur : forall m,
             module_at (modules k) (currentModuleIx k) = Some m ->
             Handler.terminate m <> None ->
             In (CallTerminate (currentModuleIx k) (Some d)) dl).
  { intros m H1 H2. unfold dl. apply in_or_app. right.
    apply in_or_app. left. now apply (terminate_effect_In _ _ m). }
  assert (Hq : forall i r, ~ In (CallValidate i r) dl).
  { intros i r Hin. unfold dl in Hin. apply in_app_or in Hin.
    destruct Hin as [Hin | Hin].
    - destruct Hb as [-> | ->]; cbn in Hin; intuition discriminate.
    - apply in_app_or in Hin. destruct Hin as [Hin | [Hin | []]];
        [now apply terminate_effect_quiet in Hin | discriminate]. }
  assert (Hleave : forall x delta0,
             trace x = delta0 ++ trace k ->
             (forall i, ~ In (CallValidate i false) delta0) ->
             (forall e, In e dl -> In e delta0) ->
             leaveChart d x = Returns (b, k') ->
             exists delta,
               trace k' = delta ++ trace k /\
               (forall m, module_at (modules k) (currentModuleIx k) = Some m ->
                          Handler.terminate m <> None ->
                          In (CallTerminate (currentModuleIx k) (Some d)) delta) /\
               (forall i m, In (CallValidate i false) delta ->
                            module_at (modules k) i = Some m ->
                            Handler.terminate m <> None ->
                            In (CallTerminate i (Some d)) delta)).
  { intros x delta0 Tx Qx Ix Hl.
    apply leaveChart_any in Hl. destruct Hl as [_ [_ [_ [_ Tl]]]].
    exists ((if d >? 0 then FocusExitAnchor else FocusTabindexContainer)
            :: delta0).
    split; [rewrite Tl, Tx; reflexivity|].
    split.
    - intros m H1 H2. right. apply Ix. now apply (Hcur m).
    - intros i m [Hin | Hin]; [destruct (d >? 0); discriminate|].
      now apply Qx in Hin. }
  destruct (module_at (modules (depart d k)) (currentModuleIx (depart d k)))
    as [m|] eqn:Em.
  - pose proof (call_invalid_setup (currentModuleIx (depart d k)) m (depart d k))
      as S2.
    pose proof (call_invalid_index (currentModuleIx (depart d k)) m (depart d k))
      as I2.
    destruct (call_invalid_delta (currentModuleIx (depart d k)) m (depart d k))
      as [vl [T2 V2]].
    set (k2 := snd (call_invalid (currentModuleIx (depart d k)) m (depart d k)))
      in *.
    assert (M2 : modules k2 = modules k)
      by (transitivity (modules (depart d k)); [apply S2 | exact M1]).
    destruct (fst _) eqn:Ei.
    + apply IH in Hm. destruct Hm as [delta' [T3 [C3 V3]]].
      exists (delta' ++ vl ++ dl).
      split; [rewrite T3, T2, T1'; now rewrite <- !app_assoc|].
      split.
      * intros m0 H1 H2. apply in_or_app. right. apply in_or_app. right.
        now apply (Hcur m0).
      * intros i mi Hin Hmi Hti. apply in_app_or in Hin.
        destruct Hin as [Hin | Hin].
        -- apply in_or_app. left. apply (V3 i mi); [exact Hin | | exact Hti].
           now rewrite M2.
        -- apply in_app_or in Hin. destruct Hin as [Hin | Hin];
             [|now apply Hq in Hin].
           destruct V2 as [-> | ->]; [destruct Hin|].
           destruct Hin as [Hin | []]. injection Hin as Hin.
           assert (Ek2 : i = currentModuleIx k2)
             by (rewrite I2; now symmetry).
           apply in_or_app. left. rewrite Ek2.
           apply (C3 mi); [|exact Hti].
           rewrite M2, <- Ek2. exact Hmi.
    + assert (Qv : forall i, ~ In (CallValidate i false) (vl ++ dl)).
      { intros i Hin. apply in_app_or in Hin.
        destruct Hin as [Hin | Hin]; [|now apply Hq in Hin].
        destruct V2 as [-> | ->]; [destruct Hin|].
        cbn in Hin. destruct Hin as [Hin | []]. discriminate. }
      assert (T2' : trace k2 = (vl ++ dl) ++ trace k)
        by (rewrite T2, T1'; now rewrite <- app_assoc).
      destruct (Handler.init m) as [f|].
      * injection Hm as <- <-.
        destruct (call_init_facts (currentModuleIx k2) d f k2) as [_ [_ [_ T3]]].
        exists (CallInit (currentModuleIx k2) d :: vl ++ dl).
        split; [rewrite T3, T2'; reflexivity|].
        split.
        -- intros m0 H1 H2. right. apply in_or_app. right. now apply (Hcur m0).
        -- intros i mi [Hin | Hin]; [discriminate | now apply Qv in Hin].
      * apply (Hleave k2 (vl ++ dl)); try assumption.
        intros e He. apply in_or_app. now right.
  - apply (Hleave (depart d k) dl); try assumption.
    + intros i. apply Hq.
    + auto.
Qed.

Lemma move_throws_without_anchor fuel : forall k,
  exitAnchor k = None ->
  (forall i m, ahead 1 (currentModuleIx k) i ->
               module_at (modules k) i = Some m -> always_invalid m) ->
  room 1 (currentModuleIx k) (Z.of_nat (List.length (modules k)))
    < Z.of_nat fuel ->
  move fuel 1 k = ThrowsTypeError.
Proof.
  induction fuel as [|fuel IH]; intros k Ha Hall Hroom.
  { pose proof (room_le_len 1 (currentModuleIx k)
                  (Z.of_nat (List.length (modules k)))). lia. }
  assert (Hd : 1 = 1 \/ 1 = -1) by now left.
  rewrite move_unfold. cbv zeta.
  pose proof (depart_setup 1 k) as S1.
  assert (M1 : modules (depart 1 k) = modules k) by apply S1.
  assert (A1 : exitAnchor (depart 1 k) = exitAnchor k) by apply S1.
  rewrite M1, depart_index.
  destruct (module_at (modules k) (currentModuleIx k + 1)) as [m|] eqn:Em.
  - rewrite (always_invalid_call _ m _ (Hall _ m (ahead_one 1 _ Hd) Em)).
    pose proof (call_invalid_setup (currentModuleIx k + 1) m (depart 1 k)) as S2.
    set (k2 := snd (call_invalid (currentModuleIx k + 1) m (depart 1 k))) in *.
    assert (M2 : modules k2 = modules k)
      by (transitivity (modules (depart 1 k)); [apply S2 | exact M1]).
    assert (I2 : currentModuleIx k2 = currentModuleIx k + 1)
      by (unfold k2; now rewrite call_invalid_index, depart_index).
    apply IH.
    + transitivity (exitAnchor (depart 1 k)); [apply S2|]. now rewrite A1.
    + intros i mi Hi Hmi. rewrite I2 in Hi. rewrite M2 in Hmi.
      apply (Hall i mi); [|exact Hmi].
      eapply ahead_trans; [exact Hd | apply ahead_one; exact Hd | exact Hi].
    + rewrite M2, I2, room_step;
        [lia | exact Hd | exact (module_at_Some _ _ _ Em)].
  - unfold leaveChart. cbv zeta. change (1 >? 0) with true. cbv iota.
    cbn [exitAnchor set_exiting set_currentModuleIx]. now rewrite A1, Ha.
Qed.

Lemma move_forward_without_anchor fuel : forall d k b k',
  exitAnchor k = None -> 0 < d ->
  move fuel d k = Returns (b, k') -> b = true.
Proof.
  induction fuel as [|fuel IH]; intros d k b k' Ha Hd Hm; [discriminate|].
  rewrite move_unfold in Hm. cbv zeta in Hm.
  pose proof (depart_setup d k) as S1.
  assert (A1 : exitAnchor (depart d k) = None)
    by (transitivity (exitAnchor k); [apply S1 | exact Ha]).
  assert (Hl : forall x, exitAnchor x = None ->
                         leaveChart d x = Returns (b, k') -> b = true).
  { intros x Hx. unfold leaveChart. cbv zeta.
    destruct (Z.gtb_spec d 0); [|lia].
    cbn [exitAnchor set_exiting set_currentModuleIx]. rewrite Hx.
    discriminate. }
  destruct (module_at (modules (depart d k)) (currentModuleIx (depart d k)))
    as [m|]; [|exact (Hl _ A1 Hm)].
  pose proof (call_invalid_setup (currentModuleIx (depart d k)) m (depart d k))
    as S2.
  set (k2 := snd (call_invalid (currentModuleIx (depart d k)) m (depart d k)))
    in *.
  assert (A2 : exitAnchor k2 = None)
    by (transitivity (exitAnchor (depart d k)); [apply S2 | exact A1]).
  destruct (fst _).
  - exact (IH d k2 b k' A2 Hd Hm).
  - destruct (Handler.init m); [now injection Hm as <- _ | exact (Hl _ A2 Hm)].
Qed.

(** X5: [prev] returns in every state. [next] can throw: without an exit
    anchor it either lands on a module or throws a TypeError, and it
    throws when every module ahead is invalid. *)
Theorem next_throws_only_without_anchor :
  forall k,
    (exists b k', prev k = Returns (b, k')) /\
    (exitAnchor k <> None -> exists b k', next k = Returns (b, k')) /\
    (exitAnchor k = None ->
     (next k = ThrowsTypeError \/ exists k', next k = Returns (true, k')) /\
     ((forall i m, ahead 1 (currentModuleIx k) i ->
                   module_at (modules k) i = Some m -> always_invalid m) ->
      next k = ThrowsTypeError)).
Proof.
  intros k. split; [|split].
  - destruct (move_spec (enough k) (-1) k) as [b [k' [Hm _]]];
      [now right | intros D; discriminate D | apply enough_room|].
    exists b, k'. exact Hm.
  - intros Ha.
    destruct (move_spec (enough k) 1 k) as [b [k' [Hm _]]];
      [now left | intros _; exact Ha | apply enough_room|].
    exists b, k'. exact Hm.
  - intros Ha. split.
    + unfold next.
      pose proof (move_terminates (enough k) 1 k (or_introl eq_refl)
                    (enough_room 1 k)) as Hn.
      destruct (move (enough k) 1 k) as [[b k']| |] eqn:Em.
      * right. exists k'.
        now rewrite (move_forward_without_anchor _ _ _ _ _ Ha Z.lt_0_1 Em).
      * now left.
      * now elim Hn.
    + intros Hall. apply move_throws_without_anchor;
        [exact Ha | exact Hall | apply enough_room].
Qed.

(** X6: the direction must not be 0: on a current module that is
    invalid, [move(0)] validates the same module again and again and
    returns at no depth. *)
Theorem move_zero_diverges :
  forall fuel k m,
    module_at (modules k) (currentModuleIx k) = Some m ->
    always_invalid m ->
    move fuel 0 k = OutOfFuel.
Proof.
  induction fuel as [|fuel IH]; intros k m Hm Hinv; [reflexivity|].
  rewrite move_unfold. cbv zeta.
  assert (M1 : modules (depart 0 k) = modules k) by apply depart_setup.
  rewrite M1, depart_index, Z.add_0_r, Hm.
  rewrite (always_invalid_call _ m _ Hinv).
  apply (IH _ m); [|exact Hinv].
  rewrite call_invalid_index, depart_index, Z.add_0_r.
  assert (M2 : modules (snd (call_invalid (currentModuleIx k) m (depart 0 k)))
               = modules k)
    by (transitivity (modules (depart 0 k)); [apply call_invalid_setup | exact M1]).
  now rewrite M2.
Qed.

(** X7: forward and back: from a valid module with [init], when the
    first module ahead that is not invalid is valid and has [init],
    [next] lands on it and [prev] from there lands on the module it
    came from. *)
Theorem next_then_prev_comes_back :
  forall k j mi fi mj fj,
    module_at (modules k) (currentModuleIx k) = Some mi ->
    always_valid mi -> Handler.init mi = Some fi ->
    currentModuleIx k < j ->
    module_at (modules k) j = Some mj ->
    always_valid mj -> Handler.init mj = Some fj ->
    (forall i m, currentModuleIx k < i < j ->
                 module_at (modules k) i = Some m -> always_invalid m) ->
    exists k1 k2,
      next k = Returns (true, k1) /\ currentModuleIx k1 = j /\
      prev k1 = Returns (true, k2) /\
      currentModuleIx k2 = currentModuleIx k.
Proof.
  intros k j mi fi mj fj Hi Hvi Hfi Hlt Hj Hvj Hfj Hbetween.
  pose proof (module_at_Some _ _ _ Hi) as Ri.
  pose proof (module_at_Some _ _ _ Hj) as Rj.
  destruct (move_lands (enough k) 1 k j mj fj) as [k1 [H1 I1]];
    try assumption.
  { now left. }
  { lia. }
  { unfold ahead. lia. }
  { intros i m A1 A2. apply Hbetween. unfold ahead in *. lia. }
  { apply enough_room. }
  destruct (move_any _ _ _ _ _ H1) as [S1 _].
  assert (M1 : modules k1 = modules k) by apply S1.
  destruct (move_lands (enough k1) (-1) k1 (currentModuleIx k) mi fi)
    as [k2 [H2 I2]]; try assumption.
  { now right. }
  { rewrite M1, I1. lia. }
  { rewrite I1. unfold ahead. lia. }
  { now rewrite M1. }
  { intros i m A1 A2. rewrite M1. apply Hbetween.
    rewrite I1 in A1. unfold ahead in *. lia. }
  { apply enough_room. }
  exists k1, k2. auto.
Qed.

(** ** Focus, pointer and keys together *)

(** X8: a click on the chart - pointer over the chart, button down,
    the focus event of the click, button up - calls no module, prevents
    nothing, and leaves the index and the sequence as they were; the
    click flag is cleared at the end. *)
Theorem click_on_chart_keeps_navigation :
  forall k fc,
    exists k',
      steps [MouseOver; MouseDown; Focus fc; MouseUp] k = Returns k' /\
      trace k' = trace k /\
      currentModuleIx k' = currentModuleIx k /\
      modules k' = modules k /\
      isClickingChart k' = None /\
      keyboardReset k' = keyboardReset k.
Proof.
  intros k fc. cbn [steps step].
  set (k2 := set_isClickingChart (Some true)
               (set_pointerIsOverChart (Some true) k)).
  assert (E : onFocus fc k2 = Returns (set_exiting (Some false) k2)).
  { unfold onFocus. cbn [isClickingChart k2 set_isClickingChart truthy negb].
    now rewrite !andb_false_r. }
  rewrite E.
  eexists. split; [reflexivity|].
  rewrite onMouseUp_eq. cbv zeta.
  cbn [pointerIsOverChart set_exiting k2 set_isClickingChart
       set_pointerIsOverChart truthy negb].
  rewrite andb_false_r. repeat split.
Qed.

(** X9: [init] is called unguarded at the two entries. [onFocus] throws
    a TypeError exactly when its gates are open and module 0 exists
    without [init]; the handler of the exit anchor throws when focus
    comes in backwards and the last module is valid without [init]. *)
Theorem entry_without_init_throws :
  forall k,
    (forall fc,
       onFocus fc k = ThrowsTypeError <->
       entersFromOutside fc k = true /\
       exists m, module_at (modules k) 0 = Some m /\ Handler.init m = None) /\
    (forall m,
       truthy (exiting k) = false ->
       module_at (modules k) (Z.of_nat (List.length (modules k)) - 1) = Some m ->
       always_valid m -> Handler.init m = None ->
       onExitAnchorFocus false k = ThrowsTypeError).
Proof.
  intros k. split.
  - intros fc. unfold onFocus. fold (entersFromOutside fc k).
    destruct (entersFromOutside fc k).
    + destruct (module_at (modules k) 0) as [m|].
      * destruct (Handler.init m) eqn:Ei.
        -- split; [discriminate|]. intros [_ [m' [Hm Hi]]].
           injection Hm as <-. congruence.
        -- split; [|reflexivity]. intros _. split; [reflexivity|]. eauto.
      * split; [discriminate|]. intros [_ [m' [Hm _]]]. discriminate.
    + split; [discriminate|]. intros [H _]. discriminate.
  - intros m He Hm Hv Hi.
    assert (Hne : modules k <> []).
    { intros E. rewrite E, module_at_nil in Hm. discriminate. }
    rewrite (onExitAnchorFocus_backwards k He Hne). cbv zeta.
    destruct (enterBackwards_facts k) as [S1 [I1 _]].
    assert (M1 : modules (enterBackwards k) = modules k) by apply S1.
    rewrite M1, I1, Hm, always_valid_call by exact Hv.
    now rewrite Hi.
Qed.

(** X10: backward entry into a sequence whose modules are all invalid
    initializes nothing: the handler of the exit anchor goes through
    [prev], which leaves the chart backwards - index 0, [exiting] set,
    the tab stop focused a second time. *)
Theorem backward_entry_all_invalid_leaves :
  forall k,
    truthy (exiting k) = false ->
    modules k <> [] ->
    (forall i m, module_at (modules k) i = Some m -> always_invalid m) ->
    exists k' mid,
      onExitAnchorFocus false k = Returns k' /\
      currentModuleIx k' = 0 /\ exiting k' = Some true /\
      trace k' =
        FocusTabindexContainer :: mid ++
        PreventDefault :: FocusTabindexContainer :: trace k /\
      forall i dd, ~ In (CallInit i dd) mid.
Proof.
  intros k He Hne Hall.
  rewrite (onExitAnchorFocus_backwards k He Hne). cbv zeta.
  destruct (enterBackwards_facts k) as [S1 [I1 [_ T1]]].
  assert (M1 : modules (enterBackwards k) = modules k) by apply S1.
  rewrite M1, I1.
  set (last := Z.of_nat (List.length (modules k)) - 1) in *.
  destruct (module_at_in_range (modules k) last) as [ml Hl].
  { unfold last. destruct (modules k); [now elim Hne | cbn [List.length]; lia]. }
  rewrite Hl.
  pose proof (always_invalid_call last ml (enterBackwards k) (Hall _ _ Hl)) as Ei.
  rewrite Ei.
  pose proof (call_invalid_setup last ml (enterBackwards k)) as S2.
  destruct (call_invalid_true _ _ _ Ei) as [v [_ [_ T2]]].
  set (k2 := snd (call_invalid last ml (enterBackwards k))) in *.
  assert (M2 : modules k2 = modules k)
    by (transitivity (modules (enterBackwards k)); [apply S2 | exact M1]).
  assert (Hd : -1 = 1 \/ -1 = -1) by now right.
  unfold prev.
  destruct (move_spec (enough k2) (-1) k2 Hd) as [b [k' [Hm Hp]]].
  { intros D; discriminate D. }
  { apply enough_room. }
  assert (b = false).
  { eapply move_all_invalid; [exact Hd | | exact Hm].
    intros i m _ Hi. rewrite M2 in Hi. eauto. }
  subst b. rewrite Hm. cbn [drop_result].
  destruct Hp as [_ [delta [T3 [_ [_ [_ [L1 [L2 [[rest L3] L4]]]]]]]]].
  exists k', (rest ++ [CallValidate last false]).
  split; [reflexivity|]. split; [exact L1|]. split; [exact L2|].
  split.
  { rewrite T3, L3, T2, T1. cbn. now rewrite <- app_assoc. }
  intros i dd Hin. apply in_app_or in Hin.
  destruct Hin as [Hin | [Hin | []]]; [|discriminate].
  apply (L4 i dd). rewrite L3. now right.
Qed.

Lemma onKeydown_flags e k k' :
  onKeydown e k = Returns k' ->
  keyboardReset k' = Some false /\
  pointerIsOverChart k' = pointerIsOverChart k /\
  isClickingChart k' = isClickingChart k.
Proof.
  rewrite onKeydown_eq. cbv zeta.
  destruct (module_at (modules k) (currentModuleIx k)) as [m|];
    [|intros H; injection H as <-; repeat split].
  set (k1 := record _ _).
  assert (Hs : forall d,
             match move (enough k) d k1 with
             | Returns (b, k2) => Returns (if b then suppress k2 else k2)
             | ThrowsTypeError => ThrowsTypeError
             | OutOfFuel => OutOfFuel
             end = Returns k' ->
             keyboardReset k' = Some false /\
             pointerIsOverChart k' = pointerIsOverChart k /\
             isClickingChart k' = isClickingChart k).
  { intros d. destruct (move _ _ _) as [[b k2]| |] eqn:Em; try discriminate.
    intros H. injection H as <-.
    destruct (move_any _ _ _ _ _ Em) as [S _].
    assert (R : keyboardReset k2 = keyboardReset k1) by apply S.
    assert (P : pointerIsOverChart k2 = pointerIsOverChart k1) by apply S.
    assert (C : isClickingChart k2 = isClickingChart k1) by apply S.
    destruct b; cbn [suppress keyboardReset pointerIsOverChart isClickingChart
                     record]; rewrite R, P, C; repeat split. }
  destruct (_ =? _); [intros H; injection H as <-; repeat split|].
  destruct (_ =? _); [apply Hs|].
  destruct (_ =? _); [apply Hs|].
  intros H; injection H as <-; repeat split.
Qed.

(** X11: every key-down arms the pointer reset again: after [onKeydown]
    [keyboardReset] is false whatever it was, so the next pointer-up
    outside the chart sets the index to 0 and [keyboardReset] to true -
    also when the state had been reset before the key. *)
Theorem keydown_rearms_pointer_reset :
  forall e k k1,
    onKeydown e k = Returns k1 ->
    truthy (pointerIsOverChart k) = false ->
    keyboardReset k1 = Some false /\
    currentModuleIx (onMouseUp k1) = 0 /\
    keyboardReset (onMouseUp k1) = Some true /\
    modules (onMouseUp k1) = modules k.
Proof.
  intros e k k1 Hk Hp.
  destruct (onKeydown_flags e k k1 Hk) as [R [P _]].
  destruct (onKeydown_settled e k k1 Hk) as [M _].
  destruct (onMouseUp_settled k1) as [M' _].
  split; [exact R|].
  rewrite onMouseUp_eq. cbv zeta. rewrite R, P, Hp. cbn [truthy negb andb].
  split; [reflexivity|]. split; [reflexivity|].
  rewrite <- M, <- M'. rewrite onMouseUp_eq. cbv zeta.
  rewrite R, P, Hp. reflexivity.
Qed.

(** X15: the focus that [move] causes when it leaves the chart
    initializes nothing: after [move] has answered false, the next focus
    event - on the tab stop or on the exit anchor, wherever it is said to
    come from - only clears [exiting]. *)
Theorem focus_after_leaving_is_skipped :
  forall fuel d k k1,
    move fuel d k = Returns (false, k1) ->
    forall fc,
      onFocus fc k1 = Returns (set_exiting (Some false) k1) /\
      onExitAnchorFocus fc k1 = Returns (set_exiting (Some false) k1).
Proof.
  intros fuel d k k1 Hm fc.
  destruct (move_any _ _ _ _ _ Hm) as [_ [_ He]].
  split.
  - unfold onFocus. rewrite He. reflexivity.
  - unfold onExitAnchorFocus. rewrite He. cbn [truthy].
    now rewrite orb_true_r.
Qed.

(** ** The tab stop and the exit anchor after update *)

(** X13: after [updateContainerTabindex] the tab stop is [renderTo] when
    that element carries a tabindex - the container's own tabindex is
    then removed - and the container otherwise. Unless keyboard
    navigation is explicitly disabled, the tab stop has a tabindex: the
    one it had, or "0" when it had none or an empty one. When it is
    explicitly disabled, the container has no tabindex, but a tabindex
    on [renderTo] stays. *)
Theorem container_tabindex_after_update :
  forall k,
    let k' := updateContainerTabindex k in
    let before :=
      match renderToTabindex (chart k) with
      | Some r => Some r
      | None => containerTabindex (chart k)
      end in
    tabindexContainer k' =
      (match renderToTabindex (chart k) with
       | Some _ => RenderTo
       | None => Container
       end) /\
    (renderToTabindex (chart k) <> None ->
     containerTabindex (chart k') = None) /\
    (explicitlyDisabled k = false ->
     tabindexOf k' = (if truthy_attr before then before else Some "0"%string) /\
     truthy_attr (tabindexOf k') = true) /\
    (explicitlyDisabled k = true ->
     containerTabindex (chart k') = None /\
     renderToTabindex (chart k') = renderToTabindex (chart k)).
Proof.
  intros k k' before. unfold k', before, updateContainerTabindex.
  fold (explicitlyDisabled k).
  destruct (explicitlyDisabled k);
    destruct (renderToTabindex (chart k)) as [r|] eqn:Er;
    cbv zeta beta iota; cbn [negb andb];
    unfold tabindexOf;
    cbn [tabindexContainer set_tabindexContainer set_chart chart
         renderToTabindex containerTabindex set_containerTabindex
         set_renderToTabindex];
    rewrite ?Er.
  - repeat split; intros; try discriminate; try congruence.
  - repeat split; intros; try discriminate; try congruence.
  - destruct (truthy_attr (Some r)) eqn:Et; cbn [negb];
      cbn [tabindexContainer set_tabindexContainer set_chart chart
           renderToTabindex containerTabindex set_containerTabindex
           set_renderToTabindex];
      rewrite ?Er; repeat split; intros; try discriminate; try congruence.
  - destruct (truthy_attr (containerTabindex (chart k))) eqn:Et; cbn [negb];
      cbn [tabindexContainer set_tabindexContainer set_chart chart
           renderToTabindex containerTabindex set_containerTabindex
           set_renderToTabindex];
      rewrite ?Er; repeat split; intros; try discriminate; try congruence.
Qed.

Lemma container_tabindex_facts k :
  explicitlyDisabled k = false ->
  exists s,
    tabindexOf (updateContainerTabindex k) = Some s /\
    truthy_attr (Some s) = true.
Proof.
  intros Hd. unfold updateContainerTabindex.
  fold (explicitlyDisabled k). rewrite Hd.
  destruct (renderToTabindex (chart k)) as [r|] eqn:Er;
    cbv zeta beta iota; cbn [negb andb]; unfold tabindexOf;
    cbn [tabindexContainer set_tabindexContainer set_chart chart
         renderToTabindex containerTabindex set_containerTabindex
         set_renderToTabindex];
    rewrite ?Er.
  - destruct (truthy_attr (Some r)) eqn:Et; cbn [negb];
      cbn [tabindexContainer set_tabindexContainer set_chart chart
           renderToTabindex containerTabindex set_containerTabindex
           set_renderToTabindex];
      rewrite ?Er; eexists; split; try reflexivity; exact Et.
  - destruct (containerTabindex (chart k)) as [c|] eqn:Ec.
    + destruct (truthy_attr (Some c)) eqn:Et; cbn [negb];
        cbn [tabindexContainer set_tabindexContainer set_chart chart
             renderToTabindex containerTabindex set_containerTabindex
             set_renderToTabindex];
        rewrite ?Ec; eexists; split; try reflexivity; exact Et.
    + cbn [truthy_attr negb];
        cbn [tabindexContainer set_tabindexContainer set_chart chart
             renderToTabindex containerTabindex set_containerTabindex
             set_renderToTabindex].
      eexists; split; reflexivity.
Qed.

Lemma removeExitAnchor_tabindex (x : K) :
  tabindexOf (removeExitAnchor x) = tabindexOf x /\
  tabindexContainer (removeExitAnchor x) = tabindexContainer x.
Proof.
  unfold removeExitAnchor.
  destruct (exitAnchor x) as [a|]; [|split; reflexivity].
  destruct (parentNode a); [|split; reflexivity].
  destruct (isEndMarker a); split; reflexivity.
Qed.

(** X14: when [update] installs a sequence - keyboard navigation
    enabled, a non-empty order - the exit anchor it installs mirrors the
    tab stop: its tabindex is the tabindex of the tab stop, which is not
    empty, its class is highcharts-exit-anchor and it is not hidden from
    assistive technology. *)
Theorem exit_anchor_mirrors_tab_stop :
  forall order k,
    navigationEnabled k && nonEmptyOrder order = true ->
    exists a,
      exitAnchor (update order k) = Some a /\
      tabindexOf (update order k) = Some (anchorTabindex a) /\
      truthy_attr (Some (anchorTabindex a)) = true /\
      className a = "highcharts-exit-anchor"%string /\
      ariaHidden a = false.
Proof.
  intros order k Hen.
  assert (Hd : explicitlyDisabled k = false).
  { apply andb_true_iff in Hen. destruct Hen as [Hen _].
    unfold navigationEnabled in Hen. unfold explicitlyDisabled.
    destruct (keyboardNavigationOptions (chart k)) as [o|]; [|reflexivity].
    destruct (enabled o) as [[|]|]; try reflexivity. discriminate. }
  destruct (container_tabindex_facts k Hd) as [s [Hs Ht]].
  destruct (updateContainerTabindex_keeps k) as [O _].
  assert (N : navigationEnabled (updateContainerTabindex k)
              = navigationEnabled k)
    by (unfold navigationEnabled; now rewrite O).
  unfold update. cbv zeta. rewrite N, Hen.
  set (k1 := set_modules _ (updateContainerTabindex k)).
  assert (T1 : tabindexOf k1 = Some s) by exact Hs.
  destruct (removeExitAnchor_tabindex k1) as [T2 _].
  unfold updateExitAnchor. cbv zeta.
  destruct (endMarkerInDocument (chart k1)).
  - unfold makeElementAnExitAnchor. cbv zeta.
    rewrite T2, T1, Ht.
    eexists. split; [reflexivity|].
    cbn [anchorTabindex className ariaHidden].
    split; [exact (eq_trans T2 T1)|]. split; [exact Ht|]. split; reflexivity.
  - unfold createExitAnchor, makeElementAnExitAnchor. cbv zeta.
    rewrite T2, T1, Ht.
    eexists. split; [reflexivity|].
    cbn [anchorTabindex className ariaHidden].
    split; [exact (eq_trans T2 T1)|]. split; [exact Ht|]. split; reflexivity.
Qed.

(** X12: when [update] does not install a sequence - keyboard
    navigation not enabled, or no order - the class is inert: the
    sequence is empty and the exit anchor out of the document, [update]
    itself has called no module, and afterwards no key-down reaches a
    module or prevents a default and no focus event initializes
    anything. *)
Theorem update_without_order_is_inert :
  forall order k,
    navigationEnabled k && nonEmptyOrder order = false ->
    let k' := update order k in
    modules k' = [] /\ exit_anchor_removed k' /\ trace k' = trace k /\
    (forall e,
       onKeydown e k' =
         Returns (set_exiting (Some false) (set_keyboardReset (Some false) k'))) /\
    (forall fc, onFocus fc k' = Returns (set_exiting (Some false) k')) /\
    (forall fc, exists k2,
       onExitAnchorFocus fc k' = Returns k2 /\
       forall i d, In (CallInit i d) (trace k2) -> In (CallInit i d) (trace k)).
Proof.
  intros order k Hen. cbv zeta.
  assert (M : modules (update order k) = [] /\
              exit_anchor_removed (update order k)).
  { unfold update. cbv zeta.
    destruct (updateContainerTabindex_keeps k) as [O _].
    assert (N : navigationEnabled (updateContainerTabindex k)
                = navigationEnabled k)
      by (unfold navigationEnabled; now rewrite O).
    rewrite N, Hen.
    match goal with
    | |- context [removeExitAnchor ?x] =>
        destruct (removeExitAnchor_keeps x) as [M' [_ A']]
    end.
    rewrite M'. split; [reflexivity | exact A']. }
  destruct M as [M A].
  pose proof (update_trace order k) as T.
  remember (update order k) as k' eqn:Ek'. clear Ek'.
  split; [exact M|]. split; [exact A|].
  split; [exact T|].
  split; [|split].
  - intros e. rewrite onKeydown_eq. cbv zeta.
    now rewrite M, module_at_nil.
  - intros fc. unfold onFocus. fold (entersFromOutside fc k').
    rewrite M, module_at_nil.
    destruct (entersFromOutside fc k'); reflexivity.
  - intros fc. unfold onExitAnchorFocus. cbv zeta.
    destruct (negb _).
    + cbn [modules set_tabbingInBackwards record]. rewrite M.
      eexists. split; [reflexivity|].
      cbn [trace record set_tabbingInBackwards].
      intros i d [Hin | [Hin | Hin]]; try discriminate.
      now rewrite <- T.
    + eexists. split; [reflexivity|].
      cbn [trace set_exiting]. intros i d Hin.
      now rewrite <- T.
Qed.

End Properties.

(** * The properties on a concrete chart *)

Section Concrete.

Import Example.

Local Abbreviation KN := (KeyboardNavigation bool Key Name).

Lemma valid_always_valid : always_valid valid.
Proof. intros v Hv w. injection Hv as <-. reflexivity. Qed.

Lemma invalid_always_invalid : always_invalid invalid.
Proof. eexists. split; [reflexivity|]. reflexivity. Qed.

Lemma start_reachable order : reachable (start order).
Proof.
  exists theChart, components, [Update (Some order)].
  unfold start. cbn [steps step]. reflexivity.
Qed.

(** The scenario of the spec, with two invalid modules in the middle:
    focus enters, a first Tab lands on the last module, a second Tab
    leaves the chart through the exit anchor. *)
Example tab_skips_invalid_then_leaves :
  let k1 := after [Focus false; Keydown Tab] [Series; Zoom; Legend] in
  let k2 := after [Focus false; Keydown Tab; Keydown Tab] [Series; Zoom; Legend] in
  currentModuleIx k1 = 3 /\
  (exists rest, trace k1 = StopPropagation :: PreventDefault :: CallInit 3 1 :: rest) /\
  currentModuleIx k2 = 0 /\ exiting k2 = Some true /\
  (exists rest, trace k2 = FocusExitAnchor :: rest).
Proof.
  intros k1 k2.
  split; [vm_compute; reflexivity|].
  split; [eexists; vm_compute; reflexivity|].
  split; [vm_compute; reflexivity|].
  split; [vm_compute; reflexivity|].
  eexists; vm_compute; reflexivity.
Qed.

(** A witness of C1: one valid module, then two invalid ones, then a
    valid one; forward from the first. *)
Lemma move_skips_invalid_modules_witness :
  let k := start [Series; Zoom; Legend] in
  (1 = 1 \/ 1 = -1) /\
  (1 = 1 -> exitAnchor k <> None) /\
  exists b k' delta,
    move (enough k) 1 k = Returns (b, k') /\
    trace k' = delta ++ trace k /\
    (forall i dd,
       In (CallInit i dd) delta -> ~ In (CallValidate i false) delta).
Proof.
  intros k.
  assert (Hd : 1 = 1 \/ 1 = -1) by (left; reflexivity).
  assert (Ha : 1 = 1 -> exitAnchor k <> None)
    by (intros _; vm_compute; discriminate).
  split; [exact Hd|]. split; [exact Ha|].
  destruct (move_skips_invalid_modules k 1 Hd Ha)
    as [b [k' [delta [H1 [H2 [_ [H4 _]]]]]]].
  exists b, k', delta. auto.
Defined.

(** C2 fails as stated: after Tab has moved to the fourth module, an
    update with an order of one module leaves the index at 3, which is
    neither 0 nor an index of the new sequence. *)
Lemma update_keeps_index_counterexample :
  exists (k : KN) order,
    reachable k /\
    currentModuleIx (update order k) <> 0 /\
    ~ (0 <= currentModuleIx (update order k)
       < Z.of_nat (List.length (modules (update order k)))).
Proof.
  exists (after [Focus false; Keydown Tab] [Series; Zoom; Legend]).
  exists (Some [Series]).
  split.
  - exists theChart, components,
      [Update (Some [Series; Zoom; Legend]); Focus false; Keydown Tab].
    vm_compute. reflexivity.
  - split; vm_compute; [discriminate|].
    intros [_ H]. discriminate H.
Qed.

(** C3, the code at the failing input: the module after the current one
    has neither [validate] nor [init]; [next] does not land on it but
    leaves the chart: it answers false, resets the index, sets [exiting]
    and focuses the exit anchor. *)
Theorem move_fails_on_valid_module_without_init :
  let k := start [Series; Broken; Legend] in
  module_at (modules k) 1 = Some bare /\
  Handler.validate bare = None /\ Handler.init bare = None /\
  always_valid bare /\
  exists k',
    next k = Returns (false, k') /\
    currentModuleIx k' = 0 /\ exiting k' = Some true /\
    trace k' = [FocusExitAnchor; CallTerminate 0 (Some 1); EnterMove 1].
Proof.
  intros k. repeat split.
  - intros v Hv. discriminate Hv.
  - eexists. split; [vm_compute; reflexivity|]. repeat split.
Qed.

(** A witness of C4: Enter on the first module is a success. *)
Lemma onKeydown_interprets_response_witness :
  let k := start [Series; Legend] in
  module_at (modules k) (currentModuleIx k) = Some valid /\
  Response.success codes <> Response.prev codes /\
  Response.success codes <> Response.next codes /\
  Response.prev codes <> Response.next codes /\
  exists k',
    onKeydown Enter k = Returns k' /\
    currentModuleIx k' = currentModuleIx k /\
    trace k' = StopPropagation :: PreventDefault :: CallRun 0 1 :: trace k.
Proof.
  intros k.
  assert (Hm : module_at (modules k) (currentModuleIx k) = Some valid)
    by (vm_compute; reflexivity).
  assert (H1 : Response.success codes <> Response.prev codes) by discriminate.
  assert (H2 : Response.success codes <> Response.next codes) by discriminate.
  assert (H3 : Response.prev codes <> Response.next codes) by discriminate.
  repeat (split; [assumption|]).
  exact (proj1 (proj2 (onKeydown_interprets_response Enter k) valid
                  Hm H1 H2 H3) eq_refl).
Defined.

Lemma entered_one_active (k : KN) m ms :
  modules k = m :: ms -> trace k = [CallInit 0 1] ->
  currentModuleIx k = 0 -> active_is_current k.
Proof.
  intros Em Et Ei i. rewrite Et, Ei, Em. cbn [is_active].
  destruct (Z.eqb_spec 0 i) as [<- | _]; [|discriminate].
  intros _. split; [reflexivity | discriminate].
Qed.

Lemma two_active (k : KN) i j :
  is_active i (trace k) = true -> is_active j (trace k) = true ->
  i <> j -> ~ at_most_one_active (trace k).
Proof. intros Hi Hj Hne H. apply Hne. exact (H i j Hi Hj). Qed.

(** C5 fails as stated, and each restriction of the amended claim is
    needed. In each case both states are reachable, the state before has
    one active module, the current one, and the state after has two.
    - Focus enters again from outside: [onFocus] initializes module 0
      while module 1 is active.
    - Focus comes in backwards through the exit anchor: its handler
      initializes the last module while module 0 is active.
    - The sequence is rebuilt to nothing and back in the same order, so
      that the same components are at the same indices: [update] resets
      the index without a [terminate], and the next Tab initializes
      module 1 while module 2 is active.
    - The modules have no [terminate] and the calls are read as made:
      Tab initializes module 1, and module 0 never receives a call. *)
Lemma two_active_modules_counterexample :
  (exists k0 k : KN,
     reachable k0 /\ all_terminate k0 /\ active_is_current k0 /\
     step (Focus false) k0 = Returns k /\
     reachable k /\ ~ at_most_one_active (trace k)) /\
  (exists k0 k : KN,
     reachable k0 /\ all_terminate k0 /\ active_is_current k0 /\
     step (ExitAnchorFocus false) k0 = Returns k /\
     reachable k /\ ~ at_most_one_active (trace k)) /\
  (exists k0 k : KN,
     reachable k0 /\ all_terminate k0 /\ active_is_current k0 /\
     steps [Update None; Update (Some [Series; Legend; Series]); Keydown Tab]
       k0 = Returns k /\
     reachable k /\ ~ at_most_one_active (trace k)) /\
  (exists k0 k : KN,
     reachable k0 /\ active_is_current k0 /\
     step (Keydown Tab) k0 = Returns k /\
     reachable k /\ ~ at_most_one_active (trace k)).
Proof.
  assert (Hall2 : forall k : KN, modules k = [valid; valid] -> all_terminate k).
  { intros k Em m. rewrite Em. intros [<- | [<- | []]]; discriminate. }
  assert (Hall3 : forall k : KN,
             modules k = [valid; valid; valid] -> all_terminate k).
  { intros k Em m. rewrite Em. intros [<- | [<- | [<- | []]]]; discriminate. }
  assert (Hr : forall cs order inputs (k : KN),
             steps (Update (Some order) :: inputs) (init theChart cs)
             = Returns k -> reachable k).
  { intros cs order inputs k H. now exists theChart, cs, (Update (Some order) :: inputs). }
  split; [|split; [|split]].
  - set (order := [Series; Legend]).
    set (kf := after [Focus false] order).
    exists (after [Focus false; Keydown Tab] order),
      (after [Focus false; Keydown Tab; Focus false] order).
    assert (Hf : all_terminate kf) by (apply Hall2; vm_compute; reflexivity).
    assert (Hc : active_is_current kf)
      by (apply (entered_one_active kf valid [valid]); vm_compute; reflexivity).
    assert (Hs : steps [Keydown Tab] kf =
                 Returns (after [Focus false; Keydown Tab] order))
      by (vm_compute; reflexivity).
    destruct (steps_keep_one_active [Keydown Tab] _ _ Hf Hc eq_refl Hs)
      as [H1 [H2 _]].
    split.
    { apply (Hr components order [Focus false; Keydown Tab]).
      vm_compute. reflexivity. }
    split; [exact H1|]. split; [exact H2|].
    split; [vm_compute; reflexivity|].
    split.
    { apply (Hr components order [Focus false; Keydown Tab; Focus false]).
      vm_compute. reflexivity. }
    apply (two_active _ 0 1); [vm_compute .. | lia]; reflexivity.
  - set (order := [Series; Legend]).
    exists (after [Focus false] order),
      (after [Focus false; ExitAnchorFocus false] order).
    split.
    { apply (Hr components order [Focus false]). vm_compute. reflexivity. }
    split; [apply Hall2; vm_compute; reflexivity|].
    split.
    { apply (entered_one_active _ valid [valid]); vm_compute; reflexivity. }
    split; [vm_compute; reflexivity|].
    split.
    { apply (Hr components order [Focus false; ExitAnchorFocus false]).
      vm_compute. reflexivity. }
    apply (two_active _ 0 1); [vm_compute .. | lia]; reflexivity.
  - set (order := [Series; Legend; Series]).
    set (kf := after [Focus false] order).
    exists (after [Focus false; Keydown Tab; Keydown Tab] order),
      (after [Focus false; Keydown Tab; Keydown Tab; Update None;
              Update (Some order); Keydown Tab] order).
    assert (Hf : all_terminate kf) by (apply Hall3; vm_compute; reflexivity).
    assert (Hc : active_is_current kf)
      by (apply (entered_one_active kf valid [valid; valid]);
          vm_compute; reflexivity).
    assert (Hs : steps [Keydown Tab; Keydown Tab] kf =
                 Returns (after [Focus false; Keydown Tab; Keydown Tab] order))
      by (vm_compute; reflexivity).
    destruct (steps_keep_one_active [Keydown Tab; Keydown Tab] _ _ Hf Hc
                eq_refl Hs) as [H1 [H2 _]].
    split.
    { apply (Hr components order [Focus false; Keydown Tab; Keydown Tab]).
      vm_compute. reflexivity. }
    split; [exact H1|]. split; [exact H2|].
    split; [vm_compute; reflexivity|].
    split.
    { apply (Hr components order
               [Focus false; Keydown Tab; Keydown Tab; Update None;
                Update (Some order); Keydown Tab]).
      vm_compute. reflexivity. }
    apply (two_active _ 1 2); [vm_compute .. | lia]; reflexivity.
  - set (order := [Series; Legend]).
    exists (plainAfter [Focus false] order),
      (plainAfter [Focus false; Keydown Tab] order).
    split.
    { apply (Hr plainComponents order [Focus false]). vm_compute. reflexivity. }
    split.
    { apply (entered_one_active _ plain [plain]); vm_compute; reflexivity. }
    split; [vm_compute; reflexivity|].
    split.
    { apply (Hr plainComponents order [Focus false; Keydown Tab]).
      vm_compute. reflexivity. }
    apply (two_active _ 0 1); [vm_compute .. | lia]; reflexivity.
Qed.

(** A witness of C5 (as amended): modules with [terminate], after focus
    has entered, Tab and an outside pointer-up; and three modules without
    [terminate], after focus has entered, Tab twice, Shift+Tab and an
    outside pointer-up. *)
Lemma one_active_module_inside_witness :
  let k := after [Focus false] [Series; Legend] in
  let inputs := [Keydown Tab; MouseUp] in
  let p := plainAfter [Focus false] [Series; Legend; Series] in
  let presses := [Keydown Tab; Keydown Tab; Keydown ShiftTab; MouseUp] in
  (all_terminate k /\ active_is_current k /\
   forallb internal inputs = true /\
   exists k',
     steps inputs k = Returns k' /\ at_most_one_active (trace k')) /\
  (active_is_current p /\
   forallb internal presses = true /\
   exists p' delta,
     steps presses p = Returns p' /\
     steps presses (with_defaults p) =
       Returns (dressed p' (delta ++ trace p)) /\
     trace p' = calls_made (modules p) delta ++ trace p /\
     at_most_one_active (delta ++ trace p)).
Proof.
  intros k inputs p presses. split.
  - assert (Em : modules k = [valid; valid]) by (vm_compute; reflexivity).
    assert (Et : trace k = [CallInit 0 1]) by (vm_compute; reflexivity).
    assert (Ei : currentModuleIx k = 0) by (vm_compute; reflexivity).
    assert (Hall : all_terminate k).
    { unfold all_terminate. rewrite Em.
      intros m [<- | [<- | []]]; discriminate. }
    assert (Hcur : active_is_current k).
    { unfold active_is_current. rewrite Em, Et, Ei. intros i.
      cbn [is_active]. destruct (Z.eqb_spec 0 i) as [<- | _]; [|discriminate].
      intros _. split; [reflexivity | discriminate]. }
    assert (Hin : forallb internal inputs = true) by reflexivity.
    assert (Hs : steps inputs k =
                 Returns (after [Focus false; Keydown Tab; MouseUp]
                            [Series; Legend]))
      by (vm_compute; reflexivity).
    repeat (split; [assumption|]).
    eexists. split; [exact Hs|].
    exact (proj2 (proj2 (proj1 (one_active_module_inside inputs k _
                                  Hcur Hin Hs) Hall))).
  - assert (Em : modules p = [plain; plain; plain])
      by (vm_compute; reflexivity).
    assert (Et : trace p = [CallInit 0 1]) by (vm_compute; reflexivity).
    assert (Ei : currentModuleIx p = 0) by (vm_compute; reflexivity).
    assert (Hcur : active_is_current p).
    { unfold active_is_current. rewrite Em, Et, Ei. intros i.
      cbn [is_active]. destruct (Z.eqb_spec 0 i) as [<- | _]; [|discriminate].
      intros _. split; [reflexivity | discriminate]. }
    assert (Hin : forallb internal presses = true) by reflexivity.
    assert (Hs : steps presses p =
                 Returns (plainAfter [Focus false; Keydown Tab; Keydown Tab;
                                      Keydown ShiftTab; MouseUp]
                            [Series; Legend; Series]))
      by (vm_compute; reflexivity).
    split; [exact Hcur|]. split; [exact Hin|].
    destruct (proj2 (one_active_module_inside presses p _ Hcur Hin Hs))
      as [delta [E [T [_ H]]]].
    eexists. exists delta.
    split; [exact Hs|]. split; [exact E|]. split; [exact T | exact H].
Defined.

(** C6, the code at the failing inputs. The last module has neither
    [validate] nor [init]: it is valid, and it is the last valid module.
    Focus comes in backwards through the exit anchor. The handler calls
    [init] unguarded and throws a TypeError, where [move] guards the
    same call. With two invalid modules behind that module the handler
    goes through [prev], which does not land on it either but leaves the
    chart: the index is 0, [exiting] is set, and no [init] was called. *)
Theorem backward_entry_fails_without_init :
  let k := start [Series; Broken] in
  let k2 := start [Series; Broken; Zoom] in
  modules k = [valid; bare] /\
  modules k2 = [valid; bare; invalid; invalid] /\
  Handler.validate bare = None /\ Handler.init bare = None /\
  always_valid bare /\
  truthy (exiting k) = false /\ truthy (exiting k2) = false /\
  onExitAnchorFocus false k = ThrowsTypeError /\
  exists k',
    onExitAnchorFocus false k2 = Returns k' /\
    currentModuleIx k' = 0 /\ exiting k' = Some true /\
    trace k' =
      [FocusTabindexContainer;
       CallTerminate 2 (Some (-1)); EnterMove (-1); CallValidate 2 false;
       CallTerminate 3 (Some (-1)); EnterMove (-1); CallValidate 3 false;
       PreventDefault; FocusTabindexContainer].
Proof.
  intros k k2.
  split; [vm_compute; reflexivity|]. split; [vm_compute; reflexivity|].
  split; [reflexivity|]. split; [reflexivity|].
  split; [intros v Hv; discriminate Hv|].
  split; [vm_compute; reflexivity|]. split; [vm_compute; reflexivity|].
  split; [vm_compute; reflexivity|].
  eexists. split; [vm_compute; reflexivity|]. repeat split.
Qed.

(** A witness of X20: two valid modules followed by two invalid ones;
    the backward entry lands on module 1, not on module 0. *)
Lemma backward_entry_resumes_at_last_valid_witness :
  let k := start [Series; Legend; Zoom] in
  module_at (modules k) 1 = Some valid /\
  always_valid valid /\
  Handler.init valid = Some (fun _ _ => true) /\
  (forall i mi, 1 < i -> module_at (modules k) i = Some mi ->
                always_invalid mi) /\
  truthy (exiting k) = false /\
  exists k',
    onExitAnchorFocus false k = Returns k' /\ currentModuleIx k' = 1.
Proof.
  intros k.
  assert (Hm : module_at (modules k) 1 = Some valid)
    by (vm_compute; reflexivity).
  assert (Hf : Handler.init valid = Some (fun _ _ => true)) by reflexivity.
  assert (Hafter : forall i mi, 1 < i -> module_at (modules k) i = Some mi ->
                                always_invalid mi).
  { intros i mi Hi.
    assert (E : modules k = [valid; valid; invalid; invalid])
      by (vm_compute; reflexivity).
    rewrite E.
    rewrite !module_at_cons, module_at_nil.
    destruct (Z.eqb_spec i 0); [lia|].
    destruct (Z.eqb_spec (i - 1) 0); [lia|].
    destruct (i - 1 - 1 =? 0); [intros H; injection H as <-;
                                exact invalid_always_invalid|].
    destruct (i - 1 - 1 - 1 =? 0); [intros H; injection H as <-;
                                    exact invalid_always_invalid|].
    discriminate. }
  assert (He : truthy (exiting k) = false) by (vm_compute; reflexivity).
  split; [exact Hm|]. split; [exact valid_always_valid|].
  split; [exact Hf|]. split; [exact Hafter|]. split; [exact He|].
  destruct (proj1 (backward_entry_resumes_at_last_valid k 1 valid _ Hm
                     valid_always_valid Hf Hafter) He)
    as [k' [mid [H1 [H2 _]]]].
  exists k'. auto.
Defined.

(** C7 fails as stated: [move] is not a loop but calls itself for every
    module it skips. Forward from the first of one valid and two invalid
    modules, a depth of one or two activations does not reach the end of
    the call, and the call that returns has entered [move] three times. *)
Lemma move_recursion_counterexample :
  exists (k : KN) b k',
    reachable k /\ trace k = [] /\
    move 1 1 k = OutOfFuel /\ move 2 1 k = OutOfFuel /\
    move (enough k) 1 k = Returns (b, k') /\
    activations (trace k') = 3%nat.
Proof.
  exists (start [Series; Zoom]). eexists. eexists.
  split; [apply start_reachable|]. split; [vm_compute; reflexivity|].
  split; [vm_compute; reflexivity|]. split; [vm_compute; reflexivity|].
  split; [vm_compute; reflexivity|]. vm_compute. reflexivity.
Qed.

(** A witness of C7 (as amended): the same call. *)
Lemma move_terminates_by_bounded_recursion_witness :
  let k := start [Series; Zoom] in
  (1 = 1 \/ 1 = -1) /\
  move (enough k) 1 k <> OutOfFuel /\
  exists b k' delta,
    move (enough k) 1 k = Returns (b, k') /\
    trace k' = delta ++ trace k /\
    (skips delta <= List.length (modules k))%nat /\
    activations delta = S (skips delta).
Proof.
  intros k.
  assert (Hd : 1 = 1 \/ 1 = -1) by (left; reflexivity).
  split; [exact Hd|].
  destruct (move_terminates_by_bounded_recursion k 1 Hd) as [H1 [_ H3]].
  split; [exact H1|].
  apply H3. intros _. vm_compute. discriminate.
Defined.

(** A witness of C8: a pointer-up outside a chart that was just built. *)
Lemma outside_pointer_up_resets_once_witness :
  let k := after [Focus false] [Series; Legend] in
  truthy (keyboardReset k) = false /\
  truthy (pointerIsOverChart k) = false /\
  currentModuleIx (onMouseUp k) = 0 /\
  keyboardReset (onMouseUp k) = Some true /\
  onMouseUp (onMouseUp k) = onMouseUp k.
Proof.
  intros k.
  assert (Hr : truthy (keyboardReset k) = false) by (vm_compute; reflexivity).
  assert (Hp : truthy (pointerIsOverChart k) = false)
    by (vm_compute; reflexivity).
  split; [exact Hr|]. split; [exact Hp|].
  destruct (outside_pointer_up_resets_once k Hr Hp)
    as [H1 [H2 [_ [_ [H5 _]]]]].
  auto.
Defined.

(** A witness of C10: focus enters again while the index is 1. *)
Lemma focus_entry_keeps_stale_index_witness :
  let k := after [Focus false; Keydown Tab] [Series; Legend] in
  currentModuleIx k = 1 /\
  exists k1,
    onFocus false k = Returns k1 /\
    currentModuleIx k1 = 1 /\
    trace k1 = CallInit 0 1 :: trace k /\
    exists k2 delta,
      onKeydown Enter k1 = Returns k2 /\
      trace k2 = delta ++ CallRun 1 1 :: trace k1.
Proof.
  intros k.
  assert (E : currentModuleIx k = 1) by (vm_compute; reflexivity).
  split; [exact E|].
  assert (Ha : exitAnchor k <> None) by (vm_compute; discriminate).
  assert (Hix : currentModuleIx k <> 0) by (rewrite E; discriminate).
  assert (F1 : truthy (exiting k) = false) by (vm_compute; reflexivity).
  assert (F2 : truthy (tabbingInBackwards k) = false)
    by (vm_compute; reflexivity).
  assert (F3 : truthy (isClickingChart k) = false) by (vm_compute; reflexivity).
  assert (M0 : module_at (modules k) 0 = Some valid)
    by (vm_compute; reflexivity).
  assert (M1 : module_at (modules k) (currentModuleIx k) = Some valid)
    by (vm_compute; reflexivity).
  destruct (focus_entry_keeps_stale_index k valid (fun _ _ => true) valid Enter
              F1 F2 F3 M0 eq_refl Hix M1 Ha)
    as [_ [k1 [H1 [H2 [H3 [k2 [delta [H4 [H5 _]]]]]]]]].
  exists k1. split; [exact H1|]. split; [exact H2|]. split; [exact H3|].
  exists k2, delta. split; [exact H4 | exact H5].
Defined.

End Concrete.

(** * compose and the Escape key *)

Section CompositionProperties.

Import Composition.

Lemma item_eqb_eq a b : item_eqb a b = true <-> a = b.
Proof.
  destruct a as [c|], b as [c'|]; cbn; split; intros H;
    try discriminate; try reflexivity.
  - apply Nat.eqb_eq in H. now subst.
  - injection H as ->. apply Nat.eqb_refl.
Qed.

Lemma absent_false x l : absent x l = false <-> In x l.
Proof.
  unfold absent. rewrite negb_false_iff, existsb_exists. split.
  - intros [y [Hy Hxy]]. apply item_eqb_eq in Hxy. now subst y.
  - intros H. exists x. split; [exact H | now apply item_eqb_eq].
Qed.

Lemma absent_true x l : absent x l = true <-> ~ In x l.
Proof.
  split.
  - intros H Hin. apply absent_false in Hin. congruence.
  - intros H. destruct (absent x l) eqn:E; [reflexivity|].
    apply absent_false in E. contradiction.
Qed.

Lemma empty_consistent : consistent empty.
Proof.
  split; [constructor|]. split; [|reflexivity].
  intros c. split; intros [].
Qed.

Lemma in_snoc {A : Type} (y x : A) (l : list A) :
  In y (l ++ [x]) <-> In y l \/ y = x.
Proof.
  rewrite in_app_iff. cbn. split.
  - intros [H | [H | []]]; [now left | right; now symmetry].
  - intros [H | H]; [now left | right; left; now symmetry].
Qed.

Lemma NoDup_snoc {A : Type} (x : A) (l : list A) :
  NoDup l -> ~ In x l -> NoDup (l ++ [x]).
Proof.
  intros Hl Hx. induction Hl as [|y l Hy Hl IH]; cbn.
  - constructor; [intros [] | constructor].
  - constructor.
    + rewrite in_snoc. intros [H | H]; [contradiction|].
      apply Hx. left. now symmetry.
    + apply IH. intros H. apply Hx. now right.
Qed.

Lemma absent_snoc_other x y l :
  x <> y -> absent x (l ++ [y]) = absent x l.
Proof.
  intros Hxy. destruct (absent x l) eqn:E.
  - apply absent_true. apply absent_true in E.
    rewrite in_snoc. intros [H | H]; contradiction.
  - apply absent_false. apply absent_false in E.
    rewrite in_snoc. now left.
Qed.

Lemma compose_facts c r :
  consistent r ->
  consistent (compose c r) /\
  In Document (composedItems (compose c r)) /\
  (forall c', In c' (withDismiss (compose c r)) <->
              c' = c \/ In c' (withDismiss r)).
Proof.
  intros Hr. unfold compose. cbv zeta.
  set (r1 := if absent (ChartClass c) (composedItems r) then _ else r).
  assert (H1 : consistent r1 /\
               (forall c', In c' (withDismiss r1) <->
                           c' = c \/ In c' (withDismiss r))).
  { destruct Hr as [Hnd [Hcl Hdoc]]. unfold r1.
    destruct (absent (ChartClass c) (composedItems r)) eqn:Ec.
    - apply absent_true in Ec. split.
      + split; [|split]; cbn [composedItems withDismiss documentKeydown].
        * now apply NoDup_snoc.
        * intros c'. rewrite !in_snoc, Hcl. split.
          -- intros [H | H]; [now left | right; congruence].
          -- intros [H | H]; [now left | right; congruence].
        * rewrite absent_snoc_other by discriminate. exact Hdoc.
      + intros c'. cbn [withDismiss]. rewrite in_snoc. tauto.
    - apply absent_false in Ec. split.
      + split; [exact Hnd|]. split; [exact Hcl | exact Hdoc].
      + intros c'. split; [now right|].
        intros [-> | H]; [now apply Hcl | exact H]. }
  destruct H1 as [[Hnd [Hcl Hdoc]] Hw].
  destruct (absent Document (composedItems r1)) eqn:Ed.
  - apply absent_true in Ed.
    split; [|split]; cbn [composedItems withDismiss documentKeydown].
    + split; [|split]; cbn [composedItems withDismiss documentKeydown].
      * now apply NoDup_snoc.
      * intros c'. rewrite in_snoc, Hcl. split.
        -- intros [H | H]; [exact H | discriminate].
        -- intros H. now left.
      * assert (E : absent Document (composedItems r1 ++ [Document]) = false)
          by (apply absent_false; rewrite in_snoc; now right).
        rewrite E, Hdoc.
        destruct (absent Document (composedItems r1)) eqn:E0; [reflexivity|].
        apply absent_false in E0. contradiction.
    + rewrite in_snoc. now right.
    + exact Hw.
  - split; [|split].
    + split; [exact Hnd|]. split; [exact Hcl | now rewrite Ed].
    + now apply absent_false.
    + exact Hw.
Qed.

Lemma composeAll_snoc cs c :
  composeAll (cs ++ [c]) = compose c (composeAll cs).
Proof. unfold composeAll. now rewrite fold_left_app. Qed.

Lemma composeAll_facts cs :
  consistent (composeAll cs) /\
  (cs <> [] -> In Document (composedItems (composeAll cs))) /\
  (forall c, In c (withDismiss (composeAll cs)) <-> In c cs).
Proof.
  induction cs as [|c cs IH] using rev_ind.
  - split; [apply empty_consistent|]. split; [intros H; now elim H|].
    intros c. split; intros [].
  - destruct IH as [Hc [_ Hw]].
    rewrite composeAll_snoc.
    destruct (compose_facts c (composeAll cs) Hc) as [Hc' [Hd' Hw']].
    split; [exact Hc'|]. split; [intros _; exact Hd'|].
    intros c'. rewrite Hw', in_app_iff, Hw. cbn. intuition.
Qed.

(** X16: however often and for however many chart classes [compose] is
    called, the document gets one keydown listener - none before the
    first call - no item is remembered twice, and exactly the classes
    given have [dismissPopupContent]; calling [compose] again for a class
    changes nothing. *)
Theorem compose_adds_one_document_listener :
  forall cs,
    documentKeydown (composeAll cs) =
      (match cs with [] => 0 | _ => 1 end)%nat /\
    NoDup (composedItems (composeAll cs)) /\
    (forall c, In c (withDismiss (composeAll cs)) <-> In c cs) /\
    (forall c, In c cs -> compose c (composeAll cs) = composeAll cs).
Proof.
  intros cs.
  destruct (composeAll_facts cs) as [[Hnd [Hcl Hdoc]] [Hd Hw]].
  split; [|split; [exact Hnd | split; [exact Hw|]]].
  - rewrite Hdoc. destruct cs as [|c cs]; [reflexivity|].
    assert (E : absent Document (composedItems (composeAll (c :: cs))) = false)
      by (apply absent_false; apply Hd; discriminate).
    now rewrite E.
  - intros c Hin. unfold compose. cbv zeta.
    assert (E1 : absent (ChartClass c) (composedItems (composeAll cs)) = false)
      by (apply absent_false, Hcl, Hw; exact Hin).
    assert (E2 : absent Document (composedItems (composeAll cs)) = false).
    { apply absent_false, Hd. intros E. now rewrite E in Hin. }
    now rewrite E1, E2.
Qed.

Lemma existsb_same (x : nat) (l l' : list nat) :
  (forall c, In c l <-> In c l') ->
  existsb (Nat.eqb x) l = existsb (Nat.eqb x) l'.
Proof.
  intros H.
  destruct (existsb (Nat.eqb x) l) eqn:E; symmetry.
  - apply existsb_exists in E. destruct E as [y [Hy Hxy]].
    apply existsb_exists. exists y. split; [now apply H | exact Hxy].
  - destruct (existsb (Nat.eqb x) l') eqn:E'; [|reflexivity].
    apply existsb_exists in E'. destruct E' as [y [Hy Hxy]].
    assert (existsb (Nat.eqb x) l = true)
      by (apply existsb_exists; exists y; split; [now apply H | exact Hxy]).
    congruence.
Qed.

Lemma compose_adds_one_listener_aux cs :
  cs <> [] ->
  documentKeydown (composeAll cs) = 1%nat /\
  (forall c, In c (withDismiss (composeAll cs)) <-> In c cs).
Proof.
  intros Hne.
  destruct (composeAll_facts cs) as [[_ [_ Hdoc]] [Hd Hw]].
  split; [|exact Hw].
  assert (E : absent Document (composedItems (composeAll cs)) = false)
    by (apply absent_false; apply Hd; exact Hne).
  now rewrite Hdoc, E.
Qed.

(** X17: after [compose] has been called for some classes, a keydown on
    the document with key code 27 - in [which], or in [keyCode] when
    [which] is missing or 0 - calls [dismissPopupContent] once on each
    chart that is still there and whose class was composed, in the order
    of the chart list, passing over destroyed charts; any other key calls
    none. Before the first [compose] no key does anything. *)
Theorem escape_dismisses_composed_charts :
  forall cs charts e,
    keydownOnDocument (composeAll []) (Some charts) e = [] /\
    (cs <> [] ->
     keydownOnDocument (composeAll cs) (Some charts) e =
       if isEscape e then liveOfClasses cs charts else []).
Proof.
  intros cs charts e. split; [reflexivity|].
  intros Hne.
  destruct (compose_adds_one_listener_aux cs Hne) as [Hk Hw].
  unfold keydownOnDocument. rewrite Hk. cbn [repeat List.concat].
  rewrite app_nil_r. unfold documentOnKeydown, liveOfClasses.
  destruct (isEscape e); [|reflexivity].
  induction charts as [|entry charts IH]; [reflexivity|].
  cbn [flat_map]. rewrite IH. f_equal.
  destruct entry as [ch|]; [|reflexivity].
  now rewrite (existsb_same _ _ cs Hw).
Qed.

End CompositionProperties.

(** * The map zoom module *)

Section ZoomProperties.

Import Zoom.

(** X18: on a map with its two zoom buttons, the module and the class
    agree on directions. After [onMapNavInit(direction)] the first
    button in that direction is focused and selected; a Tab in that
    direction selects the other button and answers success; the next one
    deselects it, resets the zoom once and answers next (forward) or
    prev (backward), leaving no button selected. A Tab against the
    direction right after the initialization leaves at once, the other
    way. *)
Theorem map_zoom_tab_traversal :
  forall (r : Response.t) c s0 s1 d,
    hasMapZoom c = true ->
    mapNavButtons c = Some [s0; s1] ->
    let forward := d >? 0 in
    exists c1 c2 c3 c4,
      onMapNavInit d c = Returns c1 /\
      focusedMapNavButtonIx c1 = Some (if forward then 0 else 1) /\
      focusElement c1 = focusedMapNavButtonIx c1 /\
      mapNavButtons c1 = Some (if forward then [2; s1] else [s0; 2]) /\
      onMapKbdTab r (negb forward) c1 = Returns (Response.success r, c2) /\
      focusedMapNavButtonIx c2 = Some (if forward then 1 else 0) /\
      focusElement c2 = focusedMapNavButtonIx c2 /\
      mapNavButtons c2 = Some (if forward then [0; 2] else [2; 0]) /\
      onMapKbdTab r (negb forward) c2 =
        Returns (if forward then Response.next r else Response.prev r, c3) /\
      mapNavButtons c3 = Some [0; 0] /\
      zoomResets c3 = S (zoomResets c) /\
      onMapKbdTab r forward c1 =
        Returns (if forward then Response.prev r else Response.next r, c4) /\
      mapNavButtons c4 = Some (if forward then [0; s1] else [s0; 0]) /\
      zoomResets c4 = S (zoomResets c).
Proof.
  intros r c s0 s1 d Hz Hb forward. unfold forward.
  destruct c as [hz bs ix fe zr]. cbn in Hz, Hb. subst hz bs.
  unfold onMapNavInit. cbn [mapNavButtons].
  destruct (d >? 0); cbn; do 4 eexists; repeat split.
Qed.

(** X19: [validate] does not make [init] safe. A chart with [mapZoom]
    and a single navigation button passes [chartHasMapZoom], but
    [onMapNavInit] with a direction that is not positive throws a
    TypeError, and after a forward initialization the first Tab forward
    throws as well. On any chart, a Tab before the first initialization
    throws. *)
Theorem map_zoom_single_button_throws :
  forall (r : Response.t) c,
    (forall s,
       hasMapZoom c = true -> mapNavButtons c = Some [s] ->
       chartHasMapZoom c = true /\
       (forall d, d <= 0 -> onMapNavInit d c = ThrowsTypeError) /\
       (forall d, 0 < d ->
          exists c1,
            onMapNavInit d c = Returns c1 /\
            onMapKbdTab r false c1 = ThrowsTypeError)) /\
    (focusedMapNavButtonIx c = None ->
     forall shift, onMapKbdTab r shift c = ThrowsTypeError).
Proof.
  intros r c. split.
  - intros s Hz Hb. destruct c as [hz bs ix fe zr]. cbn in Hz, Hb. subst hz bs.
    split; [reflexivity|]. split.
    + intros d Hd. unfold onMapNavInit. cbn [mapNavButtons].
      destruct (Z.gtb_spec d 0); [lia | reflexivity].
    + intros d Hd. unfold onMapNavInit. cbn [mapNavButtons].
      destruct (Z.gtb_spec d 0); [|lia].
      cbn. eexists. split; reflexivity.
  - intros Hix shift. unfold onMapKbdTab. rewrite Hix.
    now destruct (mapNavButtons c).
Qed.

End ZoomProperties.

(** * The further properties on concrete charts *)

Section ConcreteExtras.

Import Example.

Local Abbreviation KN := (KeyboardNavigation bool Key Name).

(** A witness of X1: after focus has entered, Tab, a pointer-up outside
    and a backward entry. *)
Lemma index_stays_in_sequence_witness :
  let k := after [Focus false] [Series; Legend] in
  let inputs := [Keydown Tab; MouseUp; ExitAnchorFocus false] in
  index_ok k /\
  forallb keeps_modules inputs = true /\
  exists k',
    steps inputs k = Returns k' /\
    modules k' = modules k /\ exitAnchor k' = exitAnchor k /\ index_ok k'.
Proof.
  intros k inputs.
  assert (Hk : index_ok k) by (left; vm_compute; reflexivity).
  assert (Hin : forallb keeps_modules inputs = true) by reflexivity.
  assert (Hs : steps inputs k =
               Returns (after [Focus false; Keydown Tab; MouseUp;
                               ExitAnchorFocus false] [Series; Legend]))
    by (vm_compute; reflexivity).
  split; [exact Hk|]. split; [exact Hin|].
  eexists. split; [exact Hs|].
  exact (index_stays_in_sequence inputs k _ Hk Hin Hs).
Defined.

(** A witness of X2: a chart built with three modules. *)
Lemma reachable_sequence_has_exit_anchor_witness :
  let k := start [Series; Zoom] in
  reachable k /\ modules k <> [] /\ exitAnchor k <> None.
Proof.
  intros k.
  assert (Hr : reachable k) by apply start_reachable.
  assert (E : modules k = [valid; invalid; invalid])
    by (vm_compute; reflexivity).
  assert (Hm : modules k <> []) by (rewrite E; discriminate).
  split; [exact Hr|]. split; [exact Hm|].
  exact (reachable_sequence_has_exit_anchor k Hr Hm).
Defined.

(** A witness of X3: Tab on that chart. *)
Lemma reachable_keydown_returns_witness :
  let k := start [Series; Zoom] in
  reachable k /\ exists k', onKeydown Tab k = Returns k'.
Proof.
  intros k.
  assert (Hr : reachable k) by apply start_reachable.
  split; [exact Hr|].
  exact (reachable_keydown_returns k Tab Hr).
Defined.

(** A witness of X4: forward from the first of four modules. *)
Lemma move_terminates_the_modules_it_skips_witness :
  let k := start [Series; Zoom; Legend] in
  exists b k' delta,
    move (enough k) 1 k = Returns (b, k') /\
    trace k' = delta ++ trace k /\
    In (CallTerminate 0 (Some 1)) delta.
Proof.
  intros k.
  assert (Hm : move (enough k) 1 k =
               Returns (true, after [Move 1] [Series; Zoom; Legend]))
    by (vm_compute; reflexivity).
  destruct (move_terminates_the_modules_it_skips _ _ _ _ _ Hm)
    as [delta [Ht [Hc _]]].
  exists true, (after [Move 1] [Series; Zoom; Legend]), delta.
  split; [exact Hm|]. split; [exact Ht|].
  assert (E0 : currentModuleIx k = 0) by (vm_compute; reflexivity).
  assert (M0 : module_at (modules k) (currentModuleIx k) = Some valid)
    by (vm_compute; reflexivity).
  rewrite <- E0. apply (Hc valid M0). discriminate.
Defined.

(** A witness of X5: [next] on a chart with its exit anchor. *)
Lemma next_throws_only_without_anchor_witness :
  let k := start [Series] in
  exitAnchor k <> None /\ exists b k', next k = Returns (b, k').
Proof.
  intros k.
  assert (Ha : exitAnchor k <> None) by (vm_compute; discriminate).
  split; [exact Ha|].
  exact (proj1 (proj2 (next_throws_only_without_anchor k)) Ha).
Defined.

(** A witness of X6: the index on an invalid module. *)
Lemma move_zero_diverges_witness :
  let k := set_currentModuleIx 1 (start [Series; Zoom]) in
  module_at (modules k) (currentModuleIx k) = Some invalid /\
  always_invalid invalid /\
  move 7 0 k = OutOfFuel.
Proof.
  intros k.
  assert (Hm : module_at (modules k) (currentModuleIx k) = Some invalid)
    by (vm_compute; reflexivity).
  split; [exact Hm|]. split; [exact invalid_always_invalid|].
  exact (move_zero_diverges 7 k invalid Hm invalid_always_invalid).
Defined.

(** A witness of X7: over two invalid modules and back. *)
Lemma next_then_prev_comes_back_witness :
  let k := after [Focus false] [Series; Zoom; Legend] in
  module_at (modules k) (currentModuleIx k) = Some valid /\
  currentModuleIx k < 3 /\
  module_at (modules k) 3 = Some valid /\
  exists k1 k2,
    next k = Returns (true, k1) /\ currentModuleIx k1 = 3 /\
    prev k1 = Returns (true, k2) /\
    currentModuleIx k2 = currentModuleIx k.
Proof.
  intros k.
  assert (E0 : currentModuleIx k = 0) by (vm_compute; reflexivity).
  assert (Em : modules k = [valid; invalid; invalid; valid])
    by (vm_compute; reflexivity).
  assert (Hi : module_at (modules k) (currentModuleIx k) = Some valid)
    by (vm_compute; reflexivity).
  assert (Hlt : currentModuleIx k < 3) by (rewrite E0; lia).
  assert (Hj : module_at (modules k) 3 = Some valid)
    by (vm_compute; reflexivity).
  assert (Hf : Handler.init valid = Some (fun _ _ => true)) by reflexivity.
  assert (Hb : forall i m, currentModuleIx k < i < 3 ->
                           module_at (modules k) i = Some m ->
                           always_invalid m).
  { intros i m Hi3. rewrite E0 in Hi3. rewrite Em.
    rewrite !module_at_cons, module_at_nil.
    destruct (Z.eqb_spec i 0); [lia|].
    destruct (Z.eqb_spec (i - 1) 0);
      [intros H; injection H as <-; exact invalid_always_invalid|].
    destruct (Z.eqb_spec (i - 1 - 1) 0);
      [intros H; injection H as <-; exact invalid_always_invalid|].
    destruct (Z.eqb_spec (i - 1 - 1 - 1) 0); [lia | discriminate]. }
  split; [exact Hi|]. split; [exact Hlt|]. split; [exact Hj|].
  exact (next_then_prev_comes_back k 3 valid _ valid _ Hi valid_always_valid Hf
           Hlt Hj valid_always_valid Hf Hb).
Defined.

(** A witness of X9: focus enters a chart whose first module has no
    [init]. *)
Lemma entry_without_init_throws_witness :
  let k := start [Broken; Series] in
  entersFromOutside false k = true /\
  module_at (modules k) 0 = Some bare /\ Handler.init bare = None /\
  onFocus false k = ThrowsTypeError.
Proof.
  intros k.
  assert (He : entersFromOutside false k = true) by (vm_compute; reflexivity).
  assert (Hm : module_at (modules k) 0 = Some bare)
    by (vm_compute; reflexivity).
  assert (Hi : Handler.init bare = None) by reflexivity.
  split; [exact He|]. split; [exact Hm|]. split; [exact Hi|].
  apply (proj1 (entry_without_init_throws k) false).
  split; [exact He|]. exists bare. split; [exact Hm | exact Hi].
Defined.

(** A witness of X10: a chart with two invalid modules. *)
Lemma backward_entry_all_invalid_leaves_witness :
  let k := start [Zoom] in
  truthy (exiting k) = false /\ modules k <> [] /\
  exists k',
    onExitAnchorFocus false k = Returns k' /\
    currentModuleIx k' = 0 /\ exiting k' = Some true.
Proof.
  intros k.
  assert (He : truthy (exiting k) = false) by (vm_compute; reflexivity).
  assert (Em : modules k = [invalid; invalid]) by (vm_compute; reflexivity).
  assert (Hne : modules k <> []) by (rewrite Em; discriminate).
  assert (Hall : forall i m, module_at (modules k) i = Some m ->
                             always_invalid m).
  { intros i m. rewrite Em. rewrite !module_at_cons, module_at_nil.
    destruct (i =? 0);
      [intros H; injection H as <-; exact invalid_always_invalid|].
    destruct (i - 1 =? 0);
      [intros H; injection H as <-; exact invalid_always_invalid|].
    discriminate. }
  split; [exact He|]. split; [exact Hne|].
  destruct (backward_entry_all_invalid_leaves k He Hne Hall)
    as [k' [mid [H1 [H2 [H3 _]]]]].
  exists k'. auto.
Defined.

(** A witness of X11: Enter, then a pointer-up outside. *)
Lemma keydown_rearms_pointer_reset_witness :
  let k := onMouseUp (after [Focus false] [Series; Legend]) in
  keyboardReset k = Some true /\
  truthy (pointerIsOverChart k) = false /\
  exists k1,
    onKeydown Enter k = Returns k1 /\
    keyboardReset k1 = Some false /\
    keyboardReset (onMouseUp k1) = Some true.
Proof.
  intros k.
  assert (Hr : keyboardReset k = Some true) by (vm_compute; reflexivity).
  assert (Hp : truthy (pointerIsOverChart k) = false)
    by (vm_compute; reflexivity).
  assert (Hk : onKeydown Enter k =
               Returns (after [Focus false; MouseUp; Keydown Enter]
                          [Series; Legend]))
    by (vm_compute; reflexivity).
  split; [exact Hr|]. split; [exact Hp|].
  destruct (keydown_rearms_pointer_reset Enter k _ Hk Hp) as [H1 [_ [H3 _]]].
  eexists. split; [exact Hk|]. split; [exact H1 | exact H3].
Defined.

(** A witness of X12: an update without an order. *)
Lemma update_without_order_is_inert_witness :
  let k := start [Series; Legend] in
  navigationEnabled k && nonEmptyOrder (@None (list Name)) = false /\
  modules (update None k) = [] /\
  trace (update None k) = trace k.
Proof.
  intros k.
  assert (Hn : navigationEnabled k && nonEmptyOrder (@None (list Name)) = false)
    by (vm_compute; reflexivity).
  split; [exact Hn|].
  destruct (update_without_order_is_inert None k Hn) as [H1 [_ [H3 _]]].
  split; [exact H1 | exact H3].
Defined.

(** A witness of X13: the chart of the examples has no tabindex. *)
Lemma container_tabindex_after_update_witness :
  let k := init theChart components in
  explicitlyDisabled k = false /\
  truthy_attr (tabindexOf (updateContainerTabindex k)) = true.
Proof.
  intros k.
  assert (Hd : explicitlyDisabled k = false) by (vm_compute; reflexivity).
  split; [exact Hd|].
  exact (proj2 (proj1 (proj2 (proj2 (container_tabindex_after_update k))) Hd)).
Defined.

(** A witness of X14: the first update with an order. *)
Lemma exit_anchor_mirrors_tab_stop_witness :
  let k := init theChart components in
  let order := Some [Series] in
  navigationEnabled k && nonEmptyOrder order = true /\
  exists a,
    exitAnchor (update order k) = Some a /\
    tabindexOf (update order k) = Some (anchorTabindex a).
Proof.
  intros k order.
  assert (Hn : navigationEnabled k && nonEmptyOrder order = true)
    by (vm_compute; reflexivity).
  split; [exact Hn|].
  destruct (exit_anchor_mirrors_tab_stop order k Hn) as [a [H1 [H2 _]]].
  exists a. split; [exact H1 | exact H2].
Defined.

(** A witness of X15: [next] from the only module leaves the chart. *)
Lemma focus_after_leaving_is_skipped_witness :
  let k := after [Focus false] [Series] in
  exists k1,
    move (enough k) 1 k = Returns (false, k1) /\
    onFocus false k1 = Returns (set_exiting (Some false) k1).
Proof.
  intros k.
  assert (Hm : move (enough k) 1 k =
               Returns (false, after [Focus false; Move 1] [Series]))
    by (vm_compute; reflexivity).
  eexists. split; [exact Hm|].
  exact (proj1 (focus_after_leaving_is_skipped _ _ _ _ Hm false)).
Defined.

(** A witness of X16: a class composed twice. *)
Lemma compose_adds_one_document_listener_witness :
  In 1%nat [1; 2; 1]%nat /\
  Composition.compose 1 (Composition.composeAll [1; 2; 1]%nat)
  = Composition.composeAll [1; 2; 1]%nat.
Proof.
  assert (Hin : In 1%nat [1; 2; 1]%nat) by (left; reflexivity).
  split; [exact Hin|].
  exact (proj2 (proj2 (proj2
           (compose_adds_one_document_listener [1; 2; 1]%nat))) 1%nat Hin).
Defined.

(** A witness of X17: Escape with a destroyed chart and a chart of a
    class that was not composed. *)
Lemma escape_dismisses_composed_charts_witness :
  let charts :=
    [Some {| Composition.chartId := 1; Composition.chartClass := 1 |};
     None;
     Some {| Composition.chartId := 2; Composition.chartClass := 5 |}] in
  let e := {| Composition.which := None; Composition.keyCode := Some 27 |} in
  [1%nat] <> [] /\
  Composition.keydownOnDocument (Composition.composeAll [1%nat])
    (Some charts) e = [1%nat].
Proof.
  intros charts e.
  assert (Hne : [1%nat] <> []) by discriminate.
  split; [exact Hne|].
  exact (proj2 (escape_dismisses_composed_charts [1%nat] charts e) Hne).
Defined.

(** A witness of X18: a map with both buttons unselected, forward. *)
Lemma map_zoom_tab_traversal_witness :
  let c := Zoom.mkMapNav true (Some [0; 0]) None None 0 in
  Zoom.hasMapZoom c = true /\
  Zoom.mapNavButtons c = Some [0; 0] /\
  exists c1 c2 c3,
    Zoom.onMapNavInit 1 c = Returns c1 /\
    Zoom.onMapKbdTab Example.codes false c1 = Returns (1, c2) /\
    Zoom.onMapKbdTab Example.codes false c2 = Returns (3, c3).
Proof.
  intros c.
  assert (Hz : Zoom.hasMapZoom c = true) by reflexivity.
  assert (Hb : Zoom.mapNavButtons c = Some [0; 0]) by reflexivity.
  split; [exact Hz|]. split; [exact Hb|].
  destruct (map_zoom_tab_traversal Example.codes c 0 0 1 Hz Hb)
    as [c1 [c2 [c3 [c4 [H1 [_ [_ [_ [H5 [_ [_ [_ [H9 _]]]]]]]]]]]]].
  exists c1, c2, c3. split; [exact H1|]. split; [exact H5 | exact H9].
Defined.

(** A witness of X19: a map with one button, backward. *)
Lemma map_zoom_single_button_throws_witness :
  let c := Zoom.mkMapNav true (Some [0]) None None 0 in
  Zoom.hasMapZoom c = true /\
  Zoom.mapNavButtons c = Some [0] /\
  Zoom.chartHasMapZoom c = true /\
  Zoom.onMapNavInit (-1) c = ThrowsTypeError.
Proof.
  intros c.
  assert (Hz : Zoom.hasMapZoom c = true) by reflexivity.
  assert (Hb : Zoom.mapNavButtons c = Some [0]) by reflexivity.
  split; [exact Hz|]. split; [exact Hb|].
  destruct (proj1 (map_zoom_single_button_throws Example.codes c) 0 Hz Hb)
    as [H1 [H2 _]].
  split; [exact H1|]. apply H2. lia.
Defined.

End ConcreteExtras.
